(** * raygun4reactnative: the crash-report pipeline, embedded and checked

    A shallow embedding of the two client modules of the repository:

    - the [Rg4rn] client (module-level [curSession], [GlobalOptions],
      [canEnableNative]; functions [addTag], [setUser], [addCustomData],
      [updateCustomData], [recordBreadcrumb], [clearSession],
      [generatePayload], [processUnhandledError], the stack helpers);
    - [sdk/src/RaygunClient.ts] (module-level [initialized], [options],
      [currentTags], [currentUser]; the guarded public surface), in
      [Module Sdk].

    JavaScript strings are modelled by [string] (code units restricted to
    8 bits), JavaScript [Set]s by duplicate-free lists in insertion order,
    objects that the code mutates in place or shares by reference live in
    an explicit store, and every function of the client is a computation in
    a state-and-exception monad over the module-level variables. *)

From Stdlib Require Import ZArith List String Ascii Bool Lia QArith DecimalString.
From stdpp Require Import base option list strings gmap fin_maps.

Local Open Scope Z_scope.
Local Open Scope string_scope.
Local Open Scope list_scope.

(* ===================================================================== *)
(** ** JavaScript strings *)
(* ===================================================================== *)

Module JsString.

(** WhiteSpace and LineTerminator code units below 256: the characters
    removed by [String.prototype.trim] and matched by [\s]. *)
Definition isSpace (c : ascii) : bool :=
  let n := nat_of_ascii c in
  ((9 <=? n) && (n <=? 13) || (n =? 32) || (n =? 160))%nat.

(** LineTerminator: the characters [.] does not match. *)
Definition isLineTerminator (c : ascii) : bool :=
  let n := nat_of_ascii c in ((n =? 10) || (n =? 13))%nat.

Fixpoint startsWith (needle s : string) : bool :=
  match needle, s with
  | EmptyString, _ => true
  | String a n', String b s' => Ascii.eqb a b && startsWith n' s'
  | String _ _, EmptyString => false
  end.

(** [s.indexOf(needle)] scanned from position [i]; [-1] when absent. *)
Fixpoint indexOf_from (needle s : string) (i : Z) : Z :=
  if startsWith needle s then i
  else match s with
       | EmptyString => -1
       | String _ s' => indexOf_from needle s' (i + 1)
       end.

Definition indexOf (s needle : string) : Z := indexOf_from needle s 0.

Definition includes (s needle : string) : bool := (0 <=? indexOf s needle)%Z.

(** [s.slice(0, n)] for [0 <= n]. *)
Fixpoint take (n : nat) (s : string) : string :=
  match n, s with
  | O, _ => EmptyString
  | S n', String c s' => String c (take n' s')
  | S _, EmptyString => EmptyString
  end.

Definition slice0 (s : string) (pos : Z) : string := take (Z.to_nat pos) s.

Fixpoint trimStart (s : string) : string :=
  match s with
  | String c s' => if isSpace c then trimStart s' else s
  | EmptyString => EmptyString
  end.

(** Removes the white space at the end: a character is kept when it is
    not white space or when something is kept after it. *)
Fixpoint trimEnd (s : string) : string :=
  match s with
  | EmptyString => EmptyString
  | String c s' =>
      match trimEnd s' with
      | EmptyString => if isSpace c then EmptyString else String c EmptyString
      | t => String c t
      end
  end.

Definition trim (s : string) : string := trimEnd (trimStart s).

(** *** Numbers as text *)

Definition decimal (z : Z) : string := NilZero.string_of_int (Z.to_int z).

(** The double nearest to a natural number: 53 significant bits, ties to
    the even one. *)
Definition roundDouble (m : Z) : Z :=
  let bits := Z.log2 m + 1 in
  if (bits <=? 53)%Z then m
  else
    let e := bits - 53 in
    let q := Z.shiftr m e in
    let r := m - Z.shiftl q e in
    let half := Z.shiftl 1 (e - 1) in
    Z.shiftl (if ((half <? r) || ((r =? half) && Z.odd q))%Z then q + 1 else q) e.

(** Number::toString, step 5, for the double [x]: the [k]-digit numbers
    [s] with [s * 10^(n-k)] rounding to [x], each with its distance to [x]
    and its [n]. *)
Definition candidates (x k : Z) : list (Z * Z * Z) :=
  let len := Z.of_nat (String.length (decimal x)) in
  flat_map (fun n =>
    let e := n - k in
    if (e <? 0)%Z then []
    else
      let low := x / 10 ^ e in
      flat_map (fun s =>
        if ((10 ^ (k - 1) <=? s) && (s <? 10 ^ k) && (roundDouble (s * 10 ^ e) =? x))%Z
        then [(Z.abs (s * 10 ^ e - x), s, n)]
        else [])
        [low; low + 1])
    [len; len + 1].

(** The candidate closest to [x]; of two at the same distance, the even one. *)
Fixpoint closest (cs : list (Z * Z * Z)) : option (Z * Z * Z) :=
  match cs with
  | [] => None
  | (d, s, n) :: cs' =>
      match closest cs' with
      | Some (d', s', n') =>
          if ((d' <? d) || ((d' =? d) && Z.even s'))%Z then Some (d', s', n')
          else Some (d, s, n)
      | None => Some (d, s, n)
      end
  end.

(** The least number of digits that gives a candidate: [(s, k, n)]. *)
Definition shortest (x : Z) : option (Z * Z * Z) :=
  fold_left (fun found k =>
               match found with
               | Some _ => found
               | None =>
                   match closest (candidates x k) with
                   | Some (_, s, n) => Some (s, k, n)
                   | None => None
                   end
               end)
            (map Z.of_nat (seq 1 17)) None.

Fixpoint zeros (n : nat) : string :=
  match n with
  | O => EmptyString
  | S n' => String "0" (zeros n')
  end.

(** Number::toString for an integer, read as the double nearest to it:
    the digits of [s] followed by zeros up to 21 digits, the exponent
    form from there on. *)
Definition ofInteger (z : Z) : string :=
  if (z =? 0)%Z then "0"
  else
    let sign := if (z <? 0)%Z then "-" else "" in
    let x := roundDouble (Z.abs z) in
    if (2 ^ 1024 <=? x)%Z then sign ++ "Infinity"
    else
      match shortest x with
      | Some (s, k, n) =>
          if (n <=? 21)%Z then sign ++ decimal s ++ zeros (Z.to_nat (n - k))
          else
            match decimal s with
            | String d ds =>
                sign ++ String d (if (k =? 1)%Z then "" else "." ++ ds)
                     ++ "e+" ++ decimal (n - 1)
            | EmptyString => EmptyString
            end
      | None => decimal z
      end.

(** Template-literal rendering of a number that may be [null]. *)
Definition ofNumber (n : option Z) : string :=
  match n with
  | None => "null"
  | Some z => ofInteger z
  end.

End JsString.

(* ===================================================================== *)
(** ** Regular expressions: a backtracking matcher with capture groups *)
(* ===================================================================== *)

Module Regex.

Inductive regex : Type :=
| Eps                              (* the empty pattern            *)
| Chr (c : ascii)                  (* a literal character          *)
| Dot                              (* [.]                          *)
| NotChr (c : ascii)               (* [[^c]]                       *)
| Space                            (* [\s]                         *)
| EndAnchor                        (* [$], no multiline flag       *)
| Seq (r1 r2 : regex)
| Alt (r1 r2 : regex)              (* [r1|r2], left first          *)
| Star (r : regex)                 (* greedy [r*]                  *)
| Group (n : nat) (r : regex).     (* capturing group number [n]   *)

Definition Opt (r : regex) : regex := Alt r Eps.        (* greedy [r?] *)
Definition Plus (r : regex) : regex := Seq r (Star r).  (* greedy [r+] *)

Fixpoint Lit (s : string) : regex :=
  match s with
  | EmptyString => Eps
  | String c s' => Seq (Chr c) (Lit s')
  end.

(** Captures: group number to the text it last matched. *)
Definition captures := list (nat * string).

Fixpoint capture (caps : captures) (n : nat) : option string :=
  match caps with
  | [] => None
  | (m, t) :: caps' => if (m =? n)%nat then Some t else capture caps' n
  end.

Definition consumed (s rest : string) : string :=
  JsString.take (String.length s - String.length rest) s.

Definition one (p : ascii -> bool) (s : string) (caps : captures)
  : list (string * captures) :=
  match s with
  | String c s' => if p c then [(s', caps)] else []
  | EmptyString => []
  end.

(** [run r s caps] lists, in the order a backtracking engine tries them,
    every way [r] matches a prefix of [s]: the unread rest of the input
    and the captures. An iteration of [Star] that reads nothing is
    rejected, as in ECMAScript. *)
Fixpoint run (r : regex) (s : string) (caps : captures)
  : list (string * captures) :=
  match r with
  | Eps => [(s, caps)]
  | Chr c => one (Ascii.eqb c) s caps
  | Dot => one (fun c => negb (JsString.isLineTerminator c)) s caps
  | NotChr c => one (fun d => negb (Ascii.eqb c d)) s caps
  | Space => one JsString.isSpace s caps
  | EndAnchor => match s with EmptyString => [(s, caps)] | _ => [] end
  | Seq r1 r2 =>
      flat_map (fun sc => run r2 (fst sc) (snd sc)) (run r1 s caps)
  | Alt r1 r2 => run r1 s caps ++ run r2 s caps
  | Star r' =>
      (fix iter (fuel : nat) (s : string) (caps : captures) {struct fuel}
         : list (string * captures) :=
         match fuel with
         | O => [(s, caps)]
         | S fuel' =>
             flat_map
               (fun sc =>
                  if (String.length (fst sc) <? String.length s)%nat
                  then iter fuel' (fst sc) (snd sc) else [])
               (run r' s caps)
             ++ [(s, caps)]
         end) (String.length s) s caps
  | Group n r' =>
      map (fun sc => (fst sc, (n, consumed s (fst sc)) :: snd sc))
          (run r' s caps)
  end.

(** [re.exec(s)] for a pattern that starts with [^]: the first match at
    position 0, as its captures. *)
Definition exec_anchored (r : regex) (s : string) : option captures :=
  match run r s [] with
  | [] => None
  | (_, caps) :: _ => Some caps
  end.

(** [s.match(re)] as a truth value, for an unanchored pattern without
    the global flag: is there a start position with a match? *)
Fixpoint test (r : regex) (s : string) : bool :=
  match run r s [] with
  | _ :: _ => true
  | [] => match s with
          | EmptyString => false
          | String _ s' => test r s'
          end
  end.

End Regex.


(* ===================================================================== *)
(** ** Data model *)
(* ===================================================================== *)

(** JSON scalars: the values kept in custom data and environment info. *)
Inductive JVal : Type :=
| JNull
| JBool (b : bool)
| JNum (q : Q)
| JStr (s : string).

(** [CustomData]: a JavaScript object used as a map from keys to values. *)
Abbreviation CustomData := (gmap string JVal).

(** A reference to an object of the store. *)
Abbreviation loc := nat (only parsing).

(** [StackFrame] of react-native's [parseErrorStack]. *)
Record StackFrame : Type := mkFrame {
  file : option string;          (* [None]: null *)
  methodName : string;
  lineNumber : option Z;
  column : option Z
}.

(** What the code reads of a thrown [Error]; [None] is a missing property. *)
Record ErrorObj : Type := mkError {
  name : option string;
  message : option string;
  stack : option string
}.

(** [User]: every property is optional on the JavaScript object. *)
Record User : Type := mkUser {
  identifier : option string;
  isAnonymous : option bool;
  firstName : option string;
  fullName : option string;
  email : option string
}.

(** The argument of [setUser]: [User | string], and [undefined], which a
    JavaScript caller can pass all the same. *)
Inductive UserArg : Type :=
| UString (s : string)
| UObject (u : User)
| UUndefined.

(** [Breadcrumb]. Its fields carry the prefix [b_] where the name is also
    a field of [Session] or [ErrorObj]. The custom data is an object of
    the store: the breadcrumb holds a reference to it, and so does
    whoever else was handed the object. *)
Record Breadcrumb : Type := mkBreadcrumb {
  b_customData : loc;
  category : string;
  level : string;
  b_message : string;
  timestamp : Z
}.

(** [BreadcrumbOption]: the optional [details] of [recordBreadcrumb]. The
    custom data, when given, is an object of the caller's: a reference. *)
Record BreadcrumbOption : Type := mkBreadcrumbOption {
  o_customData : option loc;
  o_category : option string;
  o_level : option string
}.

(** [Session]. The tag [Set], the custom-data object and the breadcrumb
    array are objects of the store: the session holds references. The
    user object is replaced as a whole and never changed in place, so it
    is kept as a value. *)
Record Session : Type := mkSession {
  tags : loc;
  customData : loc;
  breadcrumbs : loc;
  user : User
}.

(** *** The report as sent: [CrashReportPayload] *)

Record WireFrame : Type := mkWireFrame {
  FileName : option string;
  MethodName : string;
  LineNumber : option Z;
  ColumnNumber : option Z;
  F_ClassName : string
}.

Record WireError : Type := mkWireError {
  ClassName : string;
  Message : string;
  StackTrace : list WireFrame;
  StackString : string
}.

Record WireClient : Type := mkWireClient {
  Name : string;
  C_Version : string
}.

Record WireUser : Type := mkWireUser {
  Identifier : option string;
  IsAnonymous : option bool;
  FirstName : option string;
  FullName : option string;
  Email : option string
}.

(** A breadcrumb of the report, [Details] and the payload are
    parameterised by what stands for a custom-data object: a reference
    [loc] in the object the client holds (the payload shares the
    session's custom-data object, and each of its breadcrumbs shares the
    custom-data object of the session's breadcrumb), the object's
    contents in the serialised report. *)
Record WireBreadcrumb (D : Type) : Type := mkWireBreadcrumb {
  CustomData_ : D;
  Category : string;
  Level : string;
  B_Message : string;
  Timestamp : Z
}.
Arguments mkWireBreadcrumb {D}.
Arguments CustomData_ {D}. Arguments Category {D}. Arguments Level {D}.
Arguments B_Message {D}. Arguments Timestamp {D}.

Record Details (D : Type) : Type := mkDetails {
  Error : WireError;
  Environment : gmap string JVal;
  Client : WireClient;
  UserCustomData : D;
  Tags : list string;
  User_ : WireUser;
  Breadcrumbs : list (WireBreadcrumb D);
  Version : string
}.
Arguments mkDetails {D}.
Arguments Error {D}. Arguments Environment {D}. Arguments Client {D}.
Arguments UserCustomData {D}. Arguments Tags {D}. Arguments User_ {D}.
Arguments Breadcrumbs {D}. Arguments Version {D}.

Record Payload (D : Type) : Type := mkPayload {
  OccurredOn : Z;
  Details_ : Details D
}.
Arguments mkPayload {D}. Arguments OccurredOn {D}. Arguments Details_ {D}.

Abbreviation CrashReportPayload := (Payload loc).
Abbreviation Json := (Payload CustomData).

(** *** The before-send handler *)

(** An assignment the handler attempts on the payload it is given. *)
Inductive PayloadWrite : Type :=
| Write_OccurredOn (d : Z)              (* payload.OccurredOn = d               *)
| Write_Details (d : Details loc)       (* payload.Details = d                  *)
| Write_Error_Message (m : string)      (* payload.Details.Error.Message = m    *)
| Write_Tags_push (t : string).         (* payload.Details.Tags.push(t)         *)

(** A handler: whether its code is strict, and from the report it reads,
    the assignments it attempts and the truth value of what it returns. *)
Record BeforeSendHandler : Type := mkHandler {
  strictMode : bool;
  handler : Json -> list PayloadWrite * bool
}.

(** [RaygunClientOptions] as passed to [init]: every option may be left out. *)
Record RaygunClientOptions : Type := mkOptions {
  apiKey : option string;
  version : option string;
  enableNative : option bool;
  enableRUM : option bool;
  enableNetworkMonitoring : option bool;
  ignoreURLs : option (list string);
  onBeforeSend : option BeforeSendHandler
}.

(** *** The host: what the client imports and cannot see into *)

(** [NativeModules.Rg4rn] when the native module is linked. *)
Record Bridge : Type := mkBridge {
  init_is_function : bool;                     (* typeof Rg4rn.init === 'function' *)
  hasInitialized : bool;
  getEnvironmentInfo : option (gmap string JVal) (* [None]: no such method *)
}.

Record Host : Type := mkHost {
  DEV : bool;                                     (* __DEV__ *)
  Platform_OS : string;
  clientVersion : string;
  Rg4rn : option Bridge;                          (* [None]: undefined *)
  parseErrorStack : ErrorObj -> list StackFrame;
  (** the [stack] property of what symbolication resolves to *)
  symbolicateStackTrace : list StackFrame -> option (list StackFrame);
  uuidv4 : nat -> string;                         (* the n-th identifier drawn *)
  Date_getTime : nat -> Z;                        (* the n-th reading of the clock *)
  getTimezoneOffset : Z
}.

(** What [init] hands to [setupRealtimeUserMonitoring], of the module
    './realtime-user-monitor': the result of that call, which the native
    side is started with, is represented by its arguments. *)
Record RumSetup : Type := mkRumSetup {
  rum_enableNetworkMonitoring : option bool;
  rum_ignoreURLs : option (list string);
  rum_session : Session;
  rum_apiKey : option string
}.

(** Calls made on collaborators, in the order they are made.
    [Rg4rn.init] is handed an object with the API key and the version
    (the options have no property beyond those [init] takes out by name,
    so the rest spread into it is empty), and the real-user-monitoring
    setup or [null]. *)
Inductive Call : Type :=
| console_log (msg : string)
| Rg4rn_init (apiKey_ : option string) (version_ : string) (rum : option RumSetup)
| Rg4rn_setTags (ts : list string)
| Rg4rn_setUser (u : User)
| Rg4rn_setCustomData (d : CustomData)
| Rg4rn_recordBreadcrumb (b : Breadcrumb)
| Rg4rn_getEnvironmentInfo
| Rg4rn_sendCrashReport (json : Json) (key : option string)
| onBeforeSend_call (payload : Json)
| transport_sendCrashReport (payload : Json) (key : option string)
| transport_sendCachedReports (key : string).

Inductive Exn : Type :=
| TypeError (what : string)
| Error_ (msg : string).

(** *** The store and the module-level variables *)

Record Store : Type := mkStore {
  sets : list (list string);         (* [Set<string>] objects, insertion order *)
  objs : list CustomData;            (* custom-data objects                    *)
  arrs : list (list Breadcrumb)      (* breadcrumb arrays                      *)
}.

Record State : Type := mkState {
  store : Store;
  curSession : Session;
  GlobalOptions : option RaygunClientOptions;   (* [None]: not yet assigned *)
  canEnableNative : bool;
  calls : list Call;
  dates : nat;                                  (* clock readings so far     *)
  uuids : nat                                   (* identifiers drawn so far  *)
}.

(* ===================================================================== *)
(** ** Computations: module-level state and thrown exceptions *)
(* ===================================================================== *)

Inductive Res (A : Type) : Type :=
| Ok (a : A)
| Throw (e : Exn).
Arguments Ok {A}. Arguments Throw {A}.

(** A JavaScript function body: it reads and writes the module-level
    variables [S] and either returns or throws; what it wrote before
    throwing stays written. *)
Definition MS (S A : Type) : Type := S -> Res A * S.

Definition ret {S A} (a : A) : MS S A := fun st => (Ok a, st).

Definition bind {S A B} (m : MS S A) (k : A -> MS S B) : MS S B :=
  fun st => match m st with
            | (Ok a, st') => k a st'
            | (Throw e, st') => (Throw e, st')
            end.

Definition throw {S A} (e : Exn) : MS S A := fun st => (Throw e, st).
Definition get {S} : MS S S := fun st => (Ok st, st).
Definition modify {S} (f : S -> S) : MS S unit := fun st => (Ok tt, f st).
Definition when {S} (b : bool) (m : MS S unit) : MS S unit := if b then m else ret tt.

(** The first client's computations. *)
Abbreviation M := (MS State).

Notation "'let!' x ':=' m 'in' k" := (bind m (fun x => k))
  (at level 10, x name, m at level 100, k at level 200).
Notation "m ';;;' k" := (bind m (fun _ => k))
  (at level 100, k at level 200, right associativity).

(** Setters for the module-level variables and the store. *)
Definition set_store (f : Store -> Store) (st : State) : State :=
  mkState (f (store st)) (curSession st) (GlobalOptions st)
          (canEnableNative st) (calls st) (dates st) (uuids st).
Definition set_curSession (f : Session -> Session) (st : State) : State :=
  mkState (store st) (f (curSession st)) (GlobalOptions st)
          (canEnableNative st) (calls st) (dates st) (uuids st).
Definition set_GlobalOptions (o : RaygunClientOptions) (st : State) : State :=
  mkState (store st) (curSession st) (Some o)
          (canEnableNative st) (calls st) (dates st) (uuids st).
Definition set_canEnableNative (b : bool) (st : State) : State :=
  mkState (store st) (curSession st) (GlobalOptions st)
          b (calls st) (dates st) (uuids st).
Definition add_call (c : Call) (st : State) : State :=
  mkState (store st) (curSession st) (GlobalOptions st)
          (canEnableNative st) (calls st ++ [c]) (dates st) (uuids st).
Definition tick_dates (st : State) : State :=
  mkState (store st) (curSession st) (GlobalOptions st)
          (canEnableNative st) (calls st) (S (dates st)) (uuids st).
Definition tick_uuids (st : State) : State :=
  mkState (store st) (curSession st) (GlobalOptions st)
          (canEnableNative st) (calls st) (dates st) (S (uuids st)).

Definition set_sets (f : list (list string) -> list (list string)) (s : Store) :=
  mkStore (f (sets s)) (objs s) (arrs s).
Definition set_objs (f : list CustomData -> list CustomData) (s : Store) :=
  mkStore (sets s) (f (objs s)) (arrs s).
Definition set_arrs (f : list (list Breadcrumb) -> list (list Breadcrumb)) (s : Store) :=
  mkStore (sets s) (objs s) (f (arrs s)).

(** Reading an object through a reference. *)
Definition read_set (s : Store) (l : loc) : list string := default [] (sets s !! l).
Definition read_obj (s : Store) (l : loc) : CustomData := default ∅ (objs s !! l).
Definition read_arr (s : Store) (l : loc) : list Breadcrumb := default [] (arrs s !! l).

(** [set.add(x)]: a [Set] keeps one copy of each element, in insertion order. *)
Definition Set_add (x : string) (s : list string) : list string :=
  if bool_decide (x ∈ s) then s else s ++ [x].

(** [xs.forEach(x => set.add(x))]. *)
Definition Set_addAll (xs : list string) (s : list string) : list string :=
  fold_left (fun acc x => Set_add x acc) xs s.

(** Truthiness of a string that may be missing. *)
Definition truthy (s : option string) : bool :=
  match s with
  | Some (String _ _) => true
  | _ => false
  end.

(** [s || d] on strings. *)
Definition orElse (s : option string) (d : string) : string :=
  if truthy s then default d s else d.

(** [JSON.parse(JSON.stringify(object))] on custom data: a new object with
    the same keys and scalar values. *)
Definition clone (object : CustomData) : CustomData := (fun v => v) <$> object.

(** [JSON.stringify(payload)]: the report with the custom-data objects
    it refers to, its own and those of its breadcrumbs, read out of the
    store as they are when it is serialised. The text is represented by
    the tree it encodes. *)
Definition stringify_breadcrumb (s : Store) (b : WireBreadcrumb loc)
  : WireBreadcrumb CustomData :=
  mkWireBreadcrumb (read_obj s (CustomData_ b)) (Category b) (Level b)
                   (B_Message b) (Timestamp b).

Definition JSON_stringify (s : Store) (p : CrashReportPayload) : Json :=
  let d := Details_ p in
  mkPayload (OccurredOn p)
    (mkDetails (Error d) (Environment d) (Client d)
               (read_obj s (UserCustomData d))
               (Tags d) (User_ d)
               (map (stringify_breadcrumb s) (Breadcrumbs d))
               (Version d)).

(* ===================================================================== *)
(** ** The stack-trace helpers *)
(* ===================================================================== *)

Import Regex.

Definition SOURCE_MAP_PREFIX : string := "file://reactnative.local/".

(** The source's pattern, token by token:
    ^  ( . * @ ) ?  . *  \/  [^\.] +  ( \.app | CodePush )  \/ ?  ( . * ) *)
Definition devicePathPattern : regex :=
  Seq (Opt (Group 1 (Seq (Star Dot) (Chr "@"))))
 (Seq (Star Dot)
 (Seq (Chr "/")
 (Seq (Plus (NotChr "."))
 (Seq (Group 2 (Alt (Lit ".app") (Lit "CodePush")))
 (Seq (Opt (Chr "/"))
      (Group 3 (Star Dot))))))).

(** [new RegExp('ReactNativeRenderer-dev\\.js$|MessageQueue\\.js$|native\\scode')] *)
Definition internalTrace : regex :=
  Alt (Seq (Lit "ReactNativeRenderer-dev.js") EndAnchor)
 (Alt (Seq (Lit "MessageQueue.js") EndAnchor)
      (Seq (Lit "native") (Seq Space (Lit "code")))).

(** [!!frame.file && !frame.file.match(internalTrace)] *)
Definition filterOutReactFrames (frame : StackFrame) : bool :=
  match file frame with
  | Some (String c f) => negb (test internalTrace (String c f))
  | _ => false
  end.

(** Removes the ['(address at'] suffix of the method name. *)
Definition noAddressAt (frame : StackFrame) : StackFrame :=
  let pos := JsString.indexOf (methodName frame) "(address at" in
  mkFrame (file frame)
          (if (-1 <? pos)%Z
           then JsString.trim (JsString.slice0 (methodName frame) pos)
           else methodName frame)
          (lineNumber frame) (column frame).

(** [exec] converts its argument to a string: [null] reads "null". *)
Definition fileText (f : option string) : string := default "null" f.

Definition cleanFilePath (frames : list StackFrame) : list StackFrame :=
  map (fun frame =>
         match exec_anchored devicePathPattern (fileText (file frame)) with
         | Some result =>
             let fileName := default "" (capture result 3) in
             mkFrame (Some (SOURCE_MAP_PREFIX ++ fileName)%string)
                     (methodName frame) (lineNumber frame) (column frame)
         | None => frame
         end) frames.

(* ===================================================================== *)
(** ** The client *)
(* ===================================================================== *)

(** [Object.assign(target, source)] on users: the properties present in
    the source replace those of the target. *)
Definition over {A} (source target : option A) : option A :=
  match source with
  | Some v => Some v
  | None => target
  end.

Definition Object_assign (target source : User) : User :=
  mkUser (over (identifier source) (identifier target))
         (over (isAnonymous source) (isAnonymous target))
         (over (firstName source) (firstName target))
         (over (fullName source) (fullName target))
         (over (email source) (email target)).

(** [upperFirst] on a user and on a breadcrumb array: a new object per
    object, every key with its first letter in upper case, the scalar
    values as they are, and the object under [customData] handed over
    under [CustomData] as it is: the same object, not a copy. *)
Definition upperFirst_user (u : User) : WireUser :=
  mkWireUser (identifier u) (isAnonymous u) (firstName u) (fullName u) (email u).

Definition upperFirst_breadcrumb (b : Breadcrumb) : WireBreadcrumb loc :=
  mkWireBreadcrumb (b_customData b) (category b) (level b) (b_message b) (timestamp b).

Definition upperFirst_breadcrumbs (bs : list Breadcrumb) : list (WireBreadcrumb loc) :=
  map upperFirst_breadcrumb bs.

(** [Error.prototype.toString]. *)
Definition Error_toString (e : ErrorObj) : string :=
  let n := default "Error" (name e) in
  let m := default "" (message e) in
  match n, m with
  | EmptyString, _ => m
  | _, EmptyString => n
  | _, _ => (n ++ ": " ++ m)%string
  end.

(** What [updateCustomData] is given: a function that builds and returns a
    new object, or one that changes the object it is given and returns it. *)
Inductive Updater : Type :=
| Returns (f : CustomData -> CustomData)
| Mutates (f : CustomData -> CustomData).

(** The payload object with the flag [Object.freeze] sets on it; the
    objects nested in it carry no flag: nothing freezes them. *)
Record PayloadObject : Type := mkPayloadObject {
  frozen : bool;
  value : CrashReportPayload
}.

Definition Object_freeze (p : PayloadObject) : PayloadObject :=
  mkPayloadObject true (value p).

Definition set_Message (m : string) (p : CrashReportPayload) : CrashReportPayload :=
  let d := Details_ p in
  let e := Error d in
  mkPayload (OccurredOn p)
    (mkDetails (mkWireError (ClassName e) m (StackTrace e) (StackString e))
               (Environment d) (Client d) (UserCustomData d) (Tags d)
               (User_ d) (Breadcrumbs d) (Version d)).

Definition push_Tag (t : string) (p : CrashReportPayload) : CrashReportPayload :=
  let d := Details_ p in
  mkPayload (OccurredOn p)
    (mkDetails (Error d) (Environment d) (Client d) (UserCustomData d)
               (Tags d ++ [t]) (User_ d) (Breadcrumbs d) (Version d)).

(** One assignment by handler code. On a frozen object an assignment to
    one of its own properties is ignored, and throws in strict code; the
    objects below it are assigned to as usual. *)
Definition assign (strict : bool) (w : PayloadWrite) (p : PayloadObject)
  : Res PayloadObject :=
  match w with
  | Write_OccurredOn d =>
      if frozen p then (if strict then Throw (TypeError "read only") else Ok p)
      else Ok (mkPayloadObject false (mkPayload d (Details_ (value p))))
  | Write_Details d =>
      if frozen p then (if strict then Throw (TypeError "read only") else Ok p)
      else Ok (mkPayloadObject false (mkPayload (OccurredOn (value p)) d))
  | Write_Error_Message m => Ok (mkPayloadObject (frozen p) (set_Message m (value p)))
  | Write_Tags_push t => Ok (mkPayloadObject (frozen p) (push_Tag t (value p)))
  end.

Fixpoint assignAll (strict : bool) (ws : list PayloadWrite) (p : PayloadObject)
  : Res PayloadObject :=
  match ws with
  | [] => Ok p
  | w :: ws' =>
      match assign strict w p with
      | Ok p' => assignAll strict ws' p'
      | Throw e => Throw e
      end
  end.

Section Client.

Variable host : Host.

Definition log (c : Call) : M unit := modify (add_call c).

(** A method call on [Rg4rn]: reading a property of [undefined] throws. *)
Definition Rg4rn_call (c : Call) : M unit :=
  match Rg4rn host with
  | Some _ => log c
  | None => throw (TypeError "Rg4rn is undefined")
  end.

Definition new_Date : M Z :=
  fun st => (Ok (Date_getTime host (dates st)), tick_dates st).

Definition draw_uuidv4 : M string :=
  fun st => (Ok (uuidv4 host (uuids st)), tick_uuids st).

(** Object creation: the new object gets the next free reference. *)
Definition new_Set (s : list string) : M loc :=
  fun st => (Ok (length (sets (store st))),
             set_store (set_sets (fun h => h ++ [s])) st).
Definition new_Object (o : CustomData) : M loc :=
  fun st => (Ok (length (objs (store st))),
             set_store (set_objs (fun h => h ++ [o])) st).
Definition new_Array (a : list Breadcrumb) : M loc :=
  fun st => (Ok (length (arrs (store st))),
             set_store (set_arrs (fun h => h ++ [a])) st).

Definition getCleanSession : M Session :=
  let! t := new_Set ["React Native"] in
  let! c := new_Object ∅ in
  let! b := new_Array [] in
  ret (mkSession t c b (mkUser (Some "anonymous") None None None None)).

(** [init], up to the installation of the handlers: the options merged
    over their defaults, [canEnableNative], the native side started, and
    the flush of cached reports scheduled. Returns what [init] returns. *)
Definition init (options : RaygunClientOptions) : M bool :=
  let merged :=
    mkOptions (over (apiKey options) (Some ""))
              (over (version options) (Some ""))
              (over (enableNative options) (Some true))
              (over (enableRUM options) (Some false))
              (over (enableNetworkMonitoring options) (Some true))
              (over (ignoreURLs options) (Some []))
              (onBeforeSend options) in
  modify (set_GlobalOptions merged) ;;;
  let wanted := default false (enableNative merged) || default false (enableRUM merged) in
  let can := wanted && match Rg4rn host with
                       | Some b => init_is_function b
                       | None => false
                       end in
  modify (set_canEnableNative can) ;;;
  let alreadyInitialized :=
    can && match Rg4rn host with Some b => hasInitialized b | None => false end in
  if alreadyInitialized then log (console_log "Already initialized") ;;; ret false
  else
    (if default false (enableRUM merged) && negb can
     then throw (Error_ "Can not enable RUM as native sdk not configured properly")
     else ret tt) ;;;
    let! st := get in
    when can
      (Rg4rn_call
         (Rg4rn_init (apiKey merged) (orElse (version merged) "")
            (if default false (enableRUM merged)
             then Some (mkRumSetup (enableNetworkMonitoring merged) (ignoreURLs merged)
                                   (curSession st) (apiKey merged))
             else None))) ;;;
    when (negb can)
         (log (transport_sendCachedReports (default "" (apiKey merged)))) ;;;
    ret true.

Definition addTag (tags_ : list string) : M unit :=
  modify (fun st =>
    set_store (set_sets (alter (Set_addAll tags_) (tags (curSession st)))) st) ;;;
  let! st := get in
  when (canEnableNative st)
       (Rg4rn_call (Rg4rn_setTags (read_set (store st) (tags (curSession st))))).

Definition setUser (user_ : UserArg) : M unit :=
  let defaults := mkUser None (Some false) (Some "") (Some "") (Some "") in
  let! source :=
    match user_ with
    | UString s =>
        if truthy (Some s)
        then ret (mkUser (Some s) None None None None)
        else let! id := draw_uuidv4 in
             ret (mkUser (Some id) (Some true) None None None)
    | UObject u => ret u
    | UUndefined => ret (mkUser None None None None None)
    end in
  let userObj := Object_assign defaults source in
  let! st := get in
  when (canEnableNative st)
       (match Rg4rn host with
        | None => throw (TypeError "Rg4rn is undefined")
        | Some _ =>
            modify (set_curSession (fun s =>
              mkSession (tags s) (customData s) (breadcrumbs s) userObj)) ;;;
            log (Rg4rn_setUser userObj)
        end).

Definition addCustomData (customData_ : CustomData) : M unit :=
  let! st := get in
  let! l := new_Object (customData_ ∪ read_obj (store st) (customData (curSession st))) in
  modify (set_curSession (fun s =>
    mkSession (tags s) l (breadcrumbs s) (user s))) ;;;
  let! st := get in
  Rg4rn_call (Rg4rn_setCustomData
                (clone (read_obj (store st) (customData (curSession st))))).

Definition updateCustomData (updater : Updater) : M unit :=
  let! st := get in
  let cur := customData (curSession st) in
  let! l := match updater with
            | Returns f => new_Object (f (read_obj (store st) cur))
            | Mutates f =>
                modify (set_store (set_objs (alter f cur))) ;;; ret cur
            end in
  modify (set_curSession (fun s =>
    mkSession (tags s) l (breadcrumbs s) (user s))) ;;;
  let! st := get in
  when (canEnableNative st)
       (Rg4rn_call (Rg4rn_setCustomData
                      (clone (read_obj (store st) (customData (curSession st)))))).

(** The breadcrumb literal creates an empty custom-data object, which
    the object given in [details], if any, replaces. *)
Definition recordBreadcrumb (message_ : string) (details : option BreadcrumbOption)
  : M unit :=
  let! empty_ := new_Object ∅ in
  let! now := new_Date in
  let breadcrumb :=
    mkBreadcrumb (default empty_ (details ≫= o_customData))
                 (default "" (details ≫= o_category))
                 (default "info" (details ≫= o_level))
                 message_ now in
  modify (fun st =>
    set_store (set_arrs (alter (fun a => a ++ [breadcrumb])
                               (breadcrumbs (curSession st)))) st) ;;;
  let! st := get in
  when (canEnableNative st) (Rg4rn_call (Rg4rn_recordBreadcrumb breadcrumb)).

Definition clearSession : M unit :=
  let! s := getCleanSession in
  modify (set_curSession (fun _ => s)).

(** *** Building the payload *)

(** The first statement after the destructuring of the session:
    [Platform.OS === 'android' ? Rg4rn.getEnvironmentInfo &&
    (await Rg4rn.getEnvironmentInfo()) : {}]. When the method exists the
    function is suspended here until the native side answers. *)
Definition environmentDetails : M (gmap string JVal) :=
  if String.eqb (Platform_OS host) "android" then
    match Rg4rn host with
    | None => throw (TypeError "Rg4rn is undefined")
    | Some b =>
        match getEnvironmentInfo b with
        | None => ret ∅
        | Some info => log Rg4rn_getEnvironmentInfo ;;; ret info
        end
    end
  else ret ∅.

Definition wireFrame (f : StackFrame) : WireFrame :=
  mkWireFrame (file f)
              (orElse (Some (methodName f)) "[anonymous]")
              (lineNumber f) (column f)
              ("line " ++ JsString.ofNumber (lineNumber f) ++
               ", column " ++ JsString.ofNumber (column f))%string.

(** The object literal that [generatePayload] returns. [session] stands
    for the variables [breadcrumbs], [tags], [user] and [customData]
    bound when the function was entered: references into the store,
    read when the literal is evaluated. *)
Definition payloadLiteral (error : option ErrorObj) (stackFrames : list StackFrame)
    (session : Session) (env : gmap string JVal) (occurredOn : Z)
    (s : Store) (opts : RaygunClientOptions) : CrashReportPayload :=
  mkPayload occurredOn
    (mkDetails
       (mkWireError (orElse (error ≫= name) "")
                    (orElse (error ≫= message) "")
                    (map wireFrame stackFrames)
                    (orElse (Error_toString <$> error) ""))
       (env ∪ {[ "UtcOffset" := JNum (getTimezoneOffset host # 60) ]})
       (mkWireClient ("raygun4reactnative." ++ Platform_OS host)%string
                     (clientVersion host))
       (customData session)
       (read_set s (tags session))
       (upperFirst_user (user session))
       (upperFirst_breadcrumbs (read_arr s (breadcrumbs session)))
       (orElse (version opts) "Not supplied")).

(** The literal evaluated, once the environment details are there: two
    readings of the clock, then the session's objects and the options. *)
Definition assemblePayload (error : option ErrorObj) (stackFrames : list StackFrame)
    (session : Session) (env : gmap string JVal) : M CrashReportPayload :=
  let! occurredOn := new_Date in
  let! _ := new_Date in
  let! st := get in
  match GlobalOptions st with
  | None => throw (TypeError "GlobalOptions is undefined")
  | Some opts =>
      ret (payloadLiteral error stackFrames session env occurredOn (store st) opts)
  end.

Definition generatePayload (error : option ErrorObj) (stackFrames : list StackFrame)
    (session : Session) : M CrashReportPayload :=
  let! env := environmentDetails in
  assemblePayload error stackFrames session env.

(** *** Processing an error *)

(** Lines 256 to 261: the frames handed to [generatePayload]. In
    [cleaned || [].filter(filterOutReactFrames).map(noAddressAt)] the
    method calls bind tighter than [||]: they apply to the empty array
    literal, and an array, even an empty one, is truthy. *)
Definition stackOf (error : ErrorObj) : list StackFrame :=
  let stackFrame := parseErrorStack host error in
  let cleanedStackFrames : option (list StackFrame) :=
    if DEV host then symbolicateStackTrace host stackFrame
    else Some (cleanFilePath stackFrame) in
  match cleanedStackFrames with
  | Some frames => frames
  | None => map noAddressAt (filter filterOutReactFrames [])
  end.

(** The call [onBeforeSend(Object.freeze(payload))]: the handler reads
    the report, attempts its assignments and returns. Gives the payload
    object afterwards and the truth value returned. *)
Definition call_onBeforeSend (h : BeforeSendHandler) (p : PayloadObject)
  : M (PayloadObject * bool) :=
  let! st := get in
  let json := JSON_stringify (store st) (value p) in
  log (onBeforeSend_call json) ;;;
  let '(ws, verdict) := handler h json in
  match assignAll (strictMode h) ws p with
  | Ok p' => ret (p', verdict)
  | Throw e => throw e
  end.

Definition processUnhandledError (error : option ErrorObj) (isFatal : bool) : M unit :=
  match error with
  | Some e =>
      if truthy (stack e) then
        let stack_ := stackOf e in
        when isFatal (modify (fun st =>
          set_store (set_sets (alter (Set_add "Fatal") (tags (curSession st)))) st)) ;;;
        let! st := get in
        let! payload := generatePayload (Some e) stack_ (curSession st) in
        let! st := get in
        match GlobalOptions st with
        | None => throw (TypeError "GlobalOptions is undefined")
        | Some opts =>
            let! r := match onBeforeSend opts with
                      | Some h =>
                          let! r := call_onBeforeSend h
                                      (Object_freeze (mkPayloadObject false payload)) in
                          ret (fst r, negb (snd r))
                      | None => ret (mkPayloadObject false payload, false)
                      end in
            let '(payload', shouldSkip) := r in
            if shouldSkip : bool then ret tt
            else
              let! st := get in
              let json := JSON_stringify (store st) (value payload') in
              if canEnableNative st
              then Rg4rn_call (Rg4rn_sendCrashReport json (apiKey opts))
              else log (transport_sendCrashReport json (apiKey opts))
        end
      else log (console_log "Unrecognized error occurred")
  | None => log (console_log "Unrecognized error occurred")
  end.


End Client.

(** The module as loaded: [curSession = getCleanSession()], the other
    variables not yet assigned. *)
Definition emptyState : State :=
  mkState (mkStore [] [] []) (mkSession 0 0 0 (mkUser None None None None None))
          None false [] 0 0.

Definition loaded : State := snd (clearSession emptyState).

(* ===================================================================== *)
(** ** sdk/src/RaygunClient.ts *)
(* ===================================================================== *)

Module Sdk.

(** The options as [init] stores them, [{...raygunClientOptions}]: an
    option left out stays undefined. The handler option only travels to
    the [CrashReporter] constructor and is left out here. *)
Record RaygunClientOptions : Type := mkOptions {
  apiKey : option string;
  version : option string;
  enableCrashReporting : option bool;
  disableNativeCrashReporting : option bool;
  enableRealUserMonitoring : option bool;
  disableNetworkMonitoring : option bool;
  customCrashReportingEndpoint : option string;
  customRealUserMonitoringEndpoint : option string;
  ignoredURLs : option (list string)
}.

(** An argument after the error in [sendError(error, ...params)]. *)
Inductive Param : Type :=
| P_object (d : CustomData)
| P_array (ts : list string)
| P_string (s : string).

(** Calls on the collaborators: the console, the [CrashReporter] and
    [RealUserMonitor] objects (their classes are in other files), and
    the native bridge. *)
Inductive Call : Type :=
| log (msg : string)
| warn (msg : string)
| new_CrashReporter
| new_RealUserMonitor
| crashReporter_addTags (ts : list string)
| crashReporter_setUser (u : User)
| crashReporter_recordBreadcrumb (msg : string) (details : option BreadcrumbOption)
| crashReporter_addCustomData (d : Param)
| crashReporter_updateCustomData (u : Updater)
| crashReporter_setMaxReportsStoredOnDevice (size : Z)
| crashReporter_processUnhandledError (e : option ErrorObj)
| realUserMonitor_setUser (u : User)
| realUserMonitor_sendCustomRUMEvent (eventType name_ : string) (durationMs : Z)
| bridge_initCrashReportingNativeSupport
| bridge_initRealUserMonitoringNativeSupport
| bridge_setTags (ts : list string)
| bridge_setUser (u : User).

(** The module-level variables. [crashReporter] and [realUserMonitor]
    record whether the object has been created. *)
Record State : Type := mkState {
  crashReporter : bool;
  realUserMonitor : bool;
  options : option RaygunClientOptions;      (* [None]: not yet assigned *)
  initialized : bool;
  currentTags : list string;
  currentUser : User;
  calls : list Call
}.

Abbreviation M := (MS State).

Definition set_currentTags (f : list string -> list string) (st : State) : State :=
  mkState (crashReporter st) (realUserMonitor st) (options st) (initialized st)
          (f (currentTags st)) (currentUser st) (calls st).
Definition set_currentUser (u : User) (st : State) : State :=
  mkState (crashReporter st) (realUserMonitor st) (options st) (initialized st)
          (currentTags st) u (calls st).
Definition add_call (c : Call) (st : State) : State :=
  mkState (crashReporter st) (realUserMonitor st) (options st) (initialized st)
          (currentTags st) (currentUser st) (calls st ++ [c]).

Definition call (c : Call) : M unit := modify (add_call c).

Definition dq : string := String (ascii_of_nat 34) EmptyString.

Definition notInitialised (calledFrom : string) : string :=
  ("Failed: " ++ dq ++ calledFrom ++ dq ++
   " cannot be called before initialising RaygunClient. Please call RaygunClient.init(...) before trying to call RaygunClient."
   ++ calledFrom ++ "(...)")%string.

Definition notEnabled (calledFrom what flag : string) : string :=
  ("Failed: " ++ dq ++ calledFrom ++ dq ++ " cannot be called unless " ++ what ++
   " has been enabled, please ensure that you set " ++ dq ++ flag ++ dq ++
   " to true during RaygunClient.init(...)")%string.

(** [options.p] for a boolean option [p]: throws when [options] is
    undefined, is falsy when the option was left out. *)
Definition option_flag (p : RaygunClientOptions -> option bool) : M bool :=
  let! st := get in
  match options st with
  | None => throw (TypeError "options is undefined")
  | Some o => ret (default false (p o))
  end.

Section WithHost.

(** [getDeviceBasedId()], from the absent [Utils] module. *)
Variable getDeviceBasedId : string.

Definition loaded : State :=
  mkState false false None false []
          (mkUser (Some ("anonymous-" ++ getDeviceBasedId)%string) (Some true)
                  None None None)
          [].

Definition init (raygunClientOptions : RaygunClientOptions) : M bool :=
  let! st := get in
  if initialized st then call (log "Already initialized") ;;; ret false
  else
    let o := raygunClientOptions in
    modify (fun st => mkState (crashReporter st) (realUserMonitor st) (Some o)
                              (initialized st) (currentTags st) (currentUser st)
                              (calls st)) ;;;
    when (default false (enableCrashReporting o))
         (modify (fun st => mkState true (realUserMonitor st) (options st)
                                    (initialized st) (currentTags st)
                                    (currentUser st) (calls st)) ;;;
          call new_CrashReporter ;;;
          when (negb (default false (disableNativeCrashReporting o)))
               (call (log "Native Bridge Initialized") ;;;
                call bridge_initCrashReportingNativeSupport)) ;;;
    when (default false (enableRealUserMonitoring o))
         (modify (fun st => mkState (crashReporter st) true (options st)
                                    (initialized st) (currentTags st)
                                    (currentUser st) (calls st)) ;;;
          call new_RealUserMonitor ;;;
          call bridge_initRealUserMonitoringNativeSupport) ;;;
    modify (fun st => mkState (crashReporter st) (realUserMonitor st) (options st)
                              true (currentTags st) (currentUser st) (calls st)) ;;;
    ret true.

Definition crashReportingAvailable (calledFrom : string) : M bool :=
  let! st := get in
  if negb (initialized st) then
    call (warn (notInitialised calledFrom)) ;;; ret false
  else
    let! enabled := if crashReporter st then option_flag enableCrashReporting
                    else ret false in
    if negb enabled then
      call (warn (notEnabled calledFrom "Crash Reporting" "enableCrashReporting")) ;;;
      ret false
    else ret true.

Definition realUserMonitoringAvailable (calledFrom : string) : M bool :=
  let! st := get in
  if negb (initialized st) then
    call (warn (notInitialised calledFrom)) ;;; ret false
  else
    let! enabled := if realUserMonitor st then option_flag enableRealUserMonitoring
                    else ret false in
    if negb enabled then
      call (warn (notEnabled calledFrom "Real User Monitoring"
                             "enableRealUserMonitoring")) ;;;
      ret false
    else ret true.

Definition addTag (tags_ : list string) : M unit :=
  modify (set_currentTags (Set_addAll tags_)) ;;;
  let! available := crashReportingAvailable "addTags" in
  when available (call (crashReporter_addTags tags_)) ;;;
  let! disabled := option_flag disableNativeCrashReporting in
  when (negb disabled)
       (let! st := get in call (bridge_setTags (currentTags st))).

Definition setUser (user_ : UserArg) : M unit :=
  let defaults := mkUser None (Some true) (Some "") (Some "") (Some "") in
  let source :=
    match user_ with
    | UString s =>
        if truthy (Some s)
        then mkUser (Some s) (Some true) None None None
        else mkUser (Some ("anonymous-" ++ getDeviceBasedId)%string) (Some true)
                    None None None
    | UObject u => u
    | UUndefined => mkUser None None None None None
    end in
  let userObj := Object_assign defaults source in
  modify (set_currentUser userObj) ;;;
  let! available := crashReportingAvailable "setUser" in
  when available (call (crashReporter_setUser userObj)) ;;;
  let! available := realUserMonitoringAvailable "setUser" in
  when available (call (realUserMonitor_setUser userObj)) ;;;
  let! disabled := option_flag disableNativeCrashReporting in
  when (negb disabled) (call (bridge_setUser userObj)).

Definition recordBreadcrumb (message_ : string) (details : option BreadcrumbOption)
  : M unit :=
  let! available := crashReportingAvailable "recordBreadcrumb" in
  if negb available then ret tt
  else call (crashReporter_recordBreadcrumb message_ details).

Definition addCustomData (customData_ : Param) : M unit :=
  let! available := crashReportingAvailable "addCustomData" in
  if negb available then ret tt
  else call (crashReporter_addCustomData customData_).

Definition updateCustomData (updater : Updater) : M unit :=
  let! available := crashReportingAvailable "updateCustomData" in
  if negb available then ret tt
  else call (crashReporter_updateCustomData updater).

Definition setMaxReportsStoredOnDevice (size : Z) : M unit :=
  let! available := crashReportingAvailable "setCrashReportCacheSize" in
  if negb available then ret tt
  else call (crashReporter_setMaxReportsStoredOnDevice size).

(** A value used as a condition. *)
Definition truthyParam (p : option Param) : bool :=
  match p with
  | Some (P_string s) => truthy (Some s)
  | Some _ => true
  | None => false
  end.

(** [...(tags as string[])] after the test [tags && tags.length]:
    an array spreads to its elements, a string to its characters, and
    an object has no length. *)
Definition spreadTags (p : option Param) : list string :=
  match p with
  | Some (P_array ts) => ts
  | Some (P_string s) =>
      map (fun c => String c EmptyString) (list_ascii_of_string s)
  | _ => []
  end.

Definition sendError (error : option ErrorObj) (params : list Param) : M unit :=
  let! available := crashReportingAvailable "sendError" in
  if negb available then ret tt
  else
    let '(customData_, tags_) :=
      match params with
      | [P_array ts] => (None, Some (P_array ts))
      | _ => (params !! 0%nat, params !! 1%nat)
      end in
    when (truthyParam customData_)
         (match customData_ with
          | Some d => addCustomData d
          | None => ret tt
          end) ;;;
    when (negb (length (spreadTags tags_) =? 0)%nat) (addTag (spreadTags tags_)) ;;;
    call (crashReporter_processUnhandledError error).

Definition sendRUMTimingEvent (eventType name_ : string) (durationMs : Z) : M unit :=
  let! available := realUserMonitoringAvailable "sendRUMTimingEvent" in
  if negb available then ret tt
  else call (realUserMonitor_sendCustomRUMEvent eventType name_ durationMs).

End WithHost.

End Sdk.

(* ===================================================================== *)
(** ** Sample hosts, errors and states *)
(* ===================================================================== *)

Module Samples.

(** The frame of the specification's example. *)
Definition rawFrame : StackFrame :=
  mkFrame (Some "/data/app/MyApp.app/main.jsbundle") "foo(address at 12:3)"
          (Some 5) (Some 3).

(** A frame of the framework's message queue. *)
Definition queueFrame : StackFrame :=
  mkFrame (Some "/data/app/MyApp.app/Libraries/MessageQueue.js") "__callFunction"
          (Some 42) (Some 7).

Definition normalizedFrame : StackFrame :=
  mkFrame (Some "file://reactnative.local/main.jsbundle") "foo" (Some 5) (Some 3).

Definition boom : ErrorObj :=
  mkError (Some "Error") (Some "boom") (Some "Error: boom").

(** An error object with a stack and no message. *)
Definition noMessage : ErrorObj :=
  mkError (Some "Error") None (Some "Error").

Definition bridge : Bridge := mkBridge true false None.

Definition androidBridge : Bridge :=
  mkBridge true false (Some {[ "Model" := JStr "Pixel" ]}).

Definition clock (n : nat) : Z := 1000 + Z.of_nat n.

(** A release build on iOS with the native module linked. *)
Definition ios : Host :=
  mkHost false "ios" "1.0.0" (Some bridge)
         (fun _ => [rawFrame; queueFrame]) (fun fs => Some fs)
         (fun _ => "fresh-id") clock (-60).

(** A release build on Android with the native module linked. *)
Definition android : Host :=
  mkHost false "android" "1.0.0" (Some androidBridge)
         (fun _ => [rawFrame]) (fun fs => Some fs)
         (fun _ => "fresh-id") clock (-60).

(** A release build where the native module is not linked. *)
Definition bare : Host :=
  mkHost false "ios" "1.0.0" None
         (fun _ => [rawFrame]) (fun fs => Some fs)
         (fun _ => "fresh-id") clock (-60).

Definition defaults : RaygunClientOptions :=
  mkOptions (Some "key") None None None None None None.

Definition nativeOff : RaygunClientOptions :=
  mkOptions (Some "key") None (Some false) None None None None.

(** A handler that rewrites the message of the report and lets it go. *)
Definition tamper : BeforeSendHandler :=
  mkHandler false
    (fun _ => ([Write_OccurredOn 0; Write_Error_Message "tampered"], true)).

Definition withHandler (h : BeforeSendHandler) : RaygunClientOptions :=
  mkOptions (Some "key") None None None None None (Some h).

(** The module loaded and [init] called. *)
Definition started (host : Host) (options : RaygunClientOptions) : State :=
  snd (init host options loaded).

(** The client started on iOS with the default options, and the options
    [init] has then stored. *)
Definition ready : State := started ios defaults.

Definition merged : RaygunClientOptions :=
  mkOptions (Some "key") (Some "") (Some true) (Some false) (Some true) (Some []) None.

(** The payload built for [boom] in that state, and the state after. *)
Definition builtPayload : CrashReportPayload :=
  payloadLiteral ios (Some boom) [] (curSession ready) ∅ 1000 (store ready) merged.

Definition builtState : State :=
  snd (generatePayload ios (Some boom) [] (curSession ready) ready).

End Samples.

(** The reports handed to a transport, in order. *)
Definition transmitted (cs : list Call) : list Json :=
  flat_map (fun c => match c with
                     | Rg4rn_sendCrashReport j _ => [j]
                     | transport_sendCrashReport j _ => [j]
                     | _ => []
                     end) cs.

(** The tags of the live session. *)
Definition sessionTags (st : State) : list string :=
  read_set (store st) (tags (curSession st)).

(* ===================================================================== *)
(** ** Vocabulary of the statements *)
(* ===================================================================== *)

(** On Android the payload builder asks the native module for the
    environment: the module has to be linked there. *)
Definition envReady (host : Host) : Prop :=
  Platform_OS host = "android" -> is_Some (Rg4rn host).

(** [canEnableNative] is only set by [init], and only when the native
    module is there. *)
Definition linked (host : Host) (st : State) : Prop :=
  canEnableNative st = true -> is_Some (Rg4rn host).

(** The session refers to objects of the store. *)
Definition allocated (st : State) : Prop :=
  (tags (curSession st) < length (sets (store st)))%nat /\
  (customData (curSession st) < length (objs (store st)))%nat /\
  (breadcrumbs (curSession st) < length (arrs (store st)))%nat.

Definition isSend (c : Call) : bool :=
  match c with
  | Rg4rn_sendCrashReport _ _ | transport_sendCrashReport _ _ => true
  | _ => false
  end.

(** The transmission attempts among some calls. *)
Definition sends (cs : list Call) : list Call := List.filter isSend cs.

(** The reports handed to the before-send handler among some calls. *)
Definition handed (cs : list Call) : list Json :=
  flat_map (fun c => match c with onBeforeSend_call j => [j] | _ => [] end) cs.

(** The transport a report goes to: the native reporter when it is
    active, the direct transport otherwise. *)
Definition route (st : State) (j : Json) (key : option string) : Call :=
  if canEnableNative st then Rg4rn_sendCrashReport j key
  else transport_sendCrashReport j key.

(** [st] after more calls were made and the clock was read [n] more times. *)
Definition advance (extra : list Call) (n : nat) (st : State) : State :=
  mkState (store st) (curSession st) (GlobalOptions st) (canEnableNative st)
          (calls st ++ extra) (n + dates st) (uuids st).

(** Does handler code with these assignments throw on a frozen payload? *)
Definition ownProperty (w : PayloadWrite) : bool :=
  match w with
  | Write_OccurredOn _ | Write_Details _ => true
  | _ => false
  end.

Definition throwsOnFrozen (strict : bool) (ws : list PayloadWrite) : bool :=
  strict && existsb ownProperty ws.

(** The state once [processUnhandledError] has dealt with [isFatal]. *)
Definition tagFatal (isFatal : bool) (st : State) : State :=
  if isFatal
  then set_store (set_sets (alter (Set_add "Fatal") (tags (curSession st)))) st
  else st.

(** The calls of the before-send gate and of the delivery, for the
    payload [p] built in the state [st]. *)
Definition deliveryCalls (st : State) (opts : RaygunClientOptions)
    (p : CrashReportPayload) : list Call :=
  let j := JSON_stringify (store st) p in
  match onBeforeSend opts with
  | None => [route st j (apiKey opts)]
  | Some h =>
      onBeforeSend_call j ::
      match assignAll (strictMode h) (fst (handler h j))
                      (Object_freeze (mkPayloadObject false p)) with
      | Ok q =>
          if snd (handler h j)
          then [route st (JSON_stringify (store st) (value q)) (apiKey opts)]
          else []
      | Throw _ => []
      end
  end.

(** A call on the public surface, or an error reaching the handlers. *)
Inductive Op : Type :=
| Op_addTag (ts : list string)
| Op_setUser (u : UserArg)
| Op_addCustomData (d : CustomData)
| Op_updateCustomData (u : Updater)
| Op_recordBreadcrumb (m : string) (details : option BreadcrumbOption)
| Op_clearSession
| Op_error (error : option ErrorObj) (isFatal : bool).

Definition runOp (host : Host) (op : Op) : M unit :=
  match op with
  | Op_addTag ts => addTag host ts
  | Op_setUser u => setUser host u
  | Op_addCustomData d => addCustomData host d
  | Op_updateCustomData u => updateCustomData host u
  | Op_recordBreadcrumb m details => recordBreadcrumb host m details
  | Op_clearSession => clearSession
  | Op_error error isFatal => processUnhandledError host error isFatal
  end.

(** The calls made one after the other, each on the state the one before
    left, whether it returned or threw. *)
Definition runOps (host : Host) (ops : list Op) (st : State) : State :=
  fold_left (fun st op => snd (runOp host op st)) ops st.

Definition keepsSession (op : Op) : bool :=
  match op with
  | Op_clearSession => false
  | _ => true
  end.

Definition preserves {S A} (R : S -> S -> Prop) (m : MS S A) : Prop :=
  forall st, R st (snd (m st)).

(** The session keeps its tag set, and no set loses an element. *)
Definition tagsGrow (st st' : State) : Prop :=
  tags (curSession st') = tags (curSession st) /\
  GlobalOptions st' = GlobalOptions st /\
  canEnableNative st' = canEnableNative st /\
  forall l t, t ∈ read_set (store st) l -> t ∈ read_set (store st') l.

(** The mutations that work on new objects or on objects a built payload
    does not share. *)
Definition leavesPayload (op : Op) : bool :=
  match op with
  | Op_addTag _ | Op_addCustomData _ | Op_recordBreadcrumb _ _ | Op_clearSession => true
  | _ => false
  end.

(** No custom-data object of the store is changed or removed. *)
Definition objsKept (st st' : State) : Prop :=
  (length (objs (store st)) <= length (objs (store st')))%nat /\
  forall l, (l < length (objs (store st)))%nat ->
            objs (store st') !! l = objs (store st) !! l.

(** [p] is an initial part of [s]. *)
Fixpoint isPrefix (p s : string) : Prop :=
  match p, s with
  | EmptyString, _ => True
  | String a p', String b s' => a = b /\ isPrefix p' s'
  | String _ _, EmptyString => False
  end.

(* ===================================================================== *)
(** ** The rest of the client: relabelling, the installed handler *)
(* ===================================================================== *)

#[local] Set Warnings "-register-all".

(** A property key: a sequence of UTF-16 code units. The keys of the
    values handed to [upperFirst] are [string]s, code units below 256. The
    upper case of such a unit can lie above 255 (the micro sign, the y
    with diaeresis), so the keys of the result are kept as numbers. *)
Abbreviation Key := (list N).

Definition keyOf (s : string) : Key := map N_of_ascii (list_ascii_of_string s).

Fixpoint keyEqb (a b : Key) : bool :=
  match a, b with
  | [], [] => true
  | x :: a', y :: b' => N.eqb x y && keyEqb a' b'
  | _, _ => false
  end.

(** A JavaScript value as [upperFirst] sees it. An object is the list of
    its own enumerable properties in insertion order, one entry per key;
    [K] is the type of the keys. *)
Inductive JsValue (K : Type) : Type :=
| VUndefined
| VNull
| VBoolean (b : bool)
| VNumber (q : Q)
| VString (s : string)
| VArray (items : list (JsValue K))
| VObject (props : list (K * JsValue K)).
Arguments VUndefined {K}. Arguments VNull {K}. Arguments VBoolean {K}.
Arguments VNumber {K}. Arguments VString {K}. Arguments VArray {K}.
Arguments VObject {K}.

(** The same value, its keys read as code units. *)
Fixpoint widen (v : JsValue string) : JsValue Key :=
  match v with
  | VUndefined => VUndefined
  | VNull => VNull
  | VBoolean b => VBoolean b
  | VNumber q => VNumber q
  | VString s => VString s
  | VArray items => VArray (map widen items)
  | VObject props => VObject (map (fun '(k, x) => (keyOf k, widen x)) props)
  end.

(** [{...all, [key]: val}]: the property assigned, at its place when the
    object has it already, at the end otherwise. *)
Fixpoint setProp (key : Key) (val : JsValue Key) (all : list (Key * JsValue Key))
  : list (Key * JsValue Key) :=
  match all with
  | [] => [(key, val)]
  | (k, v) :: all' =>
      if keyEqb k key then (k, val) :: all' else (k, v) :: setProp key val all'
  end.

(** [c.toUpperCase()] for one code unit below 256, after the Unicode case
    mappings: the letters a to z and the accented letters of Latin-1 have
    their capital 32 places before; the sharp s becomes two letters; the
    capitals of the micro sign and of the y with diaeresis are U+039C and
    U+0178; every other code unit is its own upper case. *)
Definition toUpperCase1 (c : ascii) : Key :=
  let n := N_of_ascii c in
  if ((97 <=? n) && (n <=? 122))%N then [n - 32]%N
  else if (n =? 181)%N then [924%N]
  else if (n =? 223)%N then [83%N; 83%N]
  else if ((224 <=? n) && (n <=? 254) && negb (n =? 247))%N then [n - 32]%N
  else if (n =? 255)%N then [376%N]
  else [n].

(** [key.slice(0, 1).toUpperCase() + key.slice(1)] *)
Definition upperFirstKey (key : string) : Key :=
  match key with
  | EmptyString => []
  | String c rest => toUpperCase1 c ++ keyOf rest
  end.

(** [items.map(f)] and [Object.entries(obj).reduce(step, {})] for a
    callback that may throw: the first exception ends the loop. *)
Definition mapAll (f : JsValue string -> Res (JsValue Key))
  : list (JsValue string) -> Res (list (JsValue Key)) :=
  fix go (xs : list (JsValue string)) : Res (list (JsValue Key)) :=
    match xs with
    | [] => Ok []
    | x :: xs' =>
        match f x with
        | Ok y => match go xs' with
                  | Ok ys => Ok (y :: ys)
                  | Throw e => Throw e
                  end
        | Throw e => Throw e
        end
    end.

Definition reduceEntries (f : JsValue string -> Res (JsValue Key))
  : list (string * JsValue string) -> list (Key * JsValue Key) ->
    Res (list (Key * JsValue Key)) :=
  fix go (ps : list (string * JsValue string)) (all : list (Key * JsValue Key))
    : Res (list (Key * JsValue Key)) :=
    match ps with
    | [] => Ok all
    | (key, val) :: ps' =>
        if negb (String.eqb key "customData") then
          match f val with
          | Ok val' => go ps' (setProp (upperFirstKey key) val' all)
          | Throw e => Throw e
          end
        else go ps' (setProp (keyOf "CustomData") (widen val) all)
    end.

(** [upperFirst]: arrays are mapped, objects (and [null], whose [typeof]
    is 'object' too, and on which [Object.entries] throws) are rebuilt
    key by key, the value under [customData] moved as it is, anything
    else is returned. *)
Fixpoint upperFirst (obj : JsValue string) : Res (JsValue Key) :=
  match obj with
  | VArray items =>
      match mapAll upperFirst items with
      | Ok ys => Ok (VArray ys)
      | Throw e => Throw e
      end
  | VObject props =>
      match reduceEntries upperFirst props [] with
      | Ok all => Ok (VObject all)
      | Throw e => Throw e
      end
  | VNull => Throw (TypeError "Cannot convert undefined or null to object")
  | _ => Ok (widen obj)
  end.

(** The key a property is filed under in the result. *)
Definition wireKey (key : string) : Key :=
  if String.eqb key "customData" then keyOf "CustomData" else upperFirstKey key.

(** The typed values of the client as JavaScript values. *)
Definition jsOfJVal (v : JVal) : JsValue string :=
  match v with
  | JNull => VNull
  | JBool b => VBoolean b
  | JNum q => VNumber q
  | JStr s => VString s
  end.

Definition jsOfData (d : CustomData) : JsValue string :=
  VObject (map (fun kv => (fst kv, jsOfJVal (snd kv))) (map_to_list d)).

Definition entry {A K} (key : K) (inj : A -> JsValue K) (field : option A)
  : list (K * JsValue K) :=
  match field with
  | Some a => [(key, inj a)]
  | None => []
  end.

Definition jsOfUser (u : User) : JsValue string :=
  VObject (entry "identifier" VString (identifier u) ++
           entry "isAnonymous" VBoolean (isAnonymous u) ++
           entry "firstName" VString (firstName u) ++
           entry "fullName" VString (fullName u) ++
           entry "email" VString (email u)).

Definition jsOfWireUser (u : WireUser) : JsValue Key :=
  VObject (entry (keyOf "Identifier") VString (Identifier u) ++
           entry (keyOf "IsAnonymous") VBoolean (IsAnonymous u) ++
           entry (keyOf "FirstName") VString (FirstName u) ++
           entry (keyOf "FullName") VString (FullName u) ++
           entry (keyOf "Email") VString (Email u)).

(** A breadcrumb with its custom-data object as the store [s] has it. *)
Definition jsOfBreadcrumb (s : Store) (b : Breadcrumb) : JsValue string :=
  VObject [("customData", jsOfData (read_obj s (b_customData b)));
           ("category", VString (category b));
           ("level", VString (level b));
           ("message", VString (b_message b));
           ("timestamp", VNumber (inject_Z (timestamp b)))].

Definition jsOfWireBreadcrumb (s : Store) (b : WireBreadcrumb loc) : JsValue Key :=
  VObject [(keyOf "CustomData", widen (jsOfData (read_obj s (CustomData_ b))));
           (keyOf "Category", VString (Category b));
           (keyOf "Level", VString (Level b));
           (keyOf "Message", VString (B_Message b));
           (keyOf "Timestamp", VNumber (inject_Z (Timestamp b)))].


(** The handler [init] installs with [ErrorUtils.setGlobalHandler]: the
    error is processed, then the handler that was installed before, if
    any, is called. *)
Definition globalHandler (host : Host)
    (prevHandler : option (option ErrorObj -> bool -> M unit))
    (error : option ErrorObj) (isFatal : bool) : M unit :=
  processUnhandledError host error isFatal ;;;
  match prevHandler with
  | Some prev => prev error isFatal
  | None => ret tt
  end.


(** *** More vocabulary *)

(** The custom data and the breadcrumb trail of the live session. *)
Definition sessionData (st : State) : CustomData :=
  read_obj (store st) (customData (curSession st)).

Definition sessionTrail (st : State) : list Breadcrumb :=
  read_arr (store st) (breadcrumbs (curSession st)).

(** The breadcrumbs of the live session refer to objects of the store. *)
Definition trailAllocated (st : State) : Prop :=
  Forall (fun b => (b_customData b < length (objs (store st)))%nat) (sessionTrail st).

(** The custom-data objects a payload refers to: the one under
    [UserCustomData] and those of its breadcrumbs. *)
Definition sharedObjects (p : CrashReportPayload) : list loc :=
  UserCustomData (Details_ p) :: map CustomData_ (Breadcrumbs (Details_ p)).

(** An assignment to the object [l] by whoever holds a reference to it:
    the object is changed in place. *)
Definition writeObject (f : CustomData -> CustomData) (l : loc) (st : State) : State :=
  set_store (set_objs (alter f l)) st.



(** The function an updater stands for. *)
Definition updaterFunction (u : Updater) : CustomData -> CustomData :=
  match u with Returns f | Mutates f => f end.




(** [rest] is what is left of [s] after some first characters. *)
Definition isSuffix (rest s : string) : Prop := exists pre, s = (pre ++ rest)%string.


(** Does the character occur in the string? *)
Fixpoint hasChar (c : ascii) (s : string) : bool :=
  match s with
  | EmptyString => false
  | String d s' => Ascii.eqb c d || hasChar c s'
  end.

(** The texts a pattern matches, captures and position left aside. *)
Inductive matches : regex -> string -> Prop :=
| matches_Eps : matches Eps ""
| matches_Chr c : matches (Chr c) (String c "")
| matches_Dot c : JsString.isLineTerminator c = false -> matches Dot (String c "")
| matches_NotChr c d : Ascii.eqb c d = false -> matches (NotChr c) (String d "")
| matches_Space c : JsString.isSpace c = true -> matches Space (String c "")
| matches_EndAnchor : matches EndAnchor ""
| matches_Seq r1 r2 a b :
    matches r1 a -> matches r2 b -> matches (Seq r1 r2) (a ++ b)
| matches_Alt_l r1 r2 a : matches r1 a -> matches (Alt r1 r2) a
| matches_Alt_r r1 r2 a : matches r2 a -> matches (Alt r1 r2) a
| matches_Star_nil r : matches (Star r) ""
| matches_Star_cons r a b :
    matches r a -> matches (Star r) b -> matches (Star r) (a ++ b)
| matches_Group n r a : matches r a -> matches (Group n r) a.

(** No character of the text is a line terminator. *)
Fixpoint noLineBreak (s : string) : bool :=
  match s with
  | EmptyString => true
  | String c s' => negb (JsString.isLineTerminator c) && noLineBreak s'
  end.

(** The text is at its end or at a line terminator. *)
Definition atLineEnd (s : string) : Prop :=
  match s with
  | EmptyString => True
  | String c _ => JsString.isLineTerminator c = true
  end.


(** *** Vocabulary for sdk/src/RaygunClient.ts *)

Module SdkWords.
Import Sdk.

(** Is crash reporting usable: [init] has run, the reporter exists and
    the option is on. *)
Definition crashReportingOn (st : Sdk.State) : bool :=
  initialized st && crashReporter st &&
  match options st with
  | Some o => default false (enableCrashReporting o)
  | None => false
  end.

Definition realUserMonitoringOn (st : Sdk.State) : bool :=
  initialized st && realUserMonitor st &&
  match options st with
  | Some o => default false (enableRealUserMonitoring o)
  | None => false
  end.

(** The warning an unavailable subsystem answers with. *)
Definition refusal (st : Sdk.State) (calledFrom what flag : string) : Sdk.Call :=
  warn (if initialized st then notEnabled calledFrom what flag
        else notInitialised calledFrom).

(** The module-level variables hang together: the reporter and the
    monitor are created by [init] only, which assigns [options] first. *)
Definition consistent (st : Sdk.State) : Prop :=
  (crashReporter st = true \/ realUserMonitor st = true \/ initialized st = true) ->
  is_Some (options st).

(** [addTag] called with each of [calls_] in turn, each call on the state
    the one before left, whether it returned or threw. *)
Definition addTags (calls_ : list (list string)) (st : Sdk.State) : Sdk.State :=
  fold_left (fun st ts => snd (addTag ts st)) calls_ st.

(** What [addTag] tells the collaborators about the tags [ts], when the
    session then holds [all]. *)
Definition tagCalls (st : Sdk.State) (o : RaygunClientOptions) (ts all : list string)
  : list Sdk.Call :=
  [if crashReportingOn st then crashReporter_addTags ts
   else refusal st "addTags" "Crash Reporting" "enableCrashReporting"] ++
  (if default false (disableNativeCrashReporting o) then [] else [bridge_setTags all]).

End SdkWords.

(** *** More samples *)

Module MoreSamples.

(** Android, the native module not linked. *)
Definition androidBare : Host :=
  mkHost false "android" "1.0.0" None
         (fun _ => [Samples.rawFrame]) (fun fs => Some fs)
         (fun _ => "fresh-id") Samples.clock (-60).

(** A handler in strict code that assigns to the payload's own property. *)
Definition strictWriter : BeforeSendHandler :=
  mkHandler true (fun _ => ([Write_OccurredOn 0], true)).

Definition strictOptions : RaygunClientOptions :=
  mkOptions (Some "key") (Some "") (Some true) (Some false) (Some true) (Some [])
            (Some strictWriter).

(** The previous global handler: it logs. *)
Definition previous (error : option ErrorObj) (isFatal : bool) : M unit :=
  log (console_log "previous handler").

(** The started client after a caller has created an object and recorded
    a breadcrumb that carries it; the payload built for [boom] then, and
    the state after. *)
Definition callerObject : loc := length (objs (store Samples.ready)).

Definition crumbed : State :=
  snd (recordBreadcrumb Samples.ios "tapped"
         (Some (mkBreadcrumbOption (Some callerObject) (Some "ui") None))
         (snd (new_Object {[ "screen" := JStr "home" ]} Samples.ready))).

Definition crumbedPayload : CrashReportPayload :=
  payloadLiteral Samples.ios (Some Samples.boom) [] (curSession crumbed) ∅
                 (Date_getTime Samples.ios (dates crumbed)) (store crumbed)
                 Samples.merged.

Definition crumbedState : State :=
  snd (generatePayload Samples.ios (Some Samples.boom) [] (curSession crumbed) crumbed).

(** The sdk module after [init] with crash reporting switched on. *)
Definition sdkOptions : Sdk.RaygunClientOptions :=
  Sdk.mkOptions (Some "key") None (Some true) None None None None None None.

Definition sdkStarted : Sdk.State := snd (Sdk.init sdkOptions (Sdk.loaded "device")).

End MoreSamples.

(* ===================================================================== *)
(** ** Stack-trace normalisation *)
(* ===================================================================== *)

Section StringFacts.
Import JsString.

Lemma startsWith_prefix n p s :
  isPrefix p s -> startsWith n p = true -> startsWith n s = true.
Proof.
  revert p s. induction n as [|a n IH]; intros p s Hp H; [reflexivity|].
  destruct p as [|b p]; [discriminate|]. destruct s as [|c s]; [contradiction|].
  simpl in *. destruct Hp as [-> Hp]. apply andb_true_iff in H as [H1 H2].
  rewrite H1. simpl. eapply IH; eauto.
Qed.

Lemma indexOf_from_shift n s i j :
  indexOf_from n s i = -1 -> 0 <= i -> 0 <= j -> indexOf_from n s j = -1.
Proof.
  revert i j. induction s as [|c s IH]; intros i j H Hi Hj; simpl in *.
  - destruct (startsWith n ""); [lia|reflexivity].
  - destruct (startsWith n (String c s)); [lia|].
    apply (IH (i + 1) (j + 1)); [exact H|lia|lia].
Qed.

Lemma indexOf_from_range n s i :
  0 <= i -> indexOf_from n s i = -1 \/ i <= indexOf_from n s i.
Proof.
  revert i. induction s as [|c s IH]; intros i Hi; simpl.
  - destruct (startsWith n ""); [right; lia|left; reflexivity].
  - destruct (startsWith n (String c s)); [right; lia|].
    destruct (IH (i + 1)) as [H|H]; [lia|left; exact H|right; lia].
Qed.

Lemma absent_prefix n p s :
  isPrefix p s -> indexOf_from n s 0 = -1 -> indexOf_from n p 0 = -1.
Proof.
  revert s. induction p as [|a p IH]; intros s Hp H.
  - simpl. destruct (startsWith n "") eqn:E; [|reflexivity].
    apply (startsWith_prefix n "" s I) in E.
    destruct s; simpl in H; rewrite E in H; lia.
  - destruct s as [|b s]; [contradiction|]. destruct Hp as [-> Hp].
    simpl in *. destruct (startsWith n (String b s)) eqn:E; [lia|].
    destruct (startsWith n (String b p)) eqn:E'.
    + apply (startsWith_prefix n (String b p) (String b s)) in E'; [congruence|].
      simpl. auto.
    + apply (indexOf_from_shift n p 0 1); [|lia|lia].
      eapply IH; [exact Hp|]. apply (indexOf_from_shift n s 1 0); [exact H|lia|lia].
Qed.

Lemma absent_tail n c s :
  indexOf_from n (String c s) 0 = -1 -> indexOf_from n s 0 = -1.
Proof.
  simpl. destruct (startsWith n (String c s)); [lia|].
  intros H. apply (indexOf_from_shift n s 1 0); [exact H|lia|lia].
Qed.

Lemma absent_trimStart n s :
  indexOf_from n s 0 = -1 -> indexOf_from n (trimStart s) 0 = -1.
Proof.
  induction s as [|c s IH]; intros H; [exact H|].
  simpl. destruct (isSpace c); [|exact H]. apply IH. eapply absent_tail, H.
Qed.

Lemma trimEnd_prefix s : isPrefix (trimEnd s) s.
Proof.
  induction s as [|c s IH]; simpl; [exact I|].
  destruct (trimEnd s) eqn:E.
  - destruct (isSpace c); simpl; auto.
  - simpl. split; [reflexivity|exact IH].
Qed.

Lemma take_prefix k s : isPrefix (take k s) s.
Proof.
  revert s. induction k as [|k IH]; intros s; [exact I|].
  destruct s as [|c s]; simpl; auto.
Qed.

(** What is read before the first occurrence holds no occurrence. *)
Lemma absent_before_first n s i :
  n <> "" -> 0 <= i ->
  i <= indexOf_from n s i ->
  indexOf_from n (take (Z.to_nat (indexOf_from n s i - i)) s) 0 = -1.
Proof.
  intros Hn. revert i. induction s as [|c s IH]; intros i Hi H; simpl in *.
  - destruct (startsWith n "") eqn:E.
    + destruct n; [congruence|discriminate].
    + lia.
  - destruct (startsWith n (String c s)) eqn:E.
    + replace (Z.to_nat (i - i)) with 0%nat by lia. simpl.
      destruct n; [congruence|reflexivity].
    + destruct (indexOf_from_range n s (i + 1)) as [Hr|Hr]; [lia|lia|].
      replace (Z.to_nat (indexOf_from n s (i + 1) - i))
        with (S (Z.to_nat (indexOf_from n s (i + 1) - (i + 1)))) by lia.
      simpl.
      set (t := take _ s).
      destruct (startsWith n (String c t)) eqn:E'.
      * apply (startsWith_prefix n (String c t) (String c s)) in E'; [congruence|].
        simpl. split; [reflexivity|apply take_prefix].
      * apply (indexOf_from_shift n t 0 1); [|lia|lia].
        apply IH; lia.
Qed.

(** [noAddressAt] does what its comment says: the method name it returns
    holds no "(address at". *)
Lemma noAddressAt_strips (frame : StackFrame) :
  includes (methodName (noAddressAt frame)) "(address at" = false.
Proof.
  unfold noAddressAt, includes, indexOf; cbn [methodName].
  set (m := methodName frame). set (n := "(address at").
  destruct (-1 <? indexOf_from n m 0)%Z eqn:Hpos.
  - apply Z.ltb_lt in Hpos.
    assert (H : indexOf_from n (trim (slice0 m (indexOf_from n m 0))) 0 = -1).
    { unfold trim, slice0.
      eapply absent_prefix; [apply trimEnd_prefix|].
      apply absent_trimStart.
      replace (indexOf_from n m 0) with (indexOf_from n m 0 - 0) at 1 by lia.
      apply absent_before_first; [discriminate|lia|lia]. }
    rewrite H. reflexivity.
  - apply Z.ltb_ge in Hpos.
    destruct (indexOf_from_range n m 0) as [H|H]; [lia| |].
    + rewrite H. reflexivity.
    + apply Z.leb_gt. lia.
Qed.

End StringFacts.

(** Numbers as JavaScript prints them: digit by digit while the number
    is a double, rounded to the shortest digits that give the same double
    beyond, and in exponent form from 21 digits on. *)
Example ofInteger_at_work :
  map JsString.ofInteger [0; 42; -17; 2 ^ 53; 2 ^ 60; 10 ^ 21; 2 ^ 70]
  = ["0"; "42"; "-17"; "9007199254740992"; "1152921504606847000"; "1e+21";
     "1.1805916207174113e+21"].
Proof. vm_compute. reflexivity. Qed.

(** In a release build the frames handed to the payload builder are the
    output of [cleanFilePath], whatever the error. *)
Lemma stackOf_production (host : Host) (e : ErrorObj) :
  DEV host = false -> stackOf host e = cleanFilePath (parseErrorStack host e).
Proof. intros H. unfold stackOf. now rewrite H. Qed.

(** C1. On the specification's example frame, followed by a frame of the
    framework's message queue, the release-build pipeline rewrites the
    file paths and does nothing else: the queue frame is not dropped and
    the method name keeps its "(address at" suffix, also in the report
    that is sent. The helpers [filterOutReactFrames] and [noAddressAt],
    applied to the same frames, give the frame the specification states. *)
Theorem C1_release_stack_keeps_noise_and_suffix :
  stackOf Samples.ios Samples.boom =
    [ mkFrame (Some "file://reactnative.local/main.jsbundle") "foo(address at 12:3)"
              (Some 5) (Some 3);
      mkFrame (Some "file://reactnative.local/Libraries/MessageQueue.js")
              "__callFunction" (Some 42) (Some 7) ]
  /\ map MethodName
       (flat_map (fun j => StackTrace (Error (Details_ j)))
          (transmitted (calls (snd (processUnhandledError Samples.ios
             (Some Samples.boom) false (Samples.started Samples.ios Samples.defaults))))))
     = ["foo(address at 12:3)"; "__callFunction"]
  /\ JsString.includes "foo(address at 12:3)" "(address at" = true
  /\ map noAddressAt (filter filterOutReactFrames
                        (cleanFilePath [Samples.rawFrame; Samples.queueFrame]))
     = [Samples.normalizedFrame].
Proof. repeat split; vm_compute; reflexivity. Qed.

(* ===================================================================== *)
(** ** The before-send gate and the delivery decision *)
(* ===================================================================== *)

Lemma assign_frozen strict w p p' :
  assign strict w p = Ok p' -> frozen p' = frozen p.
Proof.
  destruct w; simpl; destruct (frozen p) eqn:F, strict; intros H;
    inversion H; subst; simpl; congruence.
Qed.

Lemma assignAll_frozen_throws strict ws p :
  frozen p = true ->
  throwsOnFrozen strict ws = false ->
  exists p', assignAll strict ws p = Ok p' /\ frozen p' = true.
Proof.
  unfold throwsOnFrozen. revert p.
  induction ws as [|w ws IH]; intros p F H; simpl.
  - eauto.
  - simpl in H.
    assert (Hw : exists q, assign strict w p = Ok q).
    { destruct w; simpl in *; rewrite ?F; destruct strict; simpl in *;
        try discriminate; eauto. }
    destruct Hw as [q Hq]. rewrite Hq.
    apply IH.
    + rewrite (assign_frozen _ _ _ _ Hq). exact F.
    + destruct strict; simpl in *; [|reflexivity].
      apply orb_false_iff in H. tauto.
Qed.

(** The payload builder returns the literal, evaluated on the store as it
    is, whenever the environment can be asked and the options are set. *)
Lemma generatePayload_ok host err frames sess st opts :
  envReady host ->
  GlobalOptions st = Some opts ->
  exists env extra,
    sends extra = [] /\ handed extra = [] /\
    generatePayload host err frames sess st =
      (Ok (payloadLiteral host err frames sess env
             (Date_getTime host (dates st)) (store st) opts),
       advance extra 2 st).
Proof.
  intros Henv Hopts.
  unfold generatePayload, environmentDetails.
  destruct (String.eqb (Platform_OS host) "android") eqn:Hos.
  - apply String.eqb_eq in Hos. destruct (Henv Hos) as [b Hb]. rewrite Hb.
    destruct (getEnvironmentInfo b) as [info|].
    + exists info, [Rg4rn_getEnvironmentInfo]. repeat split.
      unfold bind, log, modify, assemblePayload, bind, new_Date, get, ret; simpl.
      rewrite Hopts. reflexivity.
    + exists ∅, []. repeat split.
      unfold bind, assemblePayload, bind, new_Date, get, ret; simpl.
      rewrite Hopts. unfold advance, tick_dates; simpl.
      now rewrite app_nil_r.
  - exists ∅, []. repeat split.
    unfold bind, assemblePayload, bind, new_Date, get, ret; simpl.
    rewrite Hopts. unfold advance, tick_dates; simpl.
    now rewrite app_nil_r.
Qed.

Lemma sends_app a b : sends (a ++ b) = sends a ++ sends b.
Proof. apply List.filter_app. Qed.

Lemma handed_app a b : handed (a ++ b) = handed a ++ handed b.
Proof. apply flat_map_app. Qed.

Lemma sends_route st j k : sends [route st j k] = [route st j k].
Proof. unfold route; destruct (canEnableNative st); reflexivity. Qed.

Lemma handed_route st j k : handed [route st j k] = [].
Proof. unfold route; destruct (canEnableNative st); reflexivity. Qed.

Lemma tagFatal_vars fatal st :
  curSession (tagFatal fatal st) = curSession st /\
  GlobalOptions (tagFatal fatal st) = GlobalOptions st /\
  canEnableNative (tagFatal fatal st) = canEnableNative st /\
  calls (tagFatal fatal st) = calls st /\
  dates (tagFatal fatal st) = dates st.
Proof. destruct fatal; simpl; auto. Qed.

Lemma deliver_calls host opts (s : State) (p : CrashReportPayload) :
  linked host s ->
  (let! st0 := get in
   if canEnableNative st0
   then Rg4rn_call host (Rg4rn_sendCrashReport
          (JSON_stringify (store st0) p) (apiKey opts))
   else log (transport_sendCrashReport
          (JSON_stringify (store st0) p) (apiKey opts))) s
  = (Ok tt, add_call (route s (JSON_stringify (store s) p) (apiKey opts)) s).
Proof.
  intros Hl. unfold bind, get, route.
  destruct (canEnableNative s) eqn:Hb.
  - destruct (Hl Hb) as [b Hb']. unfold Rg4rn_call. rewrite Hb'. reflexivity.
  - reflexivity.
Qed.

(** What processing a well-formed error does, call by call. *)
Lemma processUnhandledError_run host st e fatal opts :
  truthy (stack e) = true ->
  GlobalOptions st = Some opts ->
  envReady host ->
  linked host st ->
  exists env extra,
    sends extra = [] /\ handed extra = [] /\
    let st1 := tagFatal fatal st in
    let p := payloadLiteral host (Some e) (stackOf host e) (curSession st) env
               (Date_getTime host (dates st)) (store st1) opts in
    let st' := snd (processUnhandledError host (Some e) fatal st) in
    calls st' = calls st ++ extra ++ deliveryCalls st1 opts p /\
    store st' = store st1 /\
    curSession st' = curSession st.
Proof.
  intros Hstack Hopts Henv Hlinked.
  destruct (tagFatal_vars fatal st) as (Hs & Ho & Hn & Hc & Hd).
  destruct (generatePayload_ok host (Some e) (stackOf host e)
              (curSession (tagFatal fatal st)) (tagFatal fatal st) opts Henv)
    as (env & extra & Hsends & Hhanded & Hgen).
  { congruence. }
  exists env, extra. split; [exact Hsends|]. split; [exact Hhanded|].
  cbv zeta.
  destruct (processUnhandledError host (Some e) fatal st) as [r st'] eqn:Hres.
  cbn [snd].
  unfold processUnhandledError in Hres. rewrite Hstack in Hres.
  assert (Hstep : forall k : unit -> M unit,
            bind (when fatal (modify (fun st0 =>
              set_store (set_sets (alter (Set_add "Fatal") (tags (curSession st0)))) st0))) k st
            = k tt (tagFatal fatal st)).
  { intros k. destruct fatal; reflexivity. }
  rewrite Hstep in Hres. clear Hstep.
  set (st1 := tagFatal fatal st) in *.
  unfold bind at 1 in Hres. unfold get at 1 in Hres.
  unfold bind at 1 in Hres. rewrite Hgen in Hres. rewrite Hs, Hd in *.
  set (p := payloadLiteral _ _ _ _ _ _ _ _) in *.
  set (st2 := advance extra 2 st1) in *.
  unfold bind at 1, get at 1 in Hres.
  assert (Ho2 : GlobalOptions st2 = Some opts) by (subst st2; simpl; congruence).
  rewrite Ho2 in Hres.
  assert (Hl2 : forall c, linked host (add_call c st2)).
  { intros c H. apply Hlinked. rewrite <- Hn. exact H. }
  assert (Hl3 : linked host st2).
  { intros H. apply Hlinked. rewrite <- Hn. exact H. }
  assert (Hc2 : calls st2 = calls st ++ extra) by (subst st2; simpl; congruence).
  unfold deliveryCalls.
  destruct (onBeforeSend opts) as [h|].
  - unfold bind at 1 in Hres. unfold bind at 1 in Hres. unfold call_onBeforeSend in Hres.
    unfold bind at 1, get at 1 in Hres. unfold bind at 1, log at 1, modify at 1 in Hres.
    change (store st2) with (store st1) in Hres.
    set (j := JSON_stringify (store st1) p) in *.
    change (JSON_stringify (store st1) (value (Object_freeze {| frozen := false; value := p |})))
      with j in Hres.
    destruct (handler h j) as [ws verdict] eqn:Hh. cbn [fst snd].
    destruct (assignAll (strictMode h) ws (Object_freeze {| frozen := false; value := p |}))
      as [q|ex] eqn:Hassign.
    + unfold ret at 1 in Hres. unfold ret at 1 in Hres. cbn [fst snd negb] in Hres.
      destruct verdict; cbn [negb] in Hres.
      * rewrite (deliver_calls host opts _ _ (Hl2 _)) in Hres.
        inversion Hres; subst r st'; clear Hres.
        change (calls (add_call ?c (add_call ?d st2))) with ((calls st2 ++ [d]) ++ [c]).
        rewrite Hc2. rewrite <- !app_assoc. auto.
      * unfold ret in Hres. inversion Hres; subst r st'; clear Hres.
        change (calls (add_call ?c ?s)) with (calls s ++ [c]).
        rewrite Hc2. rewrite <- !app_assoc. auto.
    + unfold throw in Hres. inversion Hres; subst r st'; clear Hres.
      change (calls (add_call ?c ?s)) with (calls s ++ [c]).
      rewrite Hc2. rewrite <- !app_assoc. auto.
  - unfold bind at 1, ret at 1 in Hres.
    rewrite (deliver_calls host opts _ _ Hl3) in Hres.
    inversion Hres; subst r st'; clear Hres.
    change (calls (add_call ?c ?s)) with (calls s ++ [c]).
    rewrite Hc2. rewrite <- !app_assoc. auto.
Qed.

(** [init] leaves the options set, with the handler it was given, and
    [canEnableNative] true only if the native module is there. *)
Lemma init_sets_up host options st :
  let st' := snd (init host options st) in
  (exists opts, GlobalOptions st' = Some opts /\ onBeforeSend opts = onBeforeSend options)
  /\ linked host st'.
Proof.
  unfold init, linked, bind, modify, when, log, Rg4rn_call, ret, throw, modify.
  cbn [fst snd].
  destruct (Rg4rn host) as [[f i info]|]; cbn [init_is_function hasInitialized];
    destruct (enableNative options) as [[|]|], (enableRUM options) as [[|]|];
    try destruct f; try destruct i; cbn; (split; [eexists; split; reflexivity|]);
    intros H; try discriminate H; eauto.
Qed.

(** Where the payload can be built (off Android, or with the native
    module linked), for an error with a stack, once [init] has set the
    options: with no handler configured exactly one transmission attempt
    is made; with a handler, it is handed one report, and if it returns a
    falsy value no transmission is attempted, while if it returns a
    truthy value exactly one is. The attempt goes to the native reporter
    when [canEnableNative] holds and to the direct transport otherwise. *)
Theorem before_send_gates_transmission host st e fatal opts :
  truthy (stack e) = true ->
  GlobalOptions st = Some opts ->
  envReady host ->
  linked host st ->
  exists new,
    calls (snd (processUnhandledError host (Some e) fatal st)) = calls st ++ new /\
    match onBeforeSend opts with
    | None => exists j, sends new = [route st j (apiKey opts)]
    | Some h =>
        exists j, handed new = [j] /\
          (snd (handler h j) = false -> sends new = []) /\
          (snd (handler h j) = true ->
           throwsOnFrozen (strictMode h) (fst (handler h j)) = false ->
           exists j', sends new = [route st j' (apiKey opts)])
    end.
Proof.
  intros Hstack Hopts Henv Hlinked.
  destruct (processUnhandledError_run host st e fatal opts Hstack Hopts Henv Hlinked)
    as (env & extra & Hsends & Hhanded & Hcalls & _ & _).
  cbv zeta in Hcalls.
  set (st1 := tagFatal fatal st) in *.
  set (p := payloadLiteral _ _ _ _ _ _ _ _) in *.
  assert (Hr : forall j k, route st1 j k = route st j k).
  { intros. unfold route, st1. now destruct fatal. }
  eexists. split; [exact Hcalls|].
  unfold deliveryCalls. destruct (onBeforeSend opts) as [h|].
  - set (j := JSON_stringify (store st1) p).
    exists j. destruct (handler h j) as [ws verdict] eqn:Hh. cbn [fst snd].
    change (onBeforeSend_call j :: ?l) with ([onBeforeSend_call j] ++ l).
    rewrite !handed_app, !sends_app, Hhanded, Hsends.
    destruct (assignAll (strictMode h) ws _) as [q|ex] eqn:Hassign.
    + destruct verdict.
      * rewrite handed_route, sends_route, Hr. simpl.
        repeat split; try discriminate; eauto.
      * simpl. repeat split; try discriminate.
    + simpl. repeat split; try discriminate.
      intros _ Hthrow.
      destruct (assignAll_frozen_throws (strictMode h) ws
                  (Object_freeze {| frozen := false; value := p |}) eq_refl Hthrow)
        as (q & Hq & _). congruence.
  - rewrite sends_app, Hsends, sends_route, Hr. simpl. eauto.
Qed.

(** The gate at work: the native reporter is active, no handler is set,
    and one report goes to the native reporter. *)
Lemma before_send_gates_transmission_at_work :
  exists new,
    calls (snd (processUnhandledError Samples.ios (Some Samples.boom) true
                  (Samples.started Samples.ios Samples.defaults)))
    = calls (Samples.started Samples.ios Samples.defaults) ++ new /\
    exists j, sends new = [Rg4rn_sendCrashReport j (Some "key")].
Proof.
  apply (before_send_gates_transmission Samples.ios
           (Samples.started Samples.ios Samples.defaults) Samples.boom true
           (mkOptions (Some "key") (Some "") (Some true) (Some false) (Some true)
                      (Some []) None)).
  - reflexivity.
  - reflexivity.
  - intros H. vm_compute in H. discriminate H.
  - intros _. exists Samples.bridge. reflexivity.
Defined.

(** C4. On Android with the native module not linked, no filter being
    configured: [init] returns true and leaves the direct transport as
    the route, yet an error with a stack gets no transmission attempt at
    all. The payload builder reads [Rg4rn.getEnvironmentInfo] off the
    missing module and throws before either transport is reached. The
    same client off Android makes its one attempt, on the direct
    transport. *)
Theorem C4_no_transmission_on_android_without_native_module :
  let st := Samples.started MoreSamples.androidBare Samples.defaults in
  let st' := snd (processUnhandledError MoreSamples.androidBare
                    (Some Samples.boom) false st) in
  let elsewhere := Samples.started Samples.bare Samples.defaults in
  fst (init MoreSamples.androidBare Samples.defaults loaded) = Ok true
  /\ (GlobalOptions st ≫= onBeforeSend) = None
  /\ canEnableNative st = false
  /\ fst (processUnhandledError MoreSamples.androidBare (Some Samples.boom) false st)
     = Throw (TypeError "Rg4rn is undefined")
  /\ calls st' = calls st
  /\ sends (calls st') = []
  /\ map (fun c => match c with
                   | transport_sendCrashReport j k =>
                       Some (Message (Error (Details_ j)), k)
                   | _ => None
                   end)
         (sends (calls (snd (processUnhandledError Samples.bare (Some Samples.boom)
                               false elsewhere))))
     = [Some ("boom", Some "key")].
Proof. repeat split; vm_compute; reflexivity. Qed.

(** C3. A handler that assigns to [payload.OccurredOn] and to
    [payload.Details.Error.Message] and then returns true: the first
    assignment is stopped by the freeze, the second is not, and the
    report that is sent carries the handler's message instead of the
    message it was built with. *)
Theorem C3_handler_rewrites_the_sent_message :
  let st := Samples.started Samples.ios (Samples.withHandler Samples.tamper) in
  let st' := snd (processUnhandledError Samples.ios (Some Samples.boom) false st) in
  map (fun j => (OccurredOn j, Message (Error (Details_ j)))) (handed (calls st'))
    = [(1000, "boom")]
  /\ map (fun j => (OccurredOn j, Message (Error (Details_ j)))) (transmitted (calls st'))
    = [(1000, "tampered")].
Proof. split; vm_compute; reflexivity. Qed.

(* ===================================================================== *)
(** ** Propagation to the native reporter *)
(* ===================================================================== *)

(** C8. [addCustomData] calls the native bridge without asking whether
    the native reporter is active, where [updateCustomData] asks: with the
    reporter switched off by configuration the bridge is called all the
    same, and with the native module absent the call throws into the
    caller, after the session was changed. [setUser] in turn changes the
    session only inside the guarded bridge call: with the reporter
    inactive the session keeps its former user. *)
Theorem C8_addCustomData_calls_the_bridge_unguarded :
  let d : CustomData := {[ "a" := JNum 1 ]} in
  let off := Samples.started Samples.ios Samples.nativeOff in
  let absent := Samples.started Samples.bare Samples.defaults in
  canEnableNative off = false
  /\ calls (snd (addCustomData Samples.ios d off)) = calls off ++ [Rg4rn_setCustomData d]
  /\ calls (snd (updateCustomData Samples.ios (Returns (fun _ => d)) off)) = calls off
  /\ canEnableNative absent = false
  /\ fst (addCustomData Samples.bare d absent) = Throw (TypeError "Rg4rn is undefined")
  /\ read_obj (store (snd (addCustomData Samples.bare d absent)))
              (customData (curSession (snd (addCustomData Samples.bare d absent)))) = d
  /\ fst (updateCustomData Samples.bare (Returns (fun _ => d)) absent) = Ok tt
  /\ user (curSession (snd (setUser Samples.ios (UString "bob") off)))
     = mkUser (Some "anonymous") None None None None.
Proof. repeat split; vm_compute; reflexivity. Qed.

(* ===================================================================== *)
(** ** The guarded surface of sdk/src/RaygunClient.ts *)
(* ===================================================================== *)

(** Before [init], the operations that start with the availability test
    warn and do nothing else. *)
Lemma Sdk_guarded_operations_before_init (id : string) :
  let st := Sdk.loaded id in
  (forall m d, Sdk.recordBreadcrumb m d st
     = (Ok tt, Sdk.add_call (Sdk.warn (Sdk.notInitialised "recordBreadcrumb")) st))
  /\ (forall d, Sdk.addCustomData d st
     = (Ok tt, Sdk.add_call (Sdk.warn (Sdk.notInitialised "addCustomData")) st))
  /\ (forall u, Sdk.updateCustomData u st
     = (Ok tt, Sdk.add_call (Sdk.warn (Sdk.notInitialised "updateCustomData")) st))
  /\ (forall e ps, Sdk.sendError e ps st
     = (Ok tt, Sdk.add_call (Sdk.warn (Sdk.notInitialised "sendError")) st))
  /\ (forall t n d, Sdk.sendRUMTimingEvent t n d st
     = (Ok tt, Sdk.add_call (Sdk.warn (Sdk.notInitialised "sendRUMTimingEvent")) st)).
Proof. repeat split. Qed.

(** C6. Before [init], [addTag] adds its tags to [currentTags], warns, and
    then throws on reading [options.disableNativeCrashReporting], since
    [options] is still undefined; [setUser] likewise replaces
    [currentUser], warns twice and throws. *)
Theorem C6_addTag_and_setUser_before_init (id : string) (ts : list string) (s : string) :
  Sdk.addTag ts (Sdk.loaded id)
  = (Throw (TypeError "options is undefined"),
     Sdk.mkState false false None false (Set_addAll ts [])
                 (Sdk.currentUser (Sdk.loaded id))
                 [Sdk.warn (Sdk.notInitialised "addTags")])
  /\ Sdk.setUser id (UString (String "b" s)) (Sdk.loaded id)
  = (Throw (TypeError "options is undefined"),
     Sdk.mkState false false None false []
                 (mkUser (Some (String "b" s)) (Some true) (Some "") (Some "") (Some ""))
                 [Sdk.warn (Sdk.notInitialised "setUser");
                  Sdk.warn (Sdk.notInitialised "setUser")]).
Proof. split; reflexivity. Qed.

(* ===================================================================== *)
(** ** Users *)
(* ===================================================================== *)

(** C5, counterexample. With the native reporter active, [setUser] of
    [undefined] draws no identifier: the installed user has no identifier
    at all and [isAnonymous] is false. *)
Lemma C5_setUser_undefined_draws_no_identifier :
  let st := Samples.started Samples.ios Samples.defaults in
  let st' := snd (setUser Samples.ios UUndefined st) in
  canEnableNative st = true
  /\ identifier (user (curSession st')) = None
  /\ isAnonymous (user (curSession st')) = Some false
  /\ uuids st' = uuids st.
Proof. repeat split. Qed.

(** Whatever the state of the sdk module, [setUser] leaves in
    [currentUser] the argument merged over the defaults. *)
Lemma Sdk_setUser_currentUser id arg (sst : Sdk.State) :
  Sdk.currentUser (snd (Sdk.setUser id arg sst))
  = Object_assign (mkUser None (Some true) (Some "") (Some "") (Some ""))
      match arg with
      | UString s =>
          if truthy (Some s)
          then mkUser (Some s) (Some true) None None None
          else mkUser (Some ("anonymous-" ++ id)%string) (Some true) None None None
      | UObject u => u
      | UUndefined => mkUser None None None None None
      end.
Proof.
  destruct sst as [cr rum o ini ts u cs].
  unfold Sdk.setUser, Sdk.crashReportingAvailable, Sdk.realUserMonitoringAvailable,
    Sdk.option_flag, Sdk.call, bind, get, modify, ret, when, throw; simpl.
  destruct ini, cr, rum, o as [o|]; simpl;
    repeat (match goal with
            | |- context [default false ?x] => destruct x as [[|]|]; simpl
            end); reflexivity.
Qed.

(** C5, amended. In the Rg4rn client with the native reporter active,
    [setUser] of the empty string installs a user with a freshly drawn
    identifier and [isAnonymous] true; of a non-empty string, that string
    as identifier, [isAnonymous] false and the other fields at their
    defaults, drawing no identifier; of [undefined], the field defaults
    with no identifier, drawing none. In sdk/src/RaygunClient.ts the empty
    string gives the device-based anonymous identifier, and a non-empty
    string is kept as identifier with [isAnonymous] true. *)
Theorem C5_setUser_by_string host st :
  canEnableNative st = true ->
  is_Some (Rg4rn host) ->
  (let st' := snd (setUser host (UString "") st) in
   user (curSession st')
     = mkUser (Some (uuidv4 host (uuids st))) (Some true) (Some "") (Some "") (Some "")
   /\ uuids st' = S (uuids st))
  /\ (forall c s,
      let st' := snd (setUser host (UString (String c s)) st) in
      user (curSession st')
        = mkUser (Some (String c s)) (Some false) (Some "") (Some "") (Some "")
      /\ uuids st' = uuids st)
  /\ (let st' := snd (setUser host UUndefined st) in
      user (curSession st')
        = mkUser None (Some false) (Some "") (Some "") (Some "")
      /\ uuids st' = uuids st)
  /\ (forall id sst,
      Sdk.currentUser (snd (Sdk.setUser id (UString "") sst))
        = mkUser (Some ("anonymous-" ++ id)%string) (Some true) (Some "") (Some "") (Some ""))
  /\ (forall id sst c s,
      Sdk.currentUser (snd (Sdk.setUser id (UString (String c s)) sst))
        = mkUser (Some (String c s)) (Some true) (Some "") (Some "") (Some "")).
Proof.
  intros Hn [b Hb].
  repeat split; intros;
    try (rewrite Sdk_setUser_currentUser; reflexivity);
    unfold setUser, draw_uuidv4, bind, get, ret, when, modify, log; simpl;
    rewrite ?Hn, ?Hb; simpl; rewrite ?Hn, ?Hb; reflexivity.
Qed.

(* ===================================================================== *)
(** ** Malformed errors *)
(* ===================================================================== *)

(** C7, counterexample. An error object with a stack and no message is
    not dropped: a report with an empty message goes to the transport. *)
Lemma C7_error_without_message_is_reported :
  message Samples.noMessage = None
  /\ map (fun j => Message (Error (Details_ j)))
       (transmitted (calls (snd (processUnhandledError Samples.ios
          (Some Samples.noMessage) false
          (Samples.started Samples.ios Samples.defaults)))))
     = [""].
Proof. split; vm_compute; reflexivity. Qed.

(** For an error with a stack, once [init] has set the options, the
    payload literal is evaluated and the report is handed to the handler
    or, when there is none, sent. *)
Lemma processUnhandledError_builds host st fatal e opts :
  truthy (stack e) = true ->
  GlobalOptions st = Some opts ->
  envReady host ->
  linked host st ->
  exists env new,
    let st1 := tagFatal fatal st in
    let p := payloadLiteral host (Some e) (stackOf host e) (curSession st) env
               (Date_getTime host (dates st)) (store st1) opts in
    let j := JSON_stringify (store st1) p in
    Message (Error (Details_ j)) = orElse (message e) ""
    /\ calls (snd (processUnhandledError host (Some e) fatal st)) = calls st ++ new
    /\ match onBeforeSend opts with
       | Some _ => handed new = [j]
       | None => sends new = [route st j (apiKey opts)]
       end.
Proof.
  intros Hstack Hopts Henv Hlinked.
  destruct (processUnhandledError_run host st e fatal opts Hstack Hopts Henv Hlinked)
    as (env & extra & Hsends & Hhanded & Hcalls & _ & _).
  cbv zeta in Hcalls.
  exists env. eexists. cbv zeta. split; [reflexivity|]. split; [exact Hcalls|].
  set (st1 := tagFatal fatal st) in *.
  set (p := payloadLiteral _ _ _ _ _ _ _ _) in *.
  assert (Hr : forall j k, route st1 j k = route st j k).
  { intros. unfold route, st1. now destruct fatal. }
  unfold deliveryCalls. destruct (onBeforeSend opts) as [h|].
  - set (j := JSON_stringify (store st1) p).
    change (onBeforeSend_call j :: ?l) with ([onBeforeSend_call j] ++ l).
    rewrite !handed_app, Hhanded. simpl.
    destruct (assignAll _ _ _); [destruct (snd (handler h j))|];
      rewrite ?handed_route; reflexivity.
  - rewrite sends_app, Hsends, sends_route, Hr. reflexivity.
Qed.

(** C7, amended. An event whose error is missing, or has no stack or an
    empty one, is logged and dropped: nothing else changes, no payload is
    built and no transport is called. For every other event, with or
    without a message, once [init] has set the options, the payload is
    built, with the message or the empty string in its place, and is
    handed to the before-send handler or, when there is none, sent. *)
Theorem C7_errors_without_stack_are_dropped host st fatal :
  (forall error,
     match error with Some e => truthy (stack e) = false | None => True end ->
     processUnhandledError host error fatal st
     = (Ok tt, add_call (console_log "Unrecognized error occurred") st))
  /\ (forall e opts,
      truthy (stack e) = true ->
      GlobalOptions st = Some opts ->
      envReady host ->
      linked host st ->
      exists env new,
        let st1 := tagFatal fatal st in
        let p := payloadLiteral host (Some e) (stackOf host e) (curSession st) env
                   (Date_getTime host (dates st)) (store st1) opts in
        let j := JSON_stringify (store st1) p in
        Message (Error (Details_ j)) = orElse (message e) ""
        /\ calls (snd (processUnhandledError host (Some e) fatal st)) = calls st ++ new
        /\ match onBeforeSend opts with
           | Some _ => handed new = [j]
           | None => sends new = [route st j (apiKey opts)]
           end).
Proof.
  split.
  - intros [e|] H; simpl; [rewrite H|]; reflexivity.
  - intros e opts. apply processUnhandledError_builds.
Qed.

(* ===================================================================== *)
(** ** What the session operations keep *)
(* ===================================================================== *)

Section Preservation.
Context {S : Type} (R : S -> S -> Prop).
Hypothesis R_refl : forall st, R st st.
Hypothesis R_trans : forall a b c, R a b -> R b c -> R a c.

Lemma preserves_ret {A} (a : A) : preserves R (ret a).
Proof. intros st. apply R_refl. Qed.

Lemma preserves_throw {A} e : preserves R (@throw S A e).
Proof. intros st. apply R_refl. Qed.

Lemma preserves_get : preserves R get.
Proof. intros st. apply R_refl. Qed.

Lemma preserves_modify f : (forall st, R st (f st)) -> preserves R (modify f).
Proof. intros H st. apply H. Qed.

Lemma preserves_bind {A B} (m : MS S A) (k : A -> MS S B) :
  preserves R m -> (forall a, preserves R (k a)) -> preserves R (bind m k).
Proof.
  intros Hm Hk st. unfold bind. specialize (Hm st).
  destruct (m st) as [[a|e] st']; simpl in *.
  - eapply R_trans; [exact Hm|]. apply Hk.
  - exact Hm.
Qed.

Lemma preserves_when b (m : MS S unit) : preserves R m -> preserves R (when b m).
Proof. intros H. destruct b; simpl; [exact H|apply preserves_ret]. Qed.
End Preservation.

Lemma tagsGrow_refl st : tagsGrow st st.
Proof. repeat split; auto. Qed.

Lemma tagsGrow_trans a b c : tagsGrow a b -> tagsGrow b c -> tagsGrow a c.
Proof.
  intros (H1 & H2 & H3 & H4) (K1 & K2 & K3 & K4).
  repeat split; try congruence. intros l t Ht. apply K4, H4, Ht.
Qed.

Lemma Set_add_grows x s t : t ∈ s -> t ∈ Set_add x s.
Proof.
  unfold Set_add. case_bool_decide; [auto|]. intros. apply elem_of_app. auto.
Qed.

Lemma Set_addAll_grows xs s t : t ∈ s -> t ∈ Set_addAll xs s.
Proof.
  unfold Set_addAll. revert s. induction xs as [|x xs IH]; simpl; intros s H; [exact H|].
  apply IH, Set_add_grows, H.
Qed.

Lemma read_set_alter f l s l' :
  read_set (set_sets (alter f l) s) l'
  = if decide (l = l') then
      match sets s !! l with Some x => f x | None => [] end
    else read_set s l'.
Proof.
  unfold read_set, set_sets; cbn [sets]. destruct (decide (l = l')) as [->|Hne].
  - rewrite list_lookup_alter_eq. destruct (sets s !! l'); reflexivity.
  - rewrite list_lookup_alter_ne by exact Hne. reflexivity.
Qed.

Lemma tagsGrow_alter f l st :
  (forall s t, t ∈ s -> t ∈ f s) ->
  tagsGrow st (set_store (set_sets (alter f l)) st).
Proof.
  intros Hf. repeat split; auto. intros l' t.
  unfold set_store; cbn [store].
  rewrite read_set_alter. destruct (decide (l = l')) as [->|]; [|auto].
  unfold read_set. destruct (sets (store st) !! l'); simpl; [apply Hf|auto].
Qed.

Lemma tagsGrow_log c : preserves tagsGrow (log c).
Proof. intros st. repeat split; auto. Qed.

Lemma tagsGrow_Rg4rn_call host c : preserves tagsGrow (Rg4rn_call host c).
Proof. unfold Rg4rn_call. destruct (Rg4rn host); [apply tagsGrow_log|]. intros st; apply tagsGrow_refl. Qed.

Lemma tagsGrow_new_Date host : preserves tagsGrow (new_Date host).
Proof. intros st. repeat split; auto. Qed.

Lemma tagsGrow_draw_uuidv4 host : preserves tagsGrow (draw_uuidv4 host).
Proof. intros st. repeat split; auto. Qed.

Lemma tagsGrow_new_Object o : preserves tagsGrow (new_Object o).
Proof. intros st. repeat split; auto. Qed.

Lemma tagsGrow_objs f st : tagsGrow st (set_store (set_objs f) st).
Proof. repeat split; auto. Qed.

Lemma tagsGrow_arrs f st : tagsGrow st (set_store (set_arrs f) st).
Proof. repeat split; auto. Qed.

Lemma tagsGrow_session f st :
  (forall s, tags (f s) = tags s) -> tagsGrow st (set_curSession f st).
Proof. intros H. repeat split; auto. simpl. apply H. Qed.

Ltac grow_with known :=
  repeat first
    [ known
    | apply tagsGrow_log
    | apply tagsGrow_Rg4rn_call
    | apply tagsGrow_new_Date
    | apply tagsGrow_draw_uuidv4
    | apply tagsGrow_new_Object
    | apply (preserves_ret tagsGrow tagsGrow_refl)
    | apply (preserves_throw tagsGrow tagsGrow_refl)
    | apply (preserves_get tagsGrow tagsGrow_refl)
    | apply (preserves_when tagsGrow tagsGrow_refl)
    | apply preserves_modify; intros ?;
      first [ apply tagsGrow_alter; intros ? ?;
              first [apply Set_add_grows | apply Set_addAll_grows]
            | apply tagsGrow_objs | apply tagsGrow_arrs
            | apply tagsGrow_session; intros ?; reflexivity ]
    | apply (preserves_bind tagsGrow tagsGrow_trans); [|intros ?]
    | match goal with
      | |- preserves _ (match ?x with _ => _ end) => destruct x
      end ].

Ltac grow := grow_with fail.

Lemma tagsGrow_environmentDetails host : preserves tagsGrow (environmentDetails host).
Proof. unfold environmentDetails. grow. Qed.

Lemma tagsGrow_generatePayload host err frames sess :
  preserves tagsGrow (generatePayload host err frames sess).
Proof.
  unfold generatePayload, assemblePayload.
  grow_with ltac:(apply tagsGrow_environmentDetails).
Qed.

Lemma tagsGrow_runOp host op :
  keepsSession op = true -> preserves tagsGrow (runOp host op).
Proof.
  destruct op; simpl; intros H; try discriminate.
  - unfold addTag. grow.
  - unfold setUser. grow.
  - unfold addCustomData. grow.
  - unfold updateCustomData. grow.
  - unfold recordBreadcrumb. grow.
  - unfold processUnhandledError, call_onBeforeSend.
    grow_with ltac:(apply tagsGrow_generatePayload).
Qed.

Lemma Set_add_elem x s : x ∈ Set_add x s.
Proof.
  unfold Set_add. case_bool_decide; [assumption|]. apply elem_of_app. right. constructor.
Qed.

Lemma tagsGrow_runOps host ops st :
  forallb keepsSession ops = true -> tagsGrow st (runOps host ops st).
Proof.
  unfold runOps. revert st. induction ops as [|op ops IH]; intros st H; simpl in *.
  - apply tagsGrow_refl.
  - apply andb_true_iff in H as [H1 H2].
    eapply tagsGrow_trans; [apply (tagsGrow_runOp host op H1)|apply IH, H2].
Qed.

Lemma tagFatal_step fatal (k : unit -> M unit) st :
  bind (when fatal (modify (fun st0 =>
    set_store (set_sets (alter (Set_add "Fatal") (tags (curSession st0)))) st0))) k st
  = k tt (tagFatal fatal st).
Proof. destruct fatal; reflexivity. Qed.

Lemma tagsGrow_tagFatal fatal st : tagsGrow st (tagFatal fatal st).
Proof.
  destruct fatal; simpl; [|apply tagsGrow_refl].
  apply tagsGrow_alter. intros. now apply Set_add_grows.
Qed.

Lemma Fatal_after_tagFatal st :
  (tags (curSession st) < length (sets (store st)))%nat ->
  "Fatal" ∈ sessionTags (tagFatal true st).
Proof.
  intros H. unfold sessionTags, tagFatal, set_store, set_curSession; cbn [store curSession].
  rewrite read_set_alter. rewrite decide_True by reflexivity.
  destruct (lookup_lt_is_Some_2 _ _ H) as [x ->]. apply Set_add_elem.
Qed.

Lemma sessionTags_clearSession st :
  sessionTags (snd (clearSession st)) = ["React Native"].
Proof.
  unfold sessionTags, clearSession, getCleanSession, bind, new_Set, new_Object,
    new_Array, ret, modify, read_set; simpl.
  rewrite list_lookup_middle by reflexivity. reflexivity.
Qed.

Lemma tagsGrow_elem st st' :
  tagsGrow st st' -> "Fatal" ∈ sessionTags st -> "Fatal" ∈ sessionTags st'.
Proof.
  intros (Ht & _ & _ & H) Hin. unfold sessionTags in *. rewrite Ht. apply H, Hin.
Qed.

(** C10. Processing an error with a stack that is flagged fatal adds
    "Fatal" to the tags of the live session. The tag stays through every
    later operation other than [clearSession], errors included, and the
    report built for any later error, fatal or not, carries it.
    [clearSession] puts a session in place whose only tag is
    "React Native". *)
Theorem C10_fatal_tag_stays_until_clearSession host st e :
  truthy (stack e) = true ->
  (tags (curSession st) < length (sets (store st)))%nat ->
  let st1 := snd (processUnhandledError host (Some e) true st) in
  "Fatal" ∈ sessionTags st1
  /\ (forall ops,
      forallb keepsSession ops = true ->
      let st2 := runOps host ops st1 in
      "Fatal" ∈ sessionTags st2
      /\ forall e' fatal' opts,
           truthy (stack e') = true ->
           GlobalOptions st2 = Some opts ->
           envReady host ->
           linked host st2 ->
           exists j new,
             calls (snd (processUnhandledError host (Some e') fatal' st2))
             = calls st2 ++ new
             /\ "Fatal" ∈ Tags (Details_ j)
             /\ match onBeforeSend opts with
                | Some _ => handed new = [j]
                | None => sends new = [route st2 j (apiKey opts)]
                end)
  /\ (forall ops,
      sessionTags (snd (clearSession (runOps host ops st1))) = ["React Native"]).
Proof.
  intros Hstack Halloc st1.
  assert (H1 : "Fatal" ∈ sessionTags st1).
  { subst st1. unfold processUnhandledError. rewrite Hstack, tagFatal_step.
    eapply tagsGrow_elem; [|apply Fatal_after_tagFatal, Halloc].
    unfold call_onBeforeSend.
    match goal with |- tagsGrow ?s (snd (?m ?s)) =>
      assert (Hp : preserves tagsGrow m); [|apply Hp] end.
    grow_with ltac:(apply tagsGrow_generatePayload). }
  split; [exact H1|]. split.
  - intros ops Hops st2.
    assert (H2 : "Fatal" ∈ sessionTags st2).
    { eapply tagsGrow_elem; [apply tagsGrow_runOps, Hops|exact H1]. }
    split; [exact H2|].
    intros e' fatal' opts Hs' Hopts Henv Hlinked.
    destruct (processUnhandledError_builds host st2 fatal' e' opts Hs' Hopts Henv Hlinked)
      as (env & new & _ & Hcalls & Hroute).
    eexists _, new. split; [exact Hcalls|]. split; [|exact Hroute].
    destruct (tagsGrow_tagFatal fatal' st2) as (_ & _ & _ & Hg).
    apply Hg, H2.
  - intros ops. apply sessionTags_clearSession.
Qed.

(* ===================================================================== *)
(** ** Payloads and later mutations *)
(* ===================================================================== *)

(** C2, counterexample. On Android the payload builder waits for the
    native environment lookup after it has bound the session's objects
    and before it reads them. A tag added in between is in the payload,
    though the session did not have it when construction began. *)
Lemma C2_tag_added_during_the_lookup_is_reported :
  let st0 := Samples.started Samples.android Samples.defaults in
  let session := curSession st0 in
  sessionTags st0 = ["React Native"]
  /\ match environmentDetails Samples.android st0 with
     | (Ok env, st1) =>
         match assemblePayload Samples.android (Some Samples.boom) [] session env
                 (snd (addTag Samples.android ["late"] st1)) with
         | (Ok p, _) => Tags (Details_ p) = ["React Native"; "late"]
         | _ => False
         end
     | _ => False
     end.
Proof. split; vm_compute; reflexivity. Qed.

Lemma objsKept_refl st : objsKept st st.
Proof. split; auto. Qed.

Lemma objsKept_trans a b c : objsKept a b -> objsKept b c -> objsKept a c.
Proof.
  intros [H1 H2] [K1 K2]. split; [lia|].
  intros l Hl. rewrite K2 by lia. apply H2, Hl.
Qed.

Lemma objsKept_same st st' : objs (store st') = objs (store st) -> objsKept st st'.
Proof. intros H. unfold objsKept. rewrite H. auto. Qed.

Lemma objsKept_log c : preserves objsKept (log c).
Proof. intros st. now apply objsKept_same. Qed.

Lemma objsKept_Rg4rn_call host c : preserves objsKept (Rg4rn_call host c).
Proof.
  unfold Rg4rn_call. destruct (Rg4rn host); [apply objsKept_log|].
  intros st; apply objsKept_refl.
Qed.

Lemma objsKept_new_Date host : preserves objsKept (new_Date host).
Proof. intros st. now apply objsKept_same. Qed.

Lemma objsKept_new_Set s : preserves objsKept (new_Set s).
Proof. intros st. now apply objsKept_same. Qed.

Lemma objsKept_new_Array a : preserves objsKept (new_Array a).
Proof. intros st. now apply objsKept_same. Qed.

Lemma objsKept_new_Object o : preserves objsKept (new_Object o).
Proof.
  intros st. unfold new_Object, objsKept; simpl. rewrite length_app. split; [lia|].
  intros l Hl. now apply lookup_app_l.
Qed.

Ltac keep :=
  repeat first
    [ apply objsKept_log
    | apply objsKept_Rg4rn_call
    | apply objsKept_new_Date
    | apply objsKept_new_Set
    | apply objsKept_new_Array
    | apply objsKept_new_Object
    | apply (preserves_ret objsKept objsKept_refl)
    | apply (preserves_throw objsKept objsKept_refl)
    | apply (preserves_get objsKept objsKept_refl)
    | apply (preserves_when objsKept objsKept_refl)
    | apply preserves_modify; intros ?; apply objsKept_same; reflexivity
    | apply (preserves_bind objsKept objsKept_trans); [|intros ?]
    | match goal with
      | |- preserves _ (match ?x with _ => _ end) => destruct x
      end ].

Lemma objsKept_runOp host op :
  leavesPayload op = true -> preserves objsKept (runOp host op).
Proof.
  destruct op; simpl; intros H; try discriminate.
  - unfold addTag. keep.
  - unfold addCustomData. keep.
  - unfold recordBreadcrumb. keep.
  - unfold clearSession, getCleanSession. keep.
Qed.

Lemma objsKept_runOps host ops st :
  forallb leavesPayload ops = true -> objsKept st (runOps host ops st).
Proof.
  unfold runOps. revert st. induction ops as [|op ops IH]; intros st H; simpl in *.
  - apply objsKept_refl.
  - apply andb_true_iff in H as [H1 H2].
    eapply objsKept_trans; [apply (objsKept_runOp host op H1)|apply IH, H2].
Qed.

Lemma generatePayload_inv host err frames sess st p st' :
  generatePayload host err frames sess st = (Ok p, st') ->
  store st' = store st
  /\ UserCustomData (Details_ p) = customData sess
  /\ Tags (Details_ p) = read_set (store st) (tags sess)
  /\ User_ (Details_ p) = upperFirst_user (user sess)
  /\ Breadcrumbs (Details_ p) = upperFirst_breadcrumbs (read_arr (store st) (breadcrumbs sess)).
Proof.
  unfold generatePayload, environmentDetails, assemblePayload, bind, new_Date, get,
    ret, throw, log, modify.
  destruct (String.eqb _ _); [destruct (Rg4rn host) as [b|]; [destruct (getEnvironmentInfo b)|]|];
    simpl; try discriminate;
    destruct (GlobalOptions st); simpl; intros H; inversion H; subst; auto.
Qed.

Lemma read_obj_writeObject f l st l' :
  (l' < length (objs (store st)))%nat ->
  read_obj (store (writeObject f l st)) l'
  = if decide (l = l') then f (read_obj (store st) l') else read_obj (store st) l'.
Proof.
  intros Hl. destruct (lookup_lt_is_Some_2 _ _ Hl) as [x Hx].
  unfold writeObject, read_obj, set_store, set_objs; cbn [store objs].
  destruct (decide (l = l')) as [->|Hne].
  - rewrite list_lookup_alter_eq, Hx. reflexivity.
  - rewrite list_lookup_alter_ne by exact Hne. reflexivity.
Qed.

Lemma map_ext_Forall {A B} (f g : A -> B) l :
  Forall (fun x => f x = g x) l -> map f l = map g l.
Proof. induction 1 as [|x xs H _ IH]; simpl; congruence. Qed.

(** C2, amended. A payload that [generatePayload] has returned holds
    copies of the session's tags and user, and a breadcrumb of its own
    for each breadcrumb of the session; it shares with the session the
    custom-data object and, breadcrumb by breadcrumb, the custom-data
    object of the breadcrumb. Later calls of [addTag], [addCustomData],
    [recordBreadcrumb] and [clearSession], in any number and order, assign
    to none of the shared objects: the report the payload serialises to
    stays the same. An assignment to a shared object, by whoever holds a
    reference to it, shows in the report. *)
Theorem C2_returned_payload_is_isolated host st err frames p st' :
  allocated st ->
  trailAllocated st ->
  generatePayload host err frames (curSession st) st = (Ok p, st') ->
  Tags (Details_ p) = sessionTags st
  /\ User_ (Details_ p) = upperFirst_user (user (curSession st))
  /\ sharedObjects p = customData (curSession st) :: map b_customData (sessionTrail st)
  /\ (forall ops,
        forallb leavesPayload ops = true ->
        JSON_stringify (store (runOps host ops st')) p = JSON_stringify (store st') p)
  /\ (forall f l,
        let j' := JSON_stringify (store (writeObject f l st')) p in
        UserCustomData (Details_ j')
        = (if decide (l = customData (curSession st))
           then f (sessionData st) else sessionData st)
        /\ map CustomData_ (Breadcrumbs (Details_ j'))
           = map (fun b => if decide (l = b_customData b)
                           then f (read_obj (store st) (b_customData b))
                           else read_obj (store st) (b_customData b))
                 (sessionTrail st)).
Proof.
  intros (_ & Hc & _) Htrail Hgen.
  destruct (generatePayload_inv _ _ _ _ _ _ _ Hgen) as (Hstore & Hl & Ht & Hu & Hb).
  assert (Hshared : sharedObjects p
                    = customData (curSession st) :: map b_customData (sessionTrail st)).
  { unfold sharedObjects. rewrite Hl, Hb. f_equal.
    unfold upperFirst_breadcrumbs. rewrite map_map. reflexivity. }
  assert (Hall : Forall (fun l => (l < length (objs (store st')))%nat) (sharedObjects p)).
  { rewrite Hshared, Hstore. constructor; [exact Hc|].
    apply Forall_map. exact Htrail. }
  split; [exact Ht|]. split; [exact Hu|]. split; [exact Hshared|]. split.
  - intros ops Hops.
    destruct (objsKept_runOps host ops st' Hops) as [_ Hkept].
    assert (Hread : Forall (fun l => read_obj (store (runOps host ops st')) l
                                     = read_obj (store st') l) (sharedObjects p)).
    { eapply Forall_impl; [exact Hall|]. intros l Hlt. simpl in Hlt.
      unfold read_obj. now rewrite Hkept. }
    unfold sharedObjects in Hread. apply Forall_cons in Hread as [H1 H2].
    unfold JSON_stringify. rewrite H1. do 2 f_equal.
    apply map_ext_Forall. apply Forall_map in H2.
    eapply Forall_impl; [exact H2|]. intros b Hb'. simpl in Hb'.
    unfold stringify_breadcrumb. now rewrite Hb'.
  - intros f l. cbv zeta. unfold JSON_stringify; cbn [Details_ UserCustomData Breadcrumbs].
    unfold sharedObjects in Hall. apply Forall_cons in Hall as [H1 H2].
    rewrite read_obj_writeObject by exact H1. rewrite Hl, Hstore. split; [reflexivity|].
    rewrite Hb in *. unfold upperFirst_breadcrumbs in *. rewrite !map_map in *.
    apply Forall_map in H2. unfold sessionTrail.
    apply map_ext_Forall. eapply Forall_impl; [exact H2|]. intros b Hb'.
    cbn beta in Hb'. unfold stringify_breadcrumb, upperFirst_breadcrumb in *.
    cbn [CustomData_] in *. rewrite read_obj_writeObject by exact Hb'. now rewrite Hstore.
Qed.


(** An updater that changes the custom-data object in place is another
    matter: the payload shares that object and serialises differently
    afterwards, where an updater that returns a new object leaves it alone. *)
Example mutating_updater_reaches_payload :
  UserCustomData (Details_ (JSON_stringify
    (store (runOps Samples.ios
              [Op_updateCustomData (Mutates (fun d => <[ "k" := JNull ]> d))]
              Samples.builtState))
    Samples.builtPayload)) !! "k" = Some JNull
  /\ UserCustomData (Details_ (JSON_stringify
    (store (runOps Samples.ios
              [Op_updateCustomData (Returns (fun d => <[ "k" := JNull ]> d))]
              Samples.builtState))
    Samples.builtPayload)) !! "k" = None
  /\ UserCustomData (Details_ (JSON_stringify (store Samples.builtState)
                                 Samples.builtPayload)) !! "k" = None.
Proof. repeat split; vm_compute; reflexivity. Qed.

(** So is an assignment the caller makes to the object it gave a
    breadcrumb: the payload's breadcrumb refers to the same object. *)
Example caller_write_reaches_payload :
  map CustomData_ (Breadcrumbs (Details_
    (JSON_stringify (store MoreSamples.crumbedState) MoreSamples.crumbedPayload)))
  = [ {[ "screen" := JStr "home" ]} ]
  /\ map CustomData_ (Breadcrumbs (Details_
    (JSON_stringify
       (store (writeObject (fun d => <[ "screen" := JStr "settings" ]> d)
                 MoreSamples.callerObject MoreSamples.crumbedState))
       MoreSamples.crumbedPayload)))
  = [ {[ "screen" := JStr "settings" ]} ].
Proof. split; vm_compute; reflexivity. Qed.

(* ===================================================================== *)
(** ** Tags *)
(* ===================================================================== *)

Lemma elem_of_Set_add t x s : t ∈ Set_add x s <-> t = x \/ t ∈ s.
Proof.
  unfold Set_add. case_bool_decide.
  - split; [auto|]. intros [->|]; auto.
  - rewrite elem_of_app, list_elem_of_singleton. tauto.
Qed.

Lemma elem_of_Set_addAll t xs s : t ∈ Set_addAll xs s <-> t ∈ xs \/ t ∈ s.
Proof.
  unfold Set_addAll. revert s. induction xs as [|x xs IH]; intros s; simpl.
  - rewrite elem_of_nil. tauto.
  - rewrite IH, elem_of_Set_add, elem_of_cons. tauto.
Qed.

Lemma NoDup_Set_add x s : NoDup s -> NoDup (Set_add x s).
Proof.
  unfold Set_add. case_bool_decide; [auto|]. intros Hs.
  apply NoDup_app. split; [exact Hs|]. split.
  - intros y Hy Hy'. apply list_elem_of_singleton in Hy'. subst. contradiction.
  - apply NoDup_singleton.
Qed.

Lemma NoDup_Set_addAll xs s : NoDup s -> NoDup (Set_addAll xs s).
Proof.
  unfold Set_addAll. revert s. induction xs as [|x xs IH]; intros s H; simpl; [exact H|].
  apply IH, NoDup_Set_add, H.
Qed.

Lemma Set_addAll_present xs s : (forall x, x ∈ xs -> x ∈ s) -> Set_addAll xs s = s.
Proof.
  unfold Set_addAll. revert s. induction xs as [|x xs IH]; intros s H; simpl; [reflexivity|].
  unfold Set_add. rewrite bool_decide_eq_true_2 by (apply H; left).
  apply IH. intros y Hy. apply H. now right.
Qed.

Lemma addTag_session host ts st :
  (tags (curSession st) < length (sets (store st)))%nat ->
  let st' := snd (addTag host ts st) in
  sessionTags st' = Set_addAll ts (sessionTags st)
  /\ tags (curSession st') = tags (curSession st)
  /\ length (sets (store st')) = length (sets (store st)).
Proof.
  intros H.
  assert (Hr : sessionTags (set_store (set_sets (alter (Set_addAll ts) (tags (curSession st)))) st)
               = Set_addAll ts (sessionTags st)).
  { unfold sessionTags, set_store; cbn [store curSession].
    rewrite read_set_alter, decide_True by reflexivity.
    unfold read_set. destruct (lookup_lt_is_Some_2 _ _ H) as [x ->]. reflexivity. }
  unfold addTag, bind, modify, get, when, Rg4rn_call, log, modify, throw, ret.
  cbn [fst snd]. cbn [canEnableNative set_store].
  destruct (canEnableNative st); [destruct (Rg4rn host)|]; cbn [snd];
    (split; [exact Hr|]); split; try reflexivity;
    unfold set_store, set_sets; cbn [store sets curSession]; apply length_alter.
Qed.

Lemma addTags_session host (calls_ : list (list string)) st :
  (tags (curSession st) < length (sets (store st)))%nat ->
  let st' := runOps host (map Op_addTag calls_) st in
  sessionTags st' = fold_left (fun s ts => Set_addAll ts s) calls_ (sessionTags st)
  /\ tags (curSession st') = tags (curSession st)
  /\ length (sets (store st')) = length (sets (store st)).
Proof.
  unfold runOps. revert st. induction calls_ as [|ts cs IH]; intros st H; simpl.
  - auto.
  - destruct (addTag_session host ts st H) as (E1 & E2 & E3). cbv zeta in *.
    destruct (IH (snd (addTag host ts st))) as (F1 & F2 & F3).
    { rewrite E2, E3. exact H. }
    cbv zeta in *. rewrite F1, F2, F3, E1, E2, E3. auto.
Qed.

Lemma elem_of_addAll_calls t (calls_ : list (list string)) s :
  t ∈ fold_left (fun s ts => Set_addAll ts s) calls_ s
  <-> t ∈ s \/ exists ts, ts ∈ calls_ /\ t ∈ ts.
Proof.
  revert s. induction calls_ as [|ts cs IH]; intros s; simpl.
  - split; [auto|]. intros [H|(ts & H & _)]; [exact H|]. now apply elem_of_nil in H.
  - rewrite IH, elem_of_Set_addAll. split.
    + intros [[H|H]|(ts' & H1 & H2)]; eauto.
      * right. exists ts. split; [left|exact H].
      * right. exists ts'. split; [now right|exact H2].
    + intros [H|(ts' & H1 & H2)]; [auto|].
      apply elem_of_cons in H1 as [->|H1]; eauto.
Qed.

Lemma NoDup_addAll_calls (calls_ : list (list string)) s :
  NoDup s -> NoDup (fold_left (fun s ts => Set_addAll ts s) calls_ s).
Proof.
  revert s. induction calls_ as [|ts cs IH]; intros s H; simpl; [exact H|].
  apply IH, NoDup_Set_addAll, H.
Qed.

(** In sdk/src/RaygunClient.ts too, [addTag] adds its tags to
    [currentTags], whatever the state of the module. *)
Lemma Sdk_addTag_currentTags ts (sst : Sdk.State) :
  Sdk.currentTags (snd (Sdk.addTag ts sst)) = Set_addAll ts (Sdk.currentTags sst).
Proof.
  destruct sst as [cr rum o ini tg u cs].
  unfold Sdk.addTag, Sdk.crashReportingAvailable, Sdk.option_flag, Sdk.call,
    bind, get, modify, ret, when, throw; simpl.
  destruct ini, cr, o as [o|]; simpl;
    repeat (match goal with
            | |- context [default false ?x] => destruct x as [[|]|]; simpl
            end); reflexivity.
Qed.

Lemma Sdk_addTags_currentTags (calls_ : list (list string)) : forall sst : Sdk.State,
  Sdk.currentTags (SdkWords.addTags calls_ sst)
  = fold_left (fun s ts => Set_addAll ts s) calls_ (Sdk.currentTags sst).
Proof.
  unfold SdkWords.addTags. induction calls_ as [|ts cs IH]; intros sst; simpl.
  - reflexivity.
  - now rewrite IH, Sdk_addTag_currentTags.
Qed.

(** The tags after the same calls in another order. *)
Lemma addAll_calls_Permutation (calls_ calls2 : list (list string)) s :
  NoDup s -> calls2 ≡ₚ calls_ ->
  fold_left (fun s ts => Set_addAll ts s) calls2 s
  ≡ₚ fold_left (fun s ts => Set_addAll ts s) calls_ s.
Proof.
  intros Hnd Hperm.
  apply NoDup_Permutation; try now apply NoDup_addAll_calls.
  intros t. rewrite !elem_of_addAll_calls.
  split; intros [H|(ts & H1 & H2)]; auto; right; exists ts; split; auto.
  - now rewrite <- Hperm.
  - now rewrite Hperm.
Qed.

(** C9. In both clients, after any sequence of [addTag] calls the tags of
    the session are, as a set, the tags it had together with every tag
    passed: whatever the order of the calls, and with one copy of each
    tag. Calling [addTag] again with the same tags changes nothing. In
    sdk/src/RaygunClient.ts this holds of [currentTags] in every state of
    the module, also where [addTag] throws after adding the tags. *)
Theorem C9_addTag_is_set_union host st (calls_ : list (list string)) :
  (tags (curSession st) < length (sets (store st)))%nat ->
  NoDup (sessionTags st) ->
  let st' := runOps host (map Op_addTag calls_) st in
  ((forall t, t ∈ sessionTags st' <->
              t ∈ sessionTags st \/ exists ts, ts ∈ calls_ /\ t ∈ ts)
   /\ NoDup (sessionTags st')
   /\ (forall calls2, calls2 ≡ₚ calls_ ->
         sessionTags (runOps host (map Op_addTag calls2) st) ≡ₚ sessionTags st')
   /\ (forall ts,
         sessionTags (snd (addTag host ts (snd (addTag host ts st'))))
         = sessionTags (snd (addTag host ts st'))))
  /\ (forall sst : Sdk.State,
        let sst' := SdkWords.addTags calls_ sst in
        (forall t, t ∈ Sdk.currentTags sst' <->
                   t ∈ Sdk.currentTags sst \/ exists ts, ts ∈ calls_ /\ t ∈ ts)
        /\ (NoDup (Sdk.currentTags sst) -> NoDup (Sdk.currentTags sst'))
        /\ (NoDup (Sdk.currentTags sst) ->
            forall calls2, calls2 ≡ₚ calls_ ->
              Sdk.currentTags (SdkWords.addTags calls2 sst) ≡ₚ Sdk.currentTags sst')
        /\ (forall ts,
              Sdk.currentTags (snd (Sdk.addTag ts (snd (Sdk.addTag ts sst'))))
              = Sdk.currentTags (snd (Sdk.addTag ts sst')))).
Proof.
  intros Halloc Hnd st'. split.
  - destruct (addTags_session host calls_ st Halloc) as (E1 & E2 & E3). cbv zeta in *.
    fold st' in E1, E2, E3.
    assert (Hmem : forall t, t ∈ sessionTags st' <->
               t ∈ sessionTags st \/ exists ts, ts ∈ calls_ /\ t ∈ ts).
    { intros t. rewrite E1. apply elem_of_addAll_calls. }
    assert (Hnd' : NoDup (sessionTags st')).
    { rewrite E1. now apply NoDup_addAll_calls. }
    repeat split; try apply Hmem; try exact Hnd'.
    + intros calls2 Hperm.
      destruct (addTags_session host calls2 st Halloc) as (F1 & _ & _). cbv zeta in F1.
      rewrite F1, E1. now apply addAll_calls_Permutation.
    + intros ts.
      assert (Ha : (tags (curSession st') < length (sets (store st')))%nat)
        by (rewrite E2, E3; exact Halloc).
      destruct (addTag_session host ts st' Ha) as (G1 & G2 & G3). cbv zeta in *.
      destruct (addTag_session host ts (snd (addTag host ts st'))) as (K1 & _ & _).
      { rewrite G2, G3. exact Ha. }
      cbv zeta in K1. rewrite K1, G1.
      apply Set_addAll_present. intros x Hx. apply elem_of_Set_addAll. now left.
  - intros sst sst'. subst sst'. rewrite Sdk_addTags_currentTags.
    split; [intros t; apply elem_of_addAll_calls|].
    split; [intros Hs; now apply NoDup_addAll_calls|].
    split.
    + intros Hs calls2 Hperm. rewrite Sdk_addTags_currentTags.
      now apply addAll_calls_Permutation.
    + intros ts. rewrite !Sdk_addTag_currentTags, Sdk_addTags_currentTags.
      apply Set_addAll_present. intros x Hx. apply elem_of_Set_addAll. now left.
Qed.

(* ===================================================================== *)
(** ** The statements at work on the sample client *)
(* ===================================================================== *)

Lemma ready_envReady : envReady Samples.ios.
Proof. intros H. vm_compute in H. discriminate H. Defined.

Lemma ready_linked : linked Samples.ios Samples.ready.
Proof. intros _. exists Samples.bridge. reflexivity. Defined.

Lemma ready_allocated : allocated Samples.ready.
Proof. vm_compute. repeat split; lia. Defined.

(** A breadcrumb carries an object of the caller's. Three mutations and a
    [clearSession] after the payload for [boom] was returned: it
    serialises as before. *)
Lemma C2_returned_payload_is_isolated_witness :
  JSON_stringify
    (store (runOps Samples.ios
              [Op_addTag ["late"]; Op_addCustomData {[ "a" := JNum 1 ]};
               Op_recordBreadcrumb "tap" None; Op_clearSession]
              MoreSamples.crumbedState))
    MoreSamples.crumbedPayload
  = JSON_stringify (store MoreSamples.crumbedState) MoreSamples.crumbedPayload.
Proof.
  refine (proj1 (proj2 (proj2 (proj2
            (C2_returned_payload_is_isolated Samples.ios MoreSamples.crumbed
               (Some Samples.boom) [] MoreSamples.crumbedPayload
               MoreSamples.crumbedState _ _ _))))
            [Op_addTag ["late"]; Op_addCustomData {[ "a" := JNum 1 ]};
             Op_recordBreadcrumb "tap" None; Op_clearSession] _).
  - vm_compute. repeat split; lia.
  - vm_compute. repeat constructor.
  - vm_compute. reflexivity.
  - reflexivity.
Defined.

(** [setUser("bob")] with the native reporter active. *)
Lemma C5_setUser_by_string_witness :
  user (curSession (snd (setUser Samples.ios (UString "bob") Samples.ready)))
  = mkUser (Some "bob") (Some false) (Some "") (Some "") (Some "")
  /\ uuids (snd (setUser Samples.ios (UString "bob") Samples.ready))
     = uuids Samples.ready.
Proof.
  exact (proj1 (proj2 (C5_setUser_by_string Samples.ios Samples.ready eq_refl
                         (ex_intro _ Samples.bridge eq_refl)))
               "b"%char "ob").
Defined.

(** A rejection with no error object is dropped; [boom] is built and sent. *)
Lemma C7_errors_without_stack_are_dropped_witness :
  processUnhandledError Samples.ios None false Samples.ready
  = (Ok tt, add_call (console_log "Unrecognized error occurred") Samples.ready)
  /\ exists env new,
       let p := payloadLiteral Samples.ios (Some Samples.boom)
                  (stackOf Samples.ios Samples.boom) (curSession Samples.ready) env
                  (Date_getTime Samples.ios (dates Samples.ready))
                  (store Samples.ready) Samples.merged in
       let j := JSON_stringify (store Samples.ready) p in
       Message (Error (Details_ j)) = "boom"
       /\ calls (snd (processUnhandledError Samples.ios (Some Samples.boom) false
                        Samples.ready))
          = calls Samples.ready ++ new
       /\ sends new = [Rg4rn_sendCrashReport j (Some "key")].
Proof.
  split.
  - exact (proj1 (C7_errors_without_stack_are_dropped Samples.ios Samples.ready false)
                 None I).
  - exact (proj2 (C7_errors_without_stack_are_dropped Samples.ios Samples.ready false)
                 Samples.boom Samples.merged eq_refl eq_refl ready_envReady ready_linked).
Defined.

(** Two overlapping [addTag] calls on the started client, and on the
    other client before its [init], where each call throws. *)
Lemma C9_addTag_is_set_union_witness :
  NoDup (sessionTags (runOps Samples.ios
                        (map Op_addTag [["a"; "b"]; ["b"; "c"]]) Samples.ready))
  /\ NoDup (Sdk.currentTags (SdkWords.addTags [["a"; "b"]; ["b"; "c"]]
                               (Sdk.loaded "device"))).
Proof.
  assert (H := C9_addTag_is_set_union Samples.ios Samples.ready
                 [["a"; "b"]; ["b"; "c"]]).
  cbv zeta in H. destruct H as [H1 H2].
  - vm_compute. lia.
  - vm_compute. apply NoDup_singleton.
  - split; [exact (proj1 (proj2 H1))|].
    apply (proj1 (proj2 (H2 (Sdk.loaded "device")))). vm_compute. apply NoDup_nil_2.
Defined.

(** [boom] reported as fatal on the started client. *)
Lemma C10_fatal_tag_stays_until_clearSession_witness :
  "Fatal" ∈ sessionTags (snd (processUnhandledError Samples.ios (Some Samples.boom)
                                true Samples.ready)).
Proof.
  refine (proj1 (C10_fatal_tag_stays_until_clearSession Samples.ios Samples.ready
                   Samples.boom eq_refl _)).
  vm_compute. lia.
Defined.

(* ===================================================================== *)
(** ** The stack helpers, frame by frame *)
(* ===================================================================== *)

(** X1. [noAddressAt] returns a method name with no "(address at" in
    it, leaves the file, the line and the column alone, and applied twice
    gives what it gives applied once. *)
Theorem noAddressAt_normalises frame :
  JsString.includes (methodName (noAddressAt frame)) "(address at" = false
  /\ file (noAddressAt frame) = file frame
  /\ lineNumber (noAddressAt frame) = lineNumber frame
  /\ column (noAddressAt frame) = column frame
  /\ noAddressAt (noAddressAt frame) = noAddressAt frame.
Proof.
  split; [apply noAddressAt_strips|]. repeat split.
  pose proof (noAddressAt_strips frame) as H.
  set (g := noAddressAt frame) in *.
  unfold noAddressAt at 1. unfold JsString.includes in H.
  apply Z.leb_gt in H.
  destruct (-1 <? JsString.indexOf (methodName g) "(address at")%Z eqn:E.
  - apply Z.ltb_lt in E. lia.
  - destruct g; reflexivity.
Qed.

(** X2. A frame whose method name holds no "(address at" is returned as
    it is. *)
Theorem noAddressAt_without_suffix frame :
  JsString.includes (methodName frame) "(address at" = false ->
  noAddressAt frame = frame.
Proof.
  unfold JsString.includes, noAddressAt. intros H. apply Z.leb_gt in H.
  destruct (-1 <? JsString.indexOf (methodName frame) "(address at")%Z eqn:E.
  - apply Z.ltb_lt in E. lia.
  - destruct frame; reflexivity.
Qed.

Lemma test_suffix r p s : run r s [] <> [] -> test r (p ++ s)%string = true.
Proof.
  intros H. induction p as [|c p IH]; simpl.
  - destruct s; simpl; destruct (run r _ []) eqn:E; try reflexivity; contradiction.
  - destruct (run r (String c (p ++ s)) []); [exact IH|reflexivity].
Qed.

Lemma run_Lit l : forall q caps, run (Lit l) (l ++ q)%string caps = [(q, caps)].
Proof.
  induction l as [|a l IH]; intros q caps; [reflexivity|].
  simpl. rewrite Ascii.eqb_refl. simpl. rewrite IH. reflexivity.
Qed.

(** X3. [filterOutReactFrames] rejects a frame with no file or an empty
    one, a frame whose file ends in ReactNativeRenderer-dev.js or in
    MessageQueue.js, and a frame whose file holds "native", a white-space
    character and "code" anywhere. *)
Theorem filterOutReactFrames_drops frame :
  (file frame = None \/ file frame = Some ""
   \/ (exists p, file frame = Some (p ++ "ReactNativeRenderer-dev.js")%string)
   \/ (exists p, file frame = Some (p ++ "MessageQueue.js")%string)
   \/ (exists p w q, JsString.isSpace w = true /\
                     file frame = Some (p ++ "native" ++ String w ("code" ++ q))%string)) ->
  filterOutReactFrames frame = false.
Proof.
  unfold filterOutReactFrames.
  intros [->|[->|[(p & ->)|[(p & ->)|(p & w & q & Hw & ->)]]]]; try reflexivity.
  - set (s := (p ++ _)%string).
    assert (H : test internalTrace s = true) by (apply test_suffix; vm_compute; discriminate).
    destruct s; [reflexivity|]. now rewrite H.
  - set (s := (p ++ _)%string).
    assert (H : test internalTrace s = true) by (apply test_suffix; vm_compute; discriminate).
    destruct s; [reflexivity|]. now rewrite H.
  - set (s := (p ++ _)%string).
    assert (H : test internalTrace s = true).
    { apply test_suffix. unfold internalTrace.
      cbn [run]. 
      change (run (Seq (Lit "native") (Seq Space (Lit "code"))) ?x [])
        with (flat_map (fun sc => flat_map (fun sc' => run (Lit "code") (fst sc') (snd sc'))
                                    (run Space (fst sc) (snd sc)))
                       (run (Lit "native") x [])).
      rewrite (run_Lit "native"). cbn [flat_map fst snd run one]. rewrite Hw.
      cbn [flat_map fst snd]. rewrite (run_Lit "code").
      intros Hnil. apply app_eq_nil in Hnil as [_ Hnil].
      apply app_eq_nil in Hnil as [_ Hnil]. discriminate. }
    destruct s; [reflexivity|]. now rewrite H.
Qed.

Lemma isSuffix_refl s : isSuffix s s.
Proof. exists "". reflexivity. Qed.

Lemma isSuffix_trans a b c : isSuffix a b -> isSuffix b c -> isSuffix a c.
Proof.
  intros [p ->] [q ->]. exists (q ++ p)%string.
  induction q as [|d q IH]; [reflexivity|].
  change (String d (q ++ p ++ a) = String d ((q ++ p) ++ a))%string. now rewrite IH.
Qed.

Lemma isSuffix_tail c s : isSuffix s (String c s).
Proof. exists (String c ""). reflexivity. Qed.

Lemma one_suffix p s caps rest caps' :
  In (rest, caps') (one p s caps) -> isSuffix rest s.
Proof.
  destruct s as [|c s]; simpl; [tauto|].
  destruct (p c); simpl; [|tauto].
  intros [H|[]]. inversion H; subst. apply isSuffix_tail.
Qed.

(** Whatever a pattern matches, what is left unread is an end part of
    the input. *)
Lemma run_suffix r : forall s caps rest caps',
  In (rest, caps') (run r s caps) -> isSuffix rest s.
Proof.
  induction r as [| c | | c | | | r1 IH1 r2 IH2 | r1 IH1 r2 IH2 | r IH | n r IH];
    intros s caps rest caps' H; cbn [run] in H.
  - destruct H as [H|[]]. inversion H. apply isSuffix_refl.
  - eapply one_suffix, H.
  - eapply one_suffix, H.
  - eapply one_suffix, H.
  - eapply one_suffix, H.
  - destruct s; [|destruct H]. destruct H as [H|[]]. inversion H. apply isSuffix_refl.
  - apply in_flat_map in H as ([s1 c1] & H1 & H2). simpl in H2.
    eapply isSuffix_trans; [eapply IH2, H2|eapply IH1, H1].
  - apply in_app_iff in H as [H|H]; [eapply IH1, H|eapply IH2, H].
  - revert H. generalize (String.length s) at 1. intros fuel. revert s caps.
    induction fuel as [|fuel IHf]; intros s caps H.
    + destruct H as [H|[]]. inversion H. apply isSuffix_refl.
    + apply in_app_iff in H as [H|H].
      * apply in_flat_map in H as ([s1 c1] & H1 & H2). cbn [fst snd] in H2.
        destruct (String.length s1 <? String.length s)%nat; [|destruct H2].
        eapply isSuffix_trans; [eapply IHf, H2|eapply IH, H1].
      * destruct H as [H|[]]. inversion H. apply isSuffix_refl.
  - apply in_map_iff in H as ([s1 c1] & H1 & H2). inversion H1; subst.
    eapply IH, H2.
Qed.

Lemma hasChar_suffix c rest s :
  isSuffix rest s -> hasChar c s = false -> hasChar c rest = false.
Proof.
  intros [pre ->]. induction pre as [|d pre IH]; simpl; [auto|].
  intros H. apply orb_false_iff in H as [_ H]. auto.
Qed.

Lemma flat_map_nil {A B} (f : A -> list B) l :
  (forall x, In x l -> f x = []) -> flat_map f l = [].
Proof.
  induction l as [|x l IH]; simpl; intros H; [reflexivity|].
  rewrite (H x) by now left. apply IH. intros y Hy. apply H. now right.
Qed.

(** The device-path pattern matches no text without a slash. *)
Lemma devicePathPattern_needs_slash s :
  hasChar "/" s = false -> exec_anchored devicePathPattern s = None.
Proof.
  intros Hs. unfold exec_anchored, devicePathPattern.
  set (r1 := Opt _). set (r2 := Star Dot). set (rest := Seq (Plus _) _).
  assert (H : run (Seq r1 (Seq r2 (Seq (Chr "/") rest))) s [] = []).
  { cbn [run]. fold (run r2).
    apply flat_map_nil. intros [s1 c1] H1. cbn [fst snd].
    apply flat_map_nil. intros [s2 c2] H2. cbn [fst snd].
    assert (Hsuf : isSuffix s2 s).
    { eapply isSuffix_trans; [eapply (run_suffix r2), H2|eapply (run_suffix r1), H1]. }
    pose proof (hasChar_suffix "/" s2 s Hsuf Hs) as Hno.
    destruct s2 as [|d s2]; [reflexivity|].
    cbn [hasChar] in Hno. apply orb_false_iff in Hno as [Hd _].
    cbn [run]. unfold one at 1. rewrite Hd. reflexivity. }
  now rewrite H.
Qed.

Lemma append_assoc (a b c : string) : ((a ++ b) ++ c = a ++ (b ++ c))%string.
Proof.
  induction a as [|x a IH]; [reflexivity|].
  change (String x ((a ++ b) ++ c) = String x (a ++ b ++ c))%string. now rewrite IH.
Qed.

Lemma append_nil_r (a : string) : (a ++ "")%string = a.
Proof.
  induction a as [|x a IH]; [reflexivity|].
  change (String x (a ++ "") = String x a)%string. now rewrite IH.
Qed.

Lemma append_cons c (a b : string) : (String c a ++ b)%string = String c (a ++ b)%string.
Proof. reflexivity. Qed.

Lemma one_sound p s caps rest caps' :
  In (rest, caps') (one p s caps) ->
  exists c, s = String c rest /\ p c = true /\ caps' = caps.
Proof.
  destruct s as [|c s]; simpl; [tauto|].
  destruct (p c) eqn:E; simpl; [|tauto].
  intros [H|[]]. inversion H; subst. eauto.
Qed.

(** What the matcher reads is a text the pattern matches. *)
Lemma run_sound r : forall s caps rest caps',
  In (rest, caps') (run r s caps) ->
  exists pre, s = (pre ++ rest)%string /\ matches r pre.
Proof.
  induction r as [| c | | c | | | r1 IH1 r2 IH2 | r1 IH1 r2 IH2 | r IH | n r IH];
    intros s caps rest caps' H; cbn [run] in H.
  - destruct H as [H|[]]. inversion H. exists "". split; [reflexivity|constructor].
  - apply one_sound in H as (d & -> & Hd & _). apply Ascii.eqb_eq in Hd. subst d.
    exists (String c ""). split; [reflexivity|constructor].
  - apply one_sound in H as (d & -> & Hd & _). apply negb_true_iff in Hd.
    exists (String d ""). split; [reflexivity|now constructor].
  - apply one_sound in H as (d & -> & Hd & _). apply negb_true_iff in Hd.
    exists (String d ""). split; [reflexivity|now constructor].
  - apply one_sound in H as (d & -> & Hd & _).
    exists (String d ""). split; [reflexivity|now constructor].
  - destruct s; [|destruct H]. destruct H as [H|[]]. inversion H.
    exists "". split; [reflexivity|constructor].
  - apply in_flat_map in H as ([s1 c1] & H1 & H2). simpl in H2.
    destruct (IH1 _ _ _ _ H1) as (a & -> & Ha).
    destruct (IH2 _ _ _ _ H2) as (b & -> & Hb).
    exists (a ++ b)%string. split; [now rewrite append_assoc|now constructor].
  - apply in_app_iff in H as [H|H].
    + destruct (IH1 _ _ _ _ H) as (a & -> & Ha). exists a. split; [reflexivity|now constructor].
    + destruct (IH2 _ _ _ _ H) as (a & -> & Ha). exists a. split; [reflexivity|now apply matches_Alt_r].
  - revert H. generalize (String.length s) at 1. intros fuel. revert s caps.
    induction fuel as [|fuel IHf]; intros s caps H.
    + destruct H as [H|[]]. inversion H. exists "". split; [reflexivity|constructor].
    + apply in_app_iff in H as [H|H].
      * apply in_flat_map in H as ([s1 c1] & H1 & H2). cbn [fst snd] in H2.
        destruct (String.length s1 <? String.length s)%nat; [|destruct H2].
        destruct (IH _ _ _ _ H1) as (a & -> & Ha).
        destruct (IHf _ _ H2) as (b & -> & Hb).
        exists (a ++ b)%string. split; [now rewrite append_assoc|now constructor].
      * destruct H as [H|[]]. inversion H. exists "". split; [reflexivity|constructor].
  - apply in_map_iff in H as ([s1 c1] & H1 & H2). inversion H1; subst.
    destruct (IH _ _ _ _ H2) as (a & -> & Ha). exists a. split; [reflexivity|now constructor].
Qed.

Lemma noLineBreak_app a b :
  noLineBreak (a ++ b) = noLineBreak a && noLineBreak b.
Proof.
  induction a as [|c a IH]; [reflexivity|].
  rewrite append_cons. simpl. rewrite IH. now rewrite andb_assoc.
Qed.

Lemma matches_Lit l a : matches (Lit l) a -> a = l.
Proof.
  revert a. induction l as [|c l IH]; intros a H; simpl in H.
  - now inversion H.
  - inversion H as [| | | | | |r1 r2 x y Hx Hy| | | | |]; subst.
    inversion Hx; subst. now rewrite (IH _ Hy).
Qed.

Lemma matches_Star_all (p : string -> bool) r a :
  p "" = true ->
  (forall x y, p x = true -> p y = true -> p (x ++ y)%string = true) ->
  (forall x, matches r x -> p x = true) ->
  matches (Star r) a -> p a = true.
Proof.
  intros H0 Happ Hr H. remember (Star r) as q eqn:Eq.
  induction H; try discriminate; inversion Eq; subst; auto.
Qed.

Lemma matches_StarDot a : matches (Star Dot) a -> noLineBreak a = true.
Proof.
  apply matches_Star_all.
  - reflexivity.
  - intros x y Hx Hy. now rewrite noLineBreak_app, Hx, Hy.
  - intros x Hx. inversion Hx as [| |c Hc| | | | | | | | |]; subst. simpl. now rewrite Hc.
Qed.

Lemma hasChar_app c a b : hasChar c (a ++ b) = hasChar c a || hasChar c b.
Proof.
  induction a as [|d a IH]; [reflexivity|].
  rewrite append_cons. simpl. rewrite IH. now rewrite orb_assoc.
Qed.

Lemma matches_dir a :
  matches (Plus (NotChr ".")) a -> a <> "" /\ hasChar "." a = false.
Proof.
  unfold Plus. intros H.
  inversion H as [| | | | | |r1 r2 x y Hx Hy| | | | |]; subst.
  inversion Hx as [| | |c d Hd| | | | | | | |]; subst. split; [discriminate|].
  rewrite append_cons. cbn [hasChar]. rewrite Hd. cbn [orb].
  apply (matches_Star_all (fun s => negb (hasChar "." s)) (NotChr ".")) in Hy.
  - now apply negb_true_iff in Hy.
  - reflexivity.
  - intros u v Hu Hv. apply negb_true_iff in Hu, Hv. now rewrite hasChar_app, Hu, Hv.
  - intros u Hu. inversion Hu as [| | |c d' Hd'| | | | | | | |]; subst.
    cbn [hasChar]. now rewrite Hd'.
Qed.

Lemma matches_marker n a :
  matches (Group n (Alt (Lit ".app") (Lit "CodePush"))) a ->
  a = ".app" \/ a = "CodePush".
Proof.
  intros H. inversion H as [| | | | | | | | | | |m r x Hx]; subst.
  inversion Hx as [| | | | | | |r1 r2 y Hy|r1 r2 y Hy| | |]; subst.
  - apply (matches_Lit ".app") in Hy. auto.
  - apply (matches_Lit "CodePush") in Hy. auto.
Qed.

Lemma matches_sep a : matches (Opt (Chr "/")) a -> a = "" \/ a = "/".
Proof.
  unfold Opt. intros H.
  inversion H as [| | | | | | |r1 r2 y Hy|r1 r2 y Hy| | |]; subst;
    inversion Hy; subst; auto.
Qed.

Lemma matches_head a :
  matches (Opt (Group 1 (Seq (Star Dot) (Chr "@")))) a -> noLineBreak a = true.
Proof.
  unfold Opt. intros H.
  inversion H as [| | | | | | |r1 r2 y Hy|r1 r2 y Hy| | |]; subst.
  - inversion Hy as [| | | | | | | | | | |m r x Hx]; subst.
    inversion Hx as [| | | | | |r1 r2 u v Hu Hv| | | | |]; subst.
    apply matches_StarDot in Hu. inversion Hv; subst.
    rewrite noLineBreak_app, Hu. reflexivity.
  - now inversion Hy.
Qed.

Lemma length_append (a b : string) :
  String.length (a ++ b) = (String.length a + String.length b)%nat.
Proof.
  induction a as [|c a IH]; [reflexivity|]. rewrite append_cons. simpl. now rewrite IH.
Qed.

Lemma take_append a b : JsString.take (String.length a) (a ++ b) = a.
Proof.
  induction a as [|c a IH]; [now destruct b|]. rewrite append_cons. simpl. now rewrite IH.
Qed.

Lemma consumed_append a b : consumed (a ++ b) b = a.
Proof.
  unfold consumed. rewrite length_append.
  replace (String.length a + String.length b - String.length b)%nat
    with (String.length a) by lia.
  apply take_append.
Qed.

(** The first way a list of alternatives, each expanded, offers. *)
Lemma flat_map_head {A B} (f : A -> list B) l y ys :
  flat_map f l = y :: ys -> exists x ys', In x l /\ f x = y :: ys'.
Proof.
  induction l as [|x l IH]; simpl; [discriminate|].
  destruct (f x) as [|z zs] eqn:E; simpl.
  - intros H. destruct (IH H) as (x' & ys' & Hin & Hx). eauto.
  - intros H. inversion H; subst. exists x, zs. auto.
Qed.

(** Greedy [.*] reads on to the end of the line first. *)
Lemma run_StarDot_first s caps :
  exists pre rest others,
    run (Star Dot) s caps = (rest, caps) :: others
    /\ s = (pre ++ rest)%string /\ noLineBreak pre = true /\ atLineEnd rest.
Proof.
  cbn [run]. generalize (Nat.le_refl (String.length s)).
  generalize (String.length s) at 2 3. intros fuel. revert s.
  induction fuel as [|fuel IH]; intros s Hlen.
  - destruct s; [|simpl in Hlen; lia].
    exists "", "", []. repeat split.
  - destruct s as [|c s].
    + exists "", "", []. repeat split.
    + cbn [one]. destruct (JsString.isLineTerminator c) eqn:Ec; cbn [negb flat_map].
      * exists "", (String c s), []. repeat split. exact Ec.
      * cbn [fst snd].
        assert (Hlt : (String.length s <? String.length (String c s))%nat = true)
          by (apply Nat.ltb_lt; simpl; lia).
        rewrite Hlt. destruct (IH s) as (pre & rest & others & E & -> & Hp & Hr).
        { simpl in Hlen. lia. }
        rewrite E. exists (String c pre), rest.
        eexists. split; [reflexivity|].
        repeat split; [simpl; now rewrite Ec|exact Hr].
Qed.

(** A match of the device-path pattern, piece by piece: the text before
    the slash, the directory, the marker, the separator and the captured
    file name, which runs to the end of the line. *)
Lemma devicePathPattern_shape s result :
  exec_anchored devicePathPattern s = Some result ->
  exists head dir marker sep fileName rest,
    s = (head ++ "/" ++ dir ++ marker ++ sep ++ fileName ++ rest)%string
    /\ noLineBreak head = true
    /\ dir <> "" /\ hasChar "." dir = false
    /\ (marker = ".app" \/ marker = "CodePush")
    /\ (sep = "" \/ sep = "/")
    /\ noLineBreak fileName = true
    /\ atLineEnd rest
    /\ capture result 3 = Some fileName.
Proof.
  unfold exec_anchored, devicePathPattern.
  set (A := Opt _). set (B := Star Dot). set (D := Plus _). set (E := Group 2 _).
  set (F := Opt (Chr "/")).
  destruct (run _ s []) as [|[rest0 caps0] others] eqn:Hrun; [discriminate|].
  intros H. inversion H; subst caps0; clear H.
  cbn [run] in Hrun. fold (run B) in Hrun.
  apply flat_map_head in Hrun as ([sa ca] & ? & Ha & Hrun). cbn [fst snd] in Hrun.
  apply flat_map_head in Hrun as ([sb cb] & ? & Hb & Hrun). cbn [fst snd] in Hrun.
  apply flat_map_head in Hrun as ([sc cc] & ? & Hc & Hrun). cbn [fst snd] in Hrun.
  apply flat_map_head in Hrun as ([sd cd] & ? & Hd & Hrun). cbn [fst snd] in Hrun.
  apply flat_map_head in Hrun as ([se ce] & ? & He & Hrun). cbn [fst snd] in Hrun.
  apply flat_map_head in Hrun as ([sf cf] & ? & Hf & Hrun). cbn [fst snd] in Hrun.
  destruct (run_StarDot_first sf cf) as (g & rest & og & Eg & -> & Hg & Hrest).
  fold (run B) in Hrun. unfold B in Hrun. rewrite Eg in Hrun. cbn [map fst snd] in Hrun.
  inversion Hrun; subst; clear Hrun.
  apply (run_sound A) in Ha as (a & -> & Ma).
  apply (run_sound B) in Hb as (b & -> & Mb).
  apply one_sound in Hc as (c & -> & Hc & _). apply Ascii.eqb_eq in Hc. subst c.
  apply (run_sound D) in Hd as (d & -> & Md).
  apply (run_sound E) in He as (e & -> & Me).
  apply (run_sound F) in Hf as (f & -> & Mf).
  exists (a ++ b)%string, d, e, f, g, rest0.
  apply matches_head in Ma. apply matches_StarDot in Mb.
  apply matches_dir in Md as [Md1 Md2]. apply matches_marker in Me. apply matches_sep in Mf.
  repeat split; auto.
  - now rewrite append_assoc.
  - now rewrite noLineBreak_app, Ma, Mb.
  - cbn [capture Nat.eqb]. now rewrite consumed_append.
Qed.

(** X4. [cleanFilePath] returns as many frames as it is given, in the
    same order and with the same method names, lines and columns. A frame
    whose file the device-path pattern does not match is returned as it
    is. Where the pattern matches, the file reads: some text, a slash, a
    directory name without a dot, ".app" or "CodePush", a slash or
    nothing, and then the file name the pattern captures, which runs to
    the end of the line; the frame gets the source-map prefix followed by
    that file name as its file. *)
Theorem cleanFilePath_keeps_frames frames :
  length (cleanFilePath frames) = length frames
  /\ map methodName (cleanFilePath frames) = map methodName frames
  /\ map lineNumber (cleanFilePath frames) = map lineNumber frames
  /\ map column (cleanFilePath frames) = map column frames
  /\ Forall2 (fun f g =>
                (exec_anchored devicePathPattern (fileText (file f)) = None /\ g = f)
                \/ exists head dir marker sep fileName rest,
                     fileText (file f)
                     = (head ++ "/" ++ dir ++ marker ++ sep ++ fileName ++ rest)%string
                     /\ noLineBreak head = true
                     /\ dir <> "" /\ hasChar "." dir = false
                     /\ (marker = ".app" \/ marker = "CodePush")
                     /\ (sep = "" \/ sep = "/")
                     /\ noLineBreak fileName = true
                     /\ atLineEnd rest
                     /\ (exists result,
                           exec_anchored devicePathPattern (fileText (file f)) = Some result
                           /\ capture result 3 = Some fileName)
                     /\ file g = Some (SOURCE_MAP_PREFIX ++ fileName)%string)
             frames (cleanFilePath frames).
Proof.
  unfold cleanFilePath. rewrite length_map.
  repeat split.
  - rewrite map_map. apply map_ext. intros f. destruct (exec_anchored _ _); reflexivity.
  - rewrite map_map. apply map_ext. intros f. destruct (exec_anchored _ _); reflexivity.
  - rewrite map_map. apply map_ext. intros f. destruct (exec_anchored _ _); reflexivity.
  - induction frames as [|f fs IH]; simpl; constructor; [|exact IH].
    destruct (exec_anchored _ _) as [result|] eqn:E; [right|left; auto].
    destruct (devicePathPattern_shape _ _ E)
      as (head & dir & marker & sep & fileName & rest & Hs & H1 & H2 & H3 & H4 & H5 & H6
          & H7 & H8).
    exists head, dir, marker, sep, fileName, rest.
    repeat match goal with |- _ /\ _ => split end; eauto.
    simpl. now rewrite H8.
Qed.

(** X5. Frames whose file has no slash, the missing file included, come
    back from [cleanFilePath] unchanged. *)
Theorem cleanFilePath_without_slash frames :
  Forall (fun f => hasChar "/" (fileText (file f)) = false) frames ->
  cleanFilePath frames = frames.
Proof.
  unfold cleanFilePath. induction 1 as [|f fs Hf _ IH]; simpl; [reflexivity|].
  rewrite (devicePathPattern_needs_slash _ Hf). now rewrite IH.
Qed.

(* ===================================================================== *)
(** ** Relabelling with upperFirst *)
(* ===================================================================== *)

Lemma keyEqb_eq a : forall b, keyEqb a b = true <-> a = b.
Proof.
  induction a as [|x a IH]; intros [|y b]; simpl; split; try congruence; try reflexivity.
  - intros H. apply andb_true_iff in H as [H1 H2].
    apply N.eqb_eq in H1. apply IH in H2. congruence.
  - intros H. inversion H; subst. rewrite N.eqb_refl. simpl. now apply IH.
Qed.

Lemma setProp_fresh key val all :
  key ∉ map fst all -> setProp key val all = all ++ [(key, val)].
Proof.
  induction all as [|[k v] all IH]; simpl; intros H; [reflexivity|].
  apply not_elem_of_cons in H as [Hne Hin].
  destruct (keyEqb k key) eqn:E.
  - apply keyEqb_eq in E. congruence.
  - now rewrite IH.
Qed.

Lemma reduceEntries_distinct f ps : forall all out,
  NoDup (map fst all ++ map (fun kv => wireKey (fst kv)) ps) ->
  reduceEntries f ps all = Ok out ->
  exists out',
    out = all ++ out' /\
    Forall2 (fun kv kv' =>
               fst kv' = wireKey (fst kv) /\
               if String.eqb (fst kv) "customData" then snd kv' = widen (snd kv)
               else f (snd kv) = Ok (snd kv')) ps out'.
Proof.
  induction ps as [|[k v] ps IH]; intros all out Hnd H; simpl in *.
  - inversion H; subst. exists []. rewrite app_nil_r. split; [reflexivity|constructor].
  - assert (Hfresh : wireKey k ∉ map fst all).
    { apply NoDup_app in Hnd as (_ & Hd & _). intros Hin. apply (Hd _ Hin). left. }
    assert (Hnd' : forall x, NoDup (map fst (all ++ [(wireKey k, x)]) ++
                                     map (fun kv => wireKey (fst kv)) ps)).
    { intros x. rewrite map_app. simpl. rewrite <- app_assoc. exact Hnd. }
    unfold wireKey in Hfresh, Hnd' |- *.
    destruct (String.eqb k "customData") eqn:E; simpl in H.
    + rewrite setProp_fresh in H by exact Hfresh.
      destruct (IH _ _ (Hnd' (widen v)) H) as (out' & -> & HF).
      exists ((wireKey k, widen v) :: out'). unfold wireKey. rewrite E.
      rewrite <- app_assoc. split; [reflexivity|].
      constructor; [|exact HF]. simpl. rewrite E. auto.
    + destruct (f v) as [v'|e] eqn:Ev; [|discriminate].
      rewrite setProp_fresh in H by exact Hfresh.
      destruct (IH _ _ (Hnd' v') H) as (out' & -> & HF).
      exists ((upperFirstKey k, v') :: out').
      rewrite <- app_assoc. split; [reflexivity|].
      constructor; [|exact HF]. simpl. rewrite E. auto.
Qed.

Lemma mapAll_Forall2 f xs : forall ys,
  mapAll f xs = Ok ys -> Forall2 (fun x y => f x = Ok y) xs ys.
Proof.
  induction xs as [|x xs IH]; intros ys H; simpl in H.
  - inversion H. constructor.
  - destruct (f x) as [y|e] eqn:E; [|discriminate].
    destruct (mapAll f xs) as [ys'|e]; [|discriminate].
    inversion H; subst. constructor; auto.
Qed.

Lemma reduceEntries_throws f ps : forall all k v e,
  (k, v) ∈ ps -> String.eqb k "customData" = false -> f v = Throw e ->
  exists e', reduceEntries f ps all = Throw e'.
Proof.
  induction ps as [|[k0 v0] ps IH]; intros all k v e Hin Hk Hf.
  - now apply elem_of_nil in Hin.
  - simpl. apply elem_of_cons in Hin as [Heq|Hin].
    + inversion Heq; subst. rewrite Hk. simpl. rewrite Hf. eauto.
    + destruct (String.eqb k0 "customData"); simpl.
      * eapply IH; eauto.
      * destruct (f v0); [eapply IH; eauto|eauto].
Qed.

(** The upper case of a code unit, as a table: what [upperFirst] puts in
    front of the rest of a key. *)
Lemma toUpperCase1_table (c : ascii) :
  let n := N_of_ascii c in
  toUpperCase1 c =
    if decide (97 <= n <= 122 \/ (224 <= n <= 254 /\ n <> 247))%N then [n - 32]%N
    else if decide (n = 181%N) then [924%N]
    else if decide (n = 223%N) then keyOf "SS"
    else if decide (n = 255%N) then [376%N]
    else [n].
Proof.
  cbv zeta. unfold toUpperCase1. set (n := N_of_ascii c).
  repeat match goal with
         | |- context [(?a <=? ?b)%N] => destruct (N.leb_spec a b)
         | |- context [(?a =? ?b)%N] => destruct (N.eqb_spec a b)
         end; simpl;
    repeat case_decide; try reflexivity; try lia.
Qed.

(** X6. On an object whose keys stay distinct once relabelled,
    [upperFirst] returns an object with one property per property, in the
    same order: the key with its first code unit replaced by its upper
    case (the letters a to z and the accented letters of Latin-1 moved 32
    places down, "SS" for the sharp s, U+039C and U+0178 for the micro
    sign and the y with diaeresis, every other unit kept) and the value
    relabelled in turn, except that the value of [customData] is filed
    under [CustomData] as it is. *)
Theorem upperFirst_object_entrywise props out :
  NoDup (map (fun kv => wireKey (fst kv)) props) ->
  upperFirst (VObject props) = Ok out ->
  exists entries,
    out = VObject entries /\
    Forall2 (fun kv kv' =>
               (if String.eqb (fst kv) "customData"
                then fst kv' = keyOf "CustomData" /\ snd kv' = widen (snd kv)
                else upperFirst (snd kv) = Ok (snd kv') /\
                     match fst kv with
                     | EmptyString => fst kv' = []
                     | String c rest =>
                         let n := N_of_ascii c in
                         fst kv' =
                           (if decide (97 <= n <= 122 \/ (224 <= n <= 254 /\ n <> 247))%N
                            then [n - 32]%N
                            else if decide (n = 181%N) then [924%N]
                            else if decide (n = 223%N) then keyOf "SS"
                            else if decide (n = 255%N) then [376%N]
                            else [n]) ++ keyOf rest
                     end)) props entries.
Proof.
  intros Hnd H. simpl in H.
  destruct (reduceEntries upperFirst props []) as [all|e] eqn:E; [|discriminate].
  inversion H; subst.
  destruct (reduceEntries_distinct upperFirst props [] all Hnd E) as (out' & -> & HF).
  exists out'. split; [reflexivity|].
  eapply Forall2_impl; [exact HF|]. intros [k v] [k' v'] [Hk Hv]. simpl in *.
  unfold wireKey in Hk. destruct (String.eqb k "customData"); [auto|].
  split; [exact Hv|]. destruct k as [|c rest]; [exact Hk|].
  cbv zeta. rewrite Hk. simpl. now rewrite <- toUpperCase1_table.
Qed.

(** X7. [upperFirst] throws on [null], on an object with a [null]
    property other than [customData], and on an array with a [null]
    item; a [null] under [customData] goes through. *)
Theorem upperFirst_null_throws :
  (exists e, upperFirst VNull = Throw e)
  /\ (forall props k,
        (k, VNull) ∈ props -> k <> "customData" ->
        exists e, upperFirst (VObject props) = Throw e)
  /\ (forall items, VNull ∈ items -> exists e, upperFirst (VArray items) = Throw e)
  /\ upperFirst (VObject [("customData", VNull)])
     = Ok (VObject [(keyOf "CustomData", VNull)]).
Proof.
  split; [simpl; eauto|]. split; [|split; [|reflexivity]].
  - intros props k Hin Hk.
    destruct (reduceEntries_throws upperFirst props [] k VNull
                (TypeError "Cannot convert undefined or null to object") Hin)
      as [e He]; [|reflexivity|].
    + apply String.eqb_neq, Hk.
    + simpl. rewrite He. eauto.
  - intros items Hin. simpl.
    assert (H : exists e, mapAll upperFirst items = Throw e).
    { induction items as [|x xs IH]; [now apply elem_of_nil in Hin|].
      simpl. apply elem_of_cons in Hin as [<-|Hin]; [simpl; eauto|].
      destruct (upperFirst x); [|eauto].
      destruct (IH Hin) as [e ->]. eauto. }
    destruct H as [e ->]. eauto.
Qed.

(** On an array [upperFirst] relabels item by item. *)
Lemma upperFirst_array items out :
  upperFirst (VArray items) = Ok out ->
  exists ys, out = VArray ys /\ Forall2 (fun x y => upperFirst x = Ok y) items ys.
Proof.
  simpl. destruct (mapAll upperFirst items) as [ys|e] eqn:E; [|discriminate].
  intros H; inversion H; subst. exists ys. split; [reflexivity|].
  now apply mapAll_Forall2.
Qed.

Lemma upperFirst_user_agrees (u : User) :
  upperFirst (jsOfUser u) = Ok (jsOfWireUser (upperFirst_user u)).
Proof.
  destruct u as [[i|] [a|] [f|] [n|] [e|]]; reflexivity.
Qed.

Lemma upperFirst_breadcrumbs_agrees (s : Store) (bs : list Breadcrumb) :
  upperFirst (VArray (map (jsOfBreadcrumb s) bs))
  = Ok (VArray (map (jsOfWireBreadcrumb s) (upperFirst_breadcrumbs bs))).
Proof.
  assert (H : mapAll upperFirst (map (jsOfBreadcrumb s) bs)
              = Ok (map (jsOfWireBreadcrumb s) (upperFirst_breadcrumbs bs))).
  { induction bs as [|b bs IH]; [reflexivity|].
    cbn [map mapAll upperFirst_breadcrumbs]. unfold upperFirst_breadcrumbs in IH.
    change (upperFirst (jsOfBreadcrumb s b))
      with (Ok (jsOfWireBreadcrumb s (upperFirst_breadcrumb b))).
    fold (mapAll upperFirst). rewrite IH. reflexivity. }
  simpl. fold (mapAll upperFirst). rewrite H. reflexivity.
Qed.

(** X8. On the session's user and on its breadcrumb array, whatever the
    store holds, [upperFirst] returns what the payload builder's typed
    relabelling returns: it never throws there, and a breadcrumb's custom
    data is handed over untouched. *)
Theorem upperFirst_agrees_on_session (s : Store) (u : User) (bs : list Breadcrumb) :
  upperFirst (jsOfUser u) = Ok (jsOfWireUser (upperFirst_user u))
  /\ upperFirst (VArray (map (jsOfBreadcrumb s) bs))
     = Ok (VArray (map (jsOfWireBreadcrumb s) (upperFirst_breadcrumbs bs))).
Proof. split; [apply upperFirst_user_agrees|apply upperFirst_breadcrumbs_agrees]. Qed.

(* ===================================================================== *)
(** ** The session operations one by one *)
(* ===================================================================== *)





(** X10. [updateCustomData] leaves in the session what the updater makes
    of the session's custom data, tells the native reporter that data when
    it is active and nobody otherwise, and touches neither tags, trail nor
    user. An updater that returns a new object leaves the object the
    session referred to as it was; one that changes its argument changes
    that object. *)
Theorem updateCustomData_replaces host u st :
  (customData (curSession st) < length (objs (store st)))%nat ->
  linked host st ->
  let st' := snd (updateCustomData host u st) in
  let old := customData (curSession st) in
  sessionData st' = updaterFunction u (sessionData st)
  /\ read_obj (store st') old
     = match u with
       | Returns _ => sessionData st
       | Mutates f => f (sessionData st)
       end
  /\ calls st' = calls st ++
       (if canEnableNative st
        then [Rg4rn_setCustomData (updaterFunction u (sessionData st))] else [])
  /\ sessionTags st' = sessionTags st /\ sessionTrail st' = sessionTrail st
  /\ user (curSession st') = user (curSession st).
Proof.
  intros Halloc Hlinked.
  destruct (lookup_lt_is_Some_2 _ _ Halloc) as [x Hx].
  assert (Hclone : forall d : CustomData, clone d = d).
  { intros d. unfold clone. apply map_fmap_id. }
  unfold updateCustomData, bind, get, new_Object, modify, when, Rg4rn_call, log,
    modify, throw, ret, sessionData, sessionTags, sessionTrail, read_obj, read_set, read_arr.
  cbn [fst snd].
  destruct u as [f|f]; cbn [fst snd updaterFunction];
    (destruct (canEnableNative st) eqn:Hn;
     [destruct (Hlinked Hn) as [b Hb]; rewrite Hb|]); simpl; rewrite ?Hn; simpl;
    rewrite ?Hb; simpl;
    rewrite ?list_lookup_middle by reflexivity;
    rewrite ?list_lookup_alter_eq, ?Hx; simpl;
    rewrite ?lookup_app_l by exact Halloc; rewrite ?Hx; simpl;
    rewrite ?Hclone, ?app_nil_r; repeat split; reflexivity.
Qed.

Lemma lookup_snoc_empty (h : list CustomData) (l : nat) :
  default ∅ ((h ++ [∅]) !! l) = default ∅ (h !! l).
Proof.
  destruct (decide (l < length h)%nat) as [Hlt|Hge].
  - now rewrite lookup_app_l.
  - rewrite lookup_app_r by lia. rewrite (lookup_ge_None_2 h l) by lia.
    destruct (l - length h)%nat; reflexivity.
Qed.

(** X11. [recordBreadcrumb] appends exactly one breadcrumb to the trail:
    the message, the time read from the clock, and the details, with an
    empty category, level "info" and custom data that is a new, empty
    object where the details say nothing; custom data given in the
    details is the caller's object itself, not a copy. The native
    reporter is handed that breadcrumb when it is active; tags, custom
    data and user stay, and so does every object that was there. *)
Theorem recordBreadcrumb_appends host message_ details st :
  (breadcrumbs (curSession st) < length (arrs (store st)))%nat ->
  linked host st ->
  let st' := snd (recordBreadcrumb host message_ details st) in
  let new_ := length (objs (store st)) in
  let b := mkBreadcrumb (default new_ (details ≫= o_customData))
                        (default "" (details ≫= o_category))
                        (default "info" (details ≫= o_level))
                        message_ (Date_getTime host (dates st)) in
  sessionTrail st' = sessionTrail st ++ [b]
  /\ read_obj (store st') new_ = ∅
  /\ (forall l, read_obj (store st') l = read_obj (store st) l)
  /\ calls st' = calls st ++ (if canEnableNative st then [Rg4rn_recordBreadcrumb b] else [])
  /\ sessionTags st' = sessionTags st /\ sessionData st' = sessionData st
  /\ curSession st' = curSession st.
Proof.
  intros Halloc Hlinked.
  destruct (lookup_lt_is_Some_2 _ _ Halloc) as [x Hx].
  unfold recordBreadcrumb, bind, get, new_Object, new_Date, modify, when, Rg4rn_call, log,
    modify, throw, ret, sessionData, sessionTags, sessionTrail, read_obj, read_set, read_arr.
  cbn [fst snd].
  destruct (canEnableNative st) eqn:Hn;
    [destruct (Hlinked Hn) as [b Hb]|]; simpl; rewrite ?Hn; simpl; rewrite ?Hb; simpl;
    rewrite ?list_lookup_alter_eq, ?Hx; simpl; rewrite ?app_nil_r;
    rewrite ?lookup_snoc_empty;
    repeat split; try reflexivity; try (intros l; apply lookup_snoc_empty);
    rewrite lookup_ge_None_2 by lia; reflexivity.
Qed.

(** X12. [clearSession] puts a new session in place: the tag
    "React Native" alone, no custom data, no breadcrumb, the user
    "anonymous". It calls nobody, the native reporter included, and
    leaves every set and array of the store as it was; a breadcrumb
    recorded next starts a trail of length one. *)
Theorem clearSession_fresh host st :
  let st' := snd (clearSession st) in
  sessionTags st' = ["React Native"]
  /\ sessionData st' = ∅
  /\ sessionTrail st' = []
  /\ user (curSession st') = mkUser (Some "anonymous") None None None None
  /\ calls st' = calls st
  /\ (forall l, (l < length (sets (store st)))%nat ->
                read_set (store st') l = read_set (store st) l)
  /\ (forall l, (l < length (arrs (store st)))%nat ->
                read_arr (store st') l = read_arr (store st) l)
  /\ (forall m d, length (sessionTrail (snd (recordBreadcrumb host m d st'))) = 1%nat).
Proof.
  unfold clearSession, getCleanSession, bind, new_Set, new_Object, new_Array, ret, modify.
  cbn [fst snd].
  unfold sessionTags, sessionData, sessionTrail, read_set, read_obj, read_arr.
  simpl. rewrite !list_lookup_middle by reflexivity. simpl.
  repeat split; try reflexivity.
  - intros l Hl. now rewrite lookup_app_l.
  - intros l Hl. now rewrite lookup_app_l.
  - intros m d.
    unfold recordBreadcrumb, bind, get, new_Date, modify, when, Rg4rn_call, log,
      modify, throw, ret. cbn [fst snd]. simpl.
    destruct (canEnableNative st); [destruct (Rg4rn host)|]; simpl;
      rewrite list_lookup_alter_eq, list_lookup_middle by reflexivity; reflexivity.
Qed.

(** X13. [addTag] returns normally, hands the native reporter the whole
    tag set, once, when the reporter is active, calls nobody otherwise,
    and touches neither custom data, trail nor the session's references. *)
Theorem addTag_propagates host ts st :
  linked host st ->
  let st' := snd (addTag host ts st) in
  fst (addTag host ts st) = Ok tt
  /\ calls st' = calls st ++
       (if canEnableNative st then [Rg4rn_setTags (sessionTags st')] else [])
  /\ sessionData st' = sessionData st /\ sessionTrail st' = sessionTrail st
  /\ curSession st' = curSession st.
Proof.
  intros Hlinked.
  unfold addTag, bind, get, modify, when, Rg4rn_call, log, modify, throw, ret,
    sessionData, sessionTags, sessionTrail.
  cbn [fst snd].
  destruct (canEnableNative st) eqn:Hn;
    [destruct (Hlinked Hn) as [b Hb]|]; simpl; rewrite ?Hn; simpl; rewrite ?Hb; simpl;
    rewrite ?app_nil_r; repeat split; reflexivity.
Qed.

(** X14. With the native reporter active, [setUser] of a user object
    replaces the session's user whole: each field is the object's, or its
    default where the object has none (false for [isAnonymous], the empty
    string for the names and the email, nothing for the identifier). The
    reporter is handed the same user and no identifier is drawn. *)
Theorem setUser_object_overwrites host u st :
  canEnableNative st = true ->
  is_Some (Rg4rn host) ->
  let st' := snd (setUser host (UObject u) st) in
  let installed :=
    mkUser (identifier u)
           (Some (default false (isAnonymous u)))
           (Some (default "" (firstName u)))
           (Some (default "" (fullName u)))
           (Some (default "" (email u))) in
  user (curSession st') = installed
  /\ calls st' = calls st ++ [Rg4rn_setUser installed]
  /\ uuids st' = uuids st
  /\ store st' = store st.
Proof.
  intros Hn [b Hb].
  unfold setUser, bind, get, modify, when, log, modify, ret. cbn [fst snd].
  rewrite Hn, Hb. simpl.
  destruct u as [[i|] [a|] [f|] [n|] [e|]]; simpl; repeat split; reflexivity.
Qed.

(* ===================================================================== *)
(** ** The payload builder, init and the installed handler *)
(* ===================================================================== *)

(** X15. [generatePayload] returns a payload exactly when the options
    have been assigned and, on Android, the native module is there;
    otherwise it throws. *)
Theorem generatePayload_returns_iff host err frames sess st :
  (exists p st', generatePayload host err frames sess st = (Ok p, st'))
  <-> envReady host /\ is_Some (GlobalOptions st).
Proof.
  unfold envReady. split.
  - intros (p & st' & H).
    unfold generatePayload, environmentDetails, assemblePayload, bind, new_Date, get,
      ret, throw, log, modify in H.
    destruct (String.eqb (Platform_OS host) "android") eqn:Hos.
    + destruct (Rg4rn host) as [b|]; [|discriminate].
      split; [eauto|].
      destruct (getEnvironmentInfo b); simpl in H;
        destruct (GlobalOptions st); try discriminate; eauto.
    + apply String.eqb_neq in Hos. split; [intros; contradiction|].
      simpl in H. destruct (GlobalOptions st); try discriminate; eauto.
  - intros [Henv [opts Hopts]].
    destruct (generatePayload_ok host err frames sess st opts Henv Hopts)
      as (env & extra & _ & _ & H).
    eauto.
Qed.

(** X16. Whether it returns or throws, [generatePayload] changes neither
    the store, the session, the options nor [canEnableNative], draws no
    identifier, and calls at most the native environment lookup, which it
    never calls off Android. *)
Theorem generatePayload_footprint host err frames sess st :
  let st' := snd (generatePayload host err frames sess st) in
  store st' = store st
  /\ curSession st' = curSession st
  /\ GlobalOptions st' = GlobalOptions st
  /\ canEnableNative st' = canEnableNative st
  /\ uuids st' = uuids st
  /\ (calls st' = calls st \/ calls st' = calls st ++ [Rg4rn_getEnvironmentInfo])
  /\ (Platform_OS host <> "android" -> calls st' = calls st).
Proof.
  unfold generatePayload, environmentDetails, assemblePayload, bind, new_Date, get,
    ret, throw, log, modify.
  destruct (String.eqb (Platform_OS host) "android") eqn:Hos.
  - apply String.eqb_eq in Hos.
    destruct (Rg4rn host) as [b|]; [destruct (getEnvironmentInfo b)|]; simpl;
      destruct (GlobalOptions st) eqn:E; simpl;
      repeat match goal with |- _ /\ _ => split end;
      try reflexivity; try (intros Hne; contradiction); auto.
  - simpl. destruct (GlobalOptions st) eqn:E; simpl;
      repeat match goal with |- _ /\ _ => split end; auto.
Qed.

(** X17. A payload that [generatePayload] returns has a version that is
    not empty, one stack frame per frame given, none with an empty method
    name, an environment with a UtcOffset, the tags and the breadcrumbs of
    the session it was given, that session's custom-data object, and the
    first reading of the clock as its time. *)
Theorem generatePayload_fills_defaults host err frames sess st p st' :
  generatePayload host err frames sess st = (Ok p, st') ->
  Version (Details_ p) <> ""
  /\ length (StackTrace (Error (Details_ p))) = length frames
  /\ Forall (fun f => MethodName f <> "") (StackTrace (Error (Details_ p)))
  /\ is_Some (Environment (Details_ p) !! "UtcOffset")
  /\ Tags (Details_ p) = read_set (store st) (tags sess)
  /\ UserCustomData (Details_ p) = customData sess
  /\ map Timestamp (Breadcrumbs (Details_ p)) = map timestamp (read_arr (store st) (breadcrumbs sess))
  /\ OccurredOn p = Date_getTime host (dates st).
Proof.
  intros H.
  assert (Hp : exists env opts,
             p = payloadLiteral host err frames sess env
                   (Date_getTime host (dates st)) (store st) opts).
  { unfold generatePayload, environmentDetails, assemblePayload, bind, new_Date, get,
      ret, throw, log, modify in H.
    destruct (String.eqb _ _);
      [destruct (Rg4rn host) as [b|]; [destruct (getEnvironmentInfo b)|]|];
      simpl in H; try discriminate;
      destruct (GlobalOptions st); simpl in H; inversion H; eauto. }
  destruct Hp as (env & opts & ->). unfold payloadLiteral; simpl.
  repeat split.
  - unfold orElse. destruct (version opts) as [[|c v]|]; simpl; discriminate.
  - now rewrite length_map.
  - apply Forall_forall. intros f Hf. apply list_elem_of_fmap in Hf as (fr & -> & _).
    simpl. unfold orElse. destruct (methodName fr); simpl; discriminate.
  - destruct (env !! "UtcOffset") as [x|] eqn:E.
    + exists x. apply lookup_union_Some_l, E.
    + eexists. rewrite lookup_union_r by exact E. apply lookup_singleton_eq.
  - unfold upperFirst_breadcrumbs. rewrite map_map. reflexivity.
Qed.





(** X19. [init] assigns the options in every case. When it returns true
    it has started the native side if [canEnableNative] holds, and has
    scheduled the flush of the cached reports otherwise: one of the two,
    never both, and nothing is logged. The native side is started with the
    API key and the version of the stored options, the empty string
    standing for a version left out, and with the real-user-monitoring
    setup, made from the network-monitoring switch, the ignored URLs, the
    live session and the API key, when [enableRUM] is on, with [null]
    when it is not. When it returns false the native side was initialised
    already: "Already initialized" is logged, nothing is started and
    nothing flushed. When it throws, RUM was asked for without a usable
    native module, and nothing was started, flushed or logged. The
    session is left alone in every case. *)
Theorem init_outcome host options st :
  let st' := snd (init host options st) in
  let key := default "" (apiKey options) in
  exists opts,
    GlobalOptions st' = Some opts
    /\ curSession st' = curSession st
    /\ store st' = store st
    /\ match fst (init host options st) with
       | Ok true =>
           calls st' = calls st ++
             [if canEnableNative st'
              then Rg4rn_init (apiKey opts) (orElse (version opts) "")
                     (if default false (enableRUM opts)
                      then Some (mkRumSetup (enableNetworkMonitoring opts) (ignoreURLs opts)
                                            (curSession st) (apiKey opts))
                      else None)
              else transport_sendCachedReports key]
       | Ok false =>
           canEnableNative st' = true
           /\ calls st' = calls st ++ [console_log "Already initialized"]
       | Throw _ =>
           enableRUM options = Some true /\ canEnableNative st' = false
           /\ calls st' = calls st
       end.
Proof.
  unfold init, bind, modify, when, log, Rg4rn_call, ret, throw, modify, get.
  cbn [fst snd].
  destruct (Rg4rn host) as [[f i info]|] eqn:Hr; cbn [init_is_function hasInitialized];
    destruct (enableNative options) as [[|]|], (enableRUM options) as [[|]|],
      (apiKey options) as [k|];
    try destruct f; try destruct i; cbn; rewrite ?Hr; cbn;
    eexists; (split; [reflexivity|]); rewrite ?app_nil_r; auto.
Qed.

Lemma assignAll_throws strict ws p :
  frozen p = true ->
  throwsOnFrozen strict ws = true ->
  exists e, assignAll strict ws p = Throw e.
Proof.
  unfold throwsOnFrozen. intros F H. apply andb_true_iff in H as [-> H].
  revert p F. induction ws as [|w ws IH]; intros p F; [discriminate|].
  simpl in H. simpl.
  destruct (ownProperty w) eqn:Ew.
  - destruct w; try discriminate; simpl; rewrite F; eauto.
  - simpl in H. destruct (assign true w p) as [q|e] eqn:Eq; [|eauto].
    apply IH; [exact H|]. rewrite (assign_frozen _ _ _ _ Eq). exact F.
Qed.

(** X20. When the before-send handler throws, here by assigning in strict
    code to a property of the frozen payload, [processUnhandledError]
    throws in turn: the handler was called once and nothing is sent. *)
Theorem throwing_handler_stops_delivery host st e fatal opts h :
  truthy (stack e) = true ->
  GlobalOptions st = Some opts ->
  onBeforeSend opts = Some h ->
  envReady host ->
  (forall j, throwsOnFrozen (strictMode h) (fst (handler h j)) = true) ->
  exists ex new,
    fst (processUnhandledError host (Some e) fatal st) = Throw ex
    /\ calls (snd (processUnhandledError host (Some e) fatal st)) = calls st ++ new
    /\ sends new = []
    /\ length (handed new) = 1%nat.
Proof.
  intros Hstack Hopts Hh Henv Hthrows.
  destruct (tagFatal_vars fatal st) as (Hs & Ho & Hn & Hc & Hd).
  destruct (generatePayload_ok host (Some e) (stackOf host e)
              (curSession (tagFatal fatal st)) (tagFatal fatal st) opts Henv)
    as (env & extra & Hsends & Hhanded & Hgen).
  { congruence. }
  destruct (processUnhandledError host (Some e) fatal st) as [r st'] eqn:Hres.
  cbn [fst snd].
  unfold processUnhandledError in Hres. rewrite Hstack in Hres.
  assert (Hstep : forall k : unit -> M unit,
            bind (when fatal (modify (fun st0 =>
              set_store (set_sets (alter (Set_add "Fatal") (tags (curSession st0)))) st0))) k st
            = k tt (tagFatal fatal st)).
  { intros k. destruct fatal; reflexivity. }
  rewrite Hstep in Hres. clear Hstep.
  set (st1 := tagFatal fatal st) in *.
  unfold bind at 1 in Hres. unfold get at 1 in Hres.
  unfold bind at 1 in Hres. rewrite Hgen in Hres.
  set (p := payloadLiteral _ _ _ _ _ _ _ _) in *.
  set (st2 := advance extra 2 st1) in *.
  unfold bind at 1, get at 1 in Hres.
  assert (Ho2 : GlobalOptions st2 = Some opts) by (subst st2; simpl; congruence).
  rewrite Ho2, Hh in Hres.
  assert (Hc2 : calls st2 = calls st ++ extra) by (subst st2; simpl; congruence).
  unfold bind at 1 in Hres. unfold bind at 1 in Hres. unfold call_onBeforeSend in Hres.
  unfold bind at 1, get at 1 in Hres. unfold bind at 1, log at 1, modify at 1 in Hres.
  set (j := JSON_stringify (store st2) _) in *.
  specialize (Hthrows j).
  destruct (handler h j) as [ws verdict] eqn:Ej. cbn [fst] in Hthrows.
  destruct (assignAll_throws (strictMode h) ws
              (Object_freeze {| frozen := false; value := p |}) eq_refl Hthrows)
    as [ex Hex].
  rewrite Hex in Hres. unfold throw in Hres. inversion Hres; subst r st'; clear Hres.
  exists ex, (extra ++ [onBeforeSend_call j]).
  change (calls (add_call ?c ?s)) with (calls s ++ [c]).
  rewrite Hc2, <- app_assoc, sends_app, handed_app, Hsends, Hhanded.
  repeat split.
Qed.

(** X21. On Android without the native module, the installed handler
    throws on every error that has a stack: nothing is sent, the handler
    installed before is not called, and the tag of a fatal error is in the
    session all the same. *)
Theorem globalHandler_without_native_module host prev e fatal st :
  Platform_OS host = "android" ->
  Rg4rn host = None ->
  truthy (stack e) = true ->
  globalHandler host prev (Some e) fatal st
  = (Throw (TypeError "Rg4rn is undefined"), tagFatal fatal st).
Proof.
  intros Hos Hr Hstack.
  unfold globalHandler, processUnhandledError. rewrite Hstack.
  unfold generatePayload, environmentDetails. apply String.eqb_eq in Hos. rewrite Hos, Hr.
  destruct fatal; reflexivity.
Qed.

(** X22. With no before-send handler, the installed handler makes one
    transmission attempt and then calls the handler installed before,
    with the same error and flag, on the state the processing left. *)
Theorem globalHandler_reports_then_chains host prev e fatal st opts :
  truthy (stack e) = true ->
  GlobalOptions st = Some opts ->
  onBeforeSend opts = None ->
  envReady host ->
  linked host st ->
  exists st1 new,
    processUnhandledError host (Some e) fatal st = (Ok tt, st1)
    /\ calls st1 = calls st ++ new
    /\ length (sends new) = 1%nat
    /\ globalHandler host (Some prev) (Some e) fatal st = prev (Some e) fatal st1.
Proof.
  intros Hstack Hopts Hh Henv Hlinked.
  destruct (tagFatal_vars fatal st) as (Hs & Ho & Hn & Hc & Hd).
  destruct (generatePayload_ok host (Some e) (stackOf host e)
              (curSession (tagFatal fatal st)) (tagFatal fatal st) opts Henv)
    as (env & extra & Hsends & Hhanded & Hgen).
  { congruence. }
  assert (Hres : exists st1 new,
             processUnhandledError host (Some e) fatal st = (Ok tt, st1)
             /\ calls st1 = calls st ++ new /\ length (sends new) = 1%nat).
  { unfold processUnhandledError. rewrite Hstack.
    assert (Hstep : forall k : unit -> M unit,
              bind (when fatal (modify (fun st0 =>
                set_store (set_sets (alter (Set_add "Fatal") (tags (curSession st0)))) st0))) k st
              = k tt (tagFatal fatal st)).
    { intros k. destruct fatal; reflexivity. }
    rewrite Hstep. clear Hstep.
    set (st1 := tagFatal fatal st) in *.
    unfold bind at 1. unfold get at 1.
    unfold bind at 1. rewrite Hgen.
    set (p := payloadLiteral _ _ _ _ _ _ _ _) in *.
    set (st2 := advance extra 2 st1) in *.
    unfold bind at 1, get at 1.
    assert (Ho2 : GlobalOptions st2 = Some opts) by (subst st2; simpl; congruence).
    rewrite Ho2, Hh.
    unfold bind at 1, ret at 1.
    assert (Hl3 : linked host st2).
    { intros H. apply Hlinked. rewrite <- Hn. exact H. }
    rewrite (deliver_calls host opts _ _ Hl3).
    eexists _, (extra ++ [route st2 (JSON_stringify (store st2) p) (apiKey opts)]).
    split; [reflexivity|].
    change (calls (add_call ?c ?s)) with (calls s ++ [c]).
    assert (Hc2 : calls st2 = calls st ++ extra) by (subst st2; simpl; congruence).
    rewrite Hc2, <- app_assoc, sends_app, Hsends, sends_route. auto. }
  destruct Hres as (st1 & new & Hp & Hcalls & Hlen).
  exists st1, new. repeat split; auto.
  unfold globalHandler, bind. rewrite Hp. reflexivity.
Qed.

(* ===================================================================== *)
(** ** sdk/src/RaygunClient.ts after init *)
(* ===================================================================== *)

Section SdkFacts.
Import Sdk SdkWords.

Lemma Sdk_crashReportingAvailable_spec calledFrom st :
  consistent st ->
  crashReportingAvailable calledFrom st
  = (Ok (crashReportingOn st),
     if crashReportingOn st then st
     else add_call (refusal st calledFrom "Crash Reporting" "enableCrashReporting") st).
Proof.
  unfold consistent, crashReportingAvailable, crashReportingOn, refusal, option_flag,
    call, bind, get, modify, ret, throw.
  destruct st as [cr rum o ini tg u cs]; simpl. intros H.
  destruct ini; simpl; [|reflexivity].
  destruct cr; simpl; [|reflexivity].
  destruct o as [o|]; [|destruct H as [x Hx]; [auto|discriminate]].
  simpl. destruct (enableCrashReporting o) as [[|]|]; reflexivity.
Qed.

Lemma Sdk_realUserMonitoringAvailable_spec calledFrom st :
  consistent st ->
  realUserMonitoringAvailable calledFrom st
  = (Ok (realUserMonitoringOn st),
     if realUserMonitoringOn st then st
     else add_call (refusal st calledFrom "Real User Monitoring"
                            "enableRealUserMonitoring") st).
Proof.
  unfold consistent, realUserMonitoringAvailable, realUserMonitoringOn, refusal,
    option_flag, call, bind, get, modify, ret, throw.
  destruct st as [cr rum o ini tg u cs]; simpl. intros H.
  destruct ini; simpl; [|reflexivity].
  destruct rum; simpl; [|reflexivity].
  destruct o as [o|]; [|destruct H as [x Hx]; [auto|discriminate]].
  simpl. destruct (enableRealUserMonitoring o) as [[|]|]; reflexivity.
Qed.

(** X23. [recordBreadcrumb], [addCustomData], [updateCustomData] and
    [setMaxReportsStoredOnDevice] hand their arguments to the crash
    reporter, once and unchanged, when crash reporting is on, and
    [sendRUMTimingEvent] to the monitor when monitoring is on; otherwise
    each logs one warning, which tells whether [init] is missing or the
    subsystem is off, and does nothing else. None of them throws. *)
Theorem Sdk_guarded_operations_forward_or_refuse st :
  consistent st ->
  let answer (calledFrom : string) (c : Sdk.Call) :=
    (Ok tt, add_call (if crashReportingOn st then c
                      else refusal st calledFrom "Crash Reporting"
                                   "enableCrashReporting") st) in
  (forall m d, recordBreadcrumb m d st
               = answer "recordBreadcrumb" (crashReporter_recordBreadcrumb m d))
  /\ (forall d, addCustomData d st
                = answer "addCustomData" (crashReporter_addCustomData d))
  /\ (forall u, updateCustomData u st
                = answer "updateCustomData" (crashReporter_updateCustomData u))
  /\ (forall n, setMaxReportsStoredOnDevice n st
                = answer "setCrashReportCacheSize"
                         (crashReporter_setMaxReportsStoredOnDevice n))
  /\ (forall t n d, sendRUMTimingEvent t n d st
        = (Ok tt, add_call (if realUserMonitoringOn st
                            then realUserMonitor_sendCustomRUMEvent t n d
                            else refusal st "sendRUMTimingEvent" "Real User Monitoring"
                                         "enableRealUserMonitoring") st)).
Proof.
  intros Hc. cbv zeta.
  unfold recordBreadcrumb, addCustomData, updateCustomData, setMaxReportsStoredOnDevice,
    sendRUMTimingEvent.
  repeat split; intros; unfold bind;
    rewrite ?Sdk_crashReportingAvailable_spec, ?Sdk_realUserMonitoringAvailable_spec by exact Hc;
    try (destruct (crashReportingOn st)); try (destruct (realUserMonitoringOn st));
    reflexivity.
Qed.

(** X24. The first [init] returns true, stores the options as given and
    marks the module initialised, with crash reporting on exactly when the
    option asks for it; the tags and the user are untouched. Every later
    [init] returns false and only logs. *)
Theorem Sdk_init_once o st :
  initialized st = false ->
  let st1 := snd (init o st) in
  fst (init o st) = Ok true
  /\ initialized st1 = true
  /\ options st1 = Some o
  /\ crashReportingOn st1 = default false (enableCrashReporting o)
  /\ consistent st1
  /\ currentTags st1 = currentTags st /\ currentUser st1 = currentUser st
  /\ (forall o', init o' st1 = (Ok false, add_call (log "Already initialized") st1)).
Proof.
  intros Hi. destruct st as [cr rum op ini tg u cs]; simpl in Hi; subst ini.
  unfold init, crashReportingOn, consistent, bind, get, modify, when, call, modify, ret.
  cbn [fst snd initialized].
  destruct (enableCrashReporting o) as [[|]|] eqn:E1,
    (disableNativeCrashReporting o) as [[|]|] eqn:E2,
    (enableRealUserMonitoring o) as [[|]|] eqn:E3, cr; simpl; rewrite ?E1; simpl;
    repeat split; eauto.
Qed.

Lemma Sdk_crashReportingOn_add_call c st :
  crashReportingOn (add_call c st) = crashReportingOn st.
Proof. reflexivity. Qed.

(** [addTag] once the options are there, as one step. *)
Lemma Sdk_addTag_run ts st o :
  options st = Some o ->
  let all := Set_addAll ts (currentTags st) in
  addTag ts st
  = (Ok tt,
     mkState (crashReporter st) (realUserMonitor st) (options st) (initialized st)
             all (currentUser st) (calls st ++ tagCalls st o ts all)).
Proof.
  intros Ho. assert (Hc : forall t, consistent (set_currentTags t st)).
  { intros t _. simpl. rewrite Ho. eauto. }
  unfold addTag, bind, modify at 1. cbn [fst snd].
  rewrite Sdk_crashReportingAvailable_spec by apply Hc.
  unfold tagCalls, option_flag, bind, get, when, call, modify, ret.
  change (crashReportingOn (set_currentTags ?t st)) with (crashReportingOn st).
  destruct st as [cr rum op ini tg u cs]; simpl in *; subst op.
  destruct (crashReportingOn _) eqn:E; simpl;
    destruct (disableNativeCrashReporting o) as [[|]|]; simpl;
    unfold add_call, set_currentTags; simpl; rewrite <- ?app_assoc; reflexivity.
Qed.

(** X25. Once [init] has stored the options, [addTag] returns normally:
    the tags are added to the session, the crash reporter is handed the
    new tags when crash reporting is on (a warning is logged otherwise),
    and the native bridge is then handed the whole tag set unless native
    crash reporting is disabled, also when crash reporting is off. The
    options, the user and the subsystems are left as they were. *)
Theorem Sdk_addTag_after_init ts st o :
  options st = Some o ->
  let all := Set_addAll ts (currentTags st) in
  let st' := snd (addTag ts st) in
  fst (addTag ts st) = Ok tt
  /\ currentTags st' = all
  /\ calls st' = calls st ++
       [if crashReportingOn st then crashReporter_addTags ts
        else refusal st "addTags" "Crash Reporting" "enableCrashReporting"] ++
       (if default false (disableNativeCrashReporting o) then [] else [bridge_setTags all])
  /\ options st' = options st /\ currentUser st' = currentUser st
  /\ crashReportingOn st' = crashReportingOn st
  /\ realUserMonitoringOn st' = realUserMonitoringOn st.
Proof.
  intros Ho. cbv zeta. rewrite (Sdk_addTag_run ts st o Ho). cbv zeta.
  repeat split.
Qed.

(** After the availability test, on a state where crash reporting is on. *)
Lemma Sdk_sendError_on e ps st :
  consistent st -> crashReportingOn st = true ->
  sendError e ps st =
  (let '(customData_, tags_) :=
     match ps with
     | [P_array ts] => (None, Some (P_array ts))
     | _ => (ps !! 0%nat, ps !! 1%nat)
     end in
   when (truthyParam customData_)
        (match customData_ with Some d => addCustomData d | None => ret tt end) ;;;
   when (negb (length (spreadTags tags_) =? 0)%nat) (addTag (spreadTags tags_)) ;;;
   call (crashReporter_processUnhandledError e)) st.
Proof.
  intros Hc Hon. unfold sendError, bind at 1.
  rewrite Sdk_crashReportingAvailable_spec by exact Hc. rewrite Hon. reflexivity.
Qed.

Lemma Sdk_addCustomData_on d st :
  consistent st -> crashReportingOn st = true ->
  addCustomData d st = (Ok tt, add_call (crashReporter_addCustomData d) st).
Proof.
  intros Hc Hon. unfold addCustomData, bind.
  rewrite Sdk_crashReportingAvailable_spec by exact Hc. rewrite Hon. reflexivity.
Qed.

(** The part of [sendError] after the custom data: the tags, then the error. *)
Lemma Sdk_sendError_tail e ts st o :
  options st = Some o -> crashReportingOn st = true ->
  let all := Set_addAll ts (currentTags st) in
  let st' := snd ((addTag ts ;;; call (crashReporter_processUnhandledError e)) st) in
  currentTags st' = all
  /\ calls st' = calls st ++ [crashReporter_addTags ts] ++
       (if default false (disableNativeCrashReporting o) then [] else [bridge_setTags all])
       ++ [crashReporter_processUnhandledError e].
Proof.
  intros Ho Hon. cbv zeta. unfold bind.
  rewrite (Sdk_addTag_run ts st o Ho). cbv zeta. unfold call, modify, tagCalls.
  cbn [fst snd]. rewrite Hon. split; [reflexivity|].
  simpl. rewrite <- !app_assoc. reflexivity.
Qed.

(** X26. How [sendError] reads what follows the error, crash reporting
    being on. Nothing: the error goes to the crash reporter. One array:
    its items are added as tags. An object and an array: custom data,
    then tags. Two strings: the first goes to the crash reporter as
    custom data, and the second is spread into its characters, each
    added as a tag. The error is handed over last in every case. *)
Theorem Sdk_sendError_parameters e st o :
  options st = Some o ->
  crashReportingOn st = true ->
  let bridge all :=
    if default false (disableNativeCrashReporting o) then [] else [bridge_setTags all] in
  let after (ps : list Param) := snd (sendError e ps st) in
  (calls (after []) = calls st ++ [crashReporter_processUnhandledError e])
  /\ (forall t ts,
        let all := Set_addAll (t :: ts) (currentTags st) in
        currentTags (after [P_array (t :: ts)]) = all
        /\ calls (after [P_array (t :: ts)])
           = calls st ++ [crashReporter_addTags (t :: ts)] ++ bridge all ++
             [crashReporter_processUnhandledError e])
  /\ (forall d t ts,
        let all := Set_addAll (t :: ts) (currentTags st) in
        currentTags (after [P_object d; P_array (t :: ts)]) = all
        /\ calls (after [P_object d; P_array (t :: ts)])
           = calls st ++ [crashReporter_addCustomData (P_object d)] ++
             [crashReporter_addTags (t :: ts)] ++ bridge all ++
             [crashReporter_processUnhandledError e])
  /\ (forall a s b t,
        let chars := map (fun c => String c EmptyString) (b :: list_ascii_of_string t) in
        let all := Set_addAll chars (currentTags st) in
        currentTags (after [P_string (String a s); P_string (String b t)]) = all
        /\ calls (after [P_string (String a s); P_string (String b t)])
           = calls st ++ [crashReporter_addCustomData (P_string (String a s))] ++
             [crashReporter_addTags chars] ++ bridge all ++
             [crashReporter_processUnhandledError e]).
Proof.
  intros Ho Hon.
  assert (Hc : consistent st) by (intros _; rewrite Ho; eauto).
  cbv zeta. split; [|split; [|split]].
  - rewrite Sdk_sendError_on by assumption. reflexivity.
  - intros t ts. rewrite Sdk_sendError_on by assumption.
    apply (Sdk_sendError_tail e (t :: ts) st o Ho Hon).
  - intros d t ts.
    assert (E : sendError e [P_object d; P_array (t :: ts)] st
                = (addTag (t :: ts) ;;; call (crashReporter_processUnhandledError e))
                    (add_call (crashReporter_addCustomData (P_object d)) st)).
    { rewrite Sdk_sendError_on by assumption.
      cbn [lookup list_lookup truthyParam spreadTags when length Nat.eqb negb].
      unfold bind at 1. rewrite Sdk_addCustomData_on by assumption. reflexivity. }
    rewrite E.
    destruct (Sdk_sendError_tail e (t :: ts) (add_call (crashReporter_addCustomData (P_object d)) st) o)
      as [H1 H2]; [exact Ho|exact Hon|].
    cbv zeta in H1, H2. rewrite H1, H2. split; [reflexivity|].
    simpl. rewrite <- !app_assoc. reflexivity.
  - intros a s b t.
    assert (E : sendError e [P_string (String a s); P_string (String b t)] st
                = (addTag (String b "" :: map (fun c => String c "") (list_ascii_of_string t)) ;;;
                   call (crashReporter_processUnhandledError e))
                    (add_call (crashReporter_addCustomData (P_string (String a s))) st)).
    { rewrite Sdk_sendError_on by assumption.
      cbn [lookup list_lookup truthyParam truthy spreadTags when length Nat.eqb negb
           list_ascii_of_string map].
      unfold bind at 1. rewrite Sdk_addCustomData_on by assumption. reflexivity. }
    rewrite E.
    destruct (Sdk_sendError_tail e
                (String b "" :: map (fun c => String c "") (list_ascii_of_string t))
                (add_call (crashReporter_addCustomData (P_string (String a s))) st) o)
      as [H1 H2]; [exact Ho|exact Hon|].
    cbv zeta in H1, H2. rewrite H1, H2. split; [reflexivity|].
    simpl. rewrite <- !app_assoc. reflexivity.
Qed.

End SdkFacts.

(* ===================================================================== *)
(** ** The further statements at the samples *)
(* ===================================================================== *)

Lemma noAddressAt_without_suffix_witness :
  noAddressAt Samples.queueFrame = Samples.queueFrame.
Proof. apply (noAddressAt_without_suffix Samples.queueFrame). reflexivity. Defined.

Lemma filterOutReactFrames_drops_witness :
  filterOutReactFrames Samples.queueFrame = false.
Proof.
  apply (filterOutReactFrames_drops Samples.queueFrame).
  right; right; right; left. exists "/data/app/MyApp.app/Libraries/". reflexivity.
Defined.

Lemma cleanFilePath_without_slash_witness :
  cleanFilePath [mkFrame (Some "index.js") "render" (Some 1) (Some 2);
                 mkFrame None "anonymous" None None]
  = [mkFrame (Some "index.js") "render" (Some 1) (Some 2);
     mkFrame None "anonymous" None None].
Proof.
  apply (cleanFilePath_without_slash
           [mkFrame (Some "index.js") "render" (Some 1) (Some 2);
            mkFrame None "anonymous" None None]).
  repeat constructor.
Defined.

Lemma upperFirst_object_entrywise_witness :
  exists entries,
    VObject [(keyOf "FirstName", VString "Ada");
             (keyOf "CustomData", VObject [(keyOf "k", VNull)])]
    = VObject entries
    /\ length entries = 2%nat.
Proof.
  destruct (upperFirst_object_entrywise
              [("firstName", VString "Ada"); ("customData", VObject [("k", VNull)])]
              (VObject [(keyOf "FirstName", VString "Ada");
                        (keyOf "CustomData", VObject [(keyOf "k", VNull)])]))
    as (entries & E & HF).
  - apply (bool_decide_unpack _). vm_compute. exact I.
  - reflexivity.
  - exists entries. split; [exact E|]. symmetry. exact (Forall2_length _ _ _ HF).
Defined.

Lemma upperFirst_null_throws_witness :
  exists e, upperFirst (VObject [("identifier", VString "bob"); ("firstName", VNull)])
            = Throw e.
Proof.
  apply (proj1 (proj2 upperFirst_null_throws)
           [("identifier", VString "bob"); ("firstName", VNull)] "firstName").
  - right. left.
  - discriminate.
Defined.


Lemma updateCustomData_replaces_witness :
  sessionData (snd (updateCustomData Samples.ios
                      (Returns (fun d => <[ "k" := JStr "v" ]> d)) Samples.ready))
  = <[ "k" := JStr "v" ]> (sessionData Samples.ready).
Proof.
  refine (proj1 (updateCustomData_replaces Samples.ios
                   (Returns (fun d => <[ "k" := JStr "v" ]> d)) Samples.ready _ _)).
  - vm_compute. lia.
  - intros _. eexists. reflexivity.
Defined.

Lemma recordBreadcrumb_appends_witness :
  sessionTrail (snd (recordBreadcrumb Samples.ios "tapped" None Samples.ready))
  = sessionTrail Samples.ready
    ++ [mkBreadcrumb (length (objs (store Samples.ready))) "" "info" "tapped"
          (Date_getTime Samples.ios (dates Samples.ready))].
Proof.
  refine (proj1 (recordBreadcrumb_appends Samples.ios "tapped" None Samples.ready _ _)).
  - vm_compute. lia.
  - intros _. eexists. reflexivity.
Defined.

Lemma clearSession_fresh_witness :
  read_set (store (snd (clearSession Samples.ready))) 0
  = read_set (store Samples.ready) 0.
Proof.
  refine (proj1 (proj2 (proj2 (proj2 (proj2 (proj2
            (clearSession_fresh Samples.ios Samples.ready)))))) 0%nat _).
  vm_compute. lia.
Defined.

Lemma addTag_propagates_witness :
  fst (addTag Samples.ios ["beta"] Samples.ready) = Ok tt.
Proof.
  refine (proj1 (addTag_propagates Samples.ios ["beta"] Samples.ready _)).
  intros _. eexists. reflexivity.
Defined.

Lemma setUser_object_overwrites_witness :
  user (curSession (snd (setUser Samples.ios
          (UObject (mkUser (Some "bob") None (Some "Bob") None None)) Samples.ready)))
  = mkUser (Some "bob") (Some false) (Some "Bob") (Some "") (Some "").
Proof.
  refine (proj1 (setUser_object_overwrites Samples.ios
                   (mkUser (Some "bob") None (Some "Bob") None None) Samples.ready _ _)).
  - reflexivity.
  - eexists. reflexivity.
Defined.

Lemma generatePayload_returns_iff_witness :
  exists p st',
    generatePayload Samples.ios (Some Samples.boom) [] (curSession Samples.ready)
      Samples.ready = (Ok p, st').
Proof.
  apply (proj2 (generatePayload_returns_iff Samples.ios (Some Samples.boom) []
                  (curSession Samples.ready) Samples.ready)).
  split.
  - intros H. vm_compute in H. discriminate.
  - eexists. reflexivity.
Defined.

Lemma generatePayload_footprint_witness :
  calls (snd (generatePayload Samples.ios (Some Samples.boom) []
                (curSession Samples.ready) Samples.ready))
  = calls Samples.ready.
Proof.
  refine (proj2 (proj2 (proj2 (proj2 (proj2 (proj2
            (generatePayload_footprint Samples.ios (Some Samples.boom) []
               (curSession Samples.ready) Samples.ready)))))) _).
  discriminate.
Defined.

Lemma generatePayload_fills_defaults_witness :
  Version (Details_ Samples.builtPayload) <> "".
Proof.
  refine (proj1 (generatePayload_fills_defaults Samples.ios (Some Samples.boom) []
                   (curSession Samples.ready) Samples.ready
                   Samples.builtPayload Samples.builtState _)).
  reflexivity.
Defined.

Lemma throwing_handler_stops_delivery_witness :
  exists ex new,
    fst (processUnhandledError Samples.ios (Some Samples.boom) false
           (Samples.started Samples.ios MoreSamples.strictOptions)) = Throw ex
    /\ calls (snd (processUnhandledError Samples.ios (Some Samples.boom) false
                     (Samples.started Samples.ios MoreSamples.strictOptions)))
       = calls (Samples.started Samples.ios MoreSamples.strictOptions) ++ new
    /\ sends new = []
    /\ length (handed new) = 1%nat.
Proof.
  apply (throwing_handler_stops_delivery Samples.ios
           (Samples.started Samples.ios MoreSamples.strictOptions)
           Samples.boom false MoreSamples.strictOptions MoreSamples.strictWriter).
  - reflexivity.
  - reflexivity.
  - reflexivity.
  - intros H. vm_compute in H. discriminate.
  - intros j. reflexivity.
Defined.

Lemma globalHandler_without_native_module_witness :
  globalHandler MoreSamples.androidBare (Some MoreSamples.previous)
    (Some Samples.boom) true (Samples.started MoreSamples.androidBare Samples.defaults)
  = (Throw (TypeError "Rg4rn is undefined"),
     tagFatal true (Samples.started MoreSamples.androidBare Samples.defaults)).
Proof.
  apply (globalHandler_without_native_module MoreSamples.androidBare
           (Some MoreSamples.previous) Samples.boom true
           (Samples.started MoreSamples.androidBare Samples.defaults));
    reflexivity.
Defined.

Lemma globalHandler_reports_then_chains_witness :
  exists st1 new,
    processUnhandledError Samples.ios (Some Samples.boom) false Samples.ready
    = (Ok tt, st1)
    /\ calls st1 = calls Samples.ready ++ new
    /\ length (sends new) = 1%nat
    /\ globalHandler Samples.ios (Some MoreSamples.previous) (Some Samples.boom) false
         Samples.ready
       = MoreSamples.previous (Some Samples.boom) false st1.
Proof.
  apply (globalHandler_reports_then_chains Samples.ios MoreSamples.previous
           Samples.boom false Samples.ready Samples.merged).
  - reflexivity.
  - reflexivity.
  - reflexivity.
  - intros H. vm_compute in H. discriminate.
  - intros _. eexists. reflexivity.
Defined.

Lemma Sdk_guarded_operations_forward_or_refuse_witness :
  Sdk.addCustomData (Sdk.P_object ∅) MoreSamples.sdkStarted
  = (Ok tt, Sdk.add_call (Sdk.crashReporter_addCustomData (Sdk.P_object ∅))
              MoreSamples.sdkStarted).
Proof.
  refine (proj1 (proj2 (Sdk_guarded_operations_forward_or_refuse
                          MoreSamples.sdkStarted _)) (Sdk.P_object ∅)).
  intros _. eexists. reflexivity.
Defined.

Lemma Sdk_init_once_witness :
  fst (Sdk.init MoreSamples.sdkOptions (Sdk.loaded "device")) = Ok true.
Proof.
  refine (proj1 (Sdk_init_once MoreSamples.sdkOptions (Sdk.loaded "device") _)).
  reflexivity.
Defined.

Lemma Sdk_addTag_after_init_witness :
  fst (Sdk.addTag ["beta"] MoreSamples.sdkStarted) = Ok tt.
Proof.
  refine (proj1 (Sdk_addTag_after_init ["beta"] MoreSamples.sdkStarted
                   MoreSamples.sdkOptions _)).
  reflexivity.
Defined.

Lemma Sdk_sendError_parameters_witness :
  Sdk.calls (snd (Sdk.sendError (Some Samples.boom) [] MoreSamples.sdkStarted))
  = Sdk.calls MoreSamples.sdkStarted
    ++ [Sdk.crashReporter_processUnhandledError (Some Samples.boom)].
Proof.
  refine (proj1 (Sdk_sendError_parameters (Some Samples.boom) MoreSamples.sdkStarted
                   MoreSamples.sdkOptions _ _)).
  - reflexivity.
  - reflexivity.
Defined.
